(** * NanoChat platform: the single-page frontend, verified against its spec

    A shallow embedding of the React frontend of the platform:
    the authentication context ([AuthContext]), the route table ([App]),
    the notebook editor ([NotebookPage]), the evaluation page ([EvalPage]),
    the chat page ([ChatPage]) and the inference page ([InferencePage]).

    React state is modelled by explicit state passing: a component's
    [useState] cells are the fields of a record, an event handler is a
    function from the state (and from what the server or the user answers)
    to the next state.  A handler runs to completion before the next event
    is handled, and an updater handed to a state setter runs once, on the
    value the updates before it left.  Promises that reject are [option]s
    and sums.  Strings are byte strings, the UTF-8 encoding of the text,
    and decoding a chunk of a response body gives its text as it is. *)

From Stdlib Require Import Ascii String ZArith QArith.
From stdpp Require Import base option list strings gmap pretty.

Local Open Scope stdpp_scope.
Local Open Scope Z_scope.

(** ** JavaScript string primitives used by the pages *)

Module Js.

(** [s.startsWith(p)] *)
Definition startsWith (s p : string) : bool := String.prefix p s.

(** [s.slice(n)] for a constant [n >= 0]. *)
Fixpoint slice (n : nat) (s : string) : string :=
  match n, s with
  | O, _ => s
  | S _, EmptyString => EmptyString
  | S n', String _ s' => slice n' s'
  end.

(** [s.split(sep)] for a one-character separator.  The result is never
    empty: the empty string splits into one empty piece. *)
Fixpoint split (sep : ascii) (s : string) : list string :=
  match s with
  | EmptyString => [EmptyString]
  | String c s' =>
      if Ascii.eqb c sep then EmptyString :: split sep s'
      else match split sep s' with
           | [] => [String c EmptyString]
           | piece :: pieces => String c piece :: pieces
           end
  end.

Definition LF : ascii := "010"%char.

(** [s.includes(sub)] *)
Fixpoint includes (s sub : string) : bool :=
  String.prefix sub s ||
  match s with
  | EmptyString => false
  | String _ s' => includes s' sub
  end.

(** White space removed by [trim]: the ECMAScript white space and line
    terminators.  Of one byte these are TAB, LF, VT, FF, CR and SPACE. *)
Definition is_space (c : ascii) : bool := Ascii.is_space c.

(** Of two bytes: U+00A0, the no-break space. *)
Definition is_space2 (c1 c2 : ascii) : bool :=
  (N_of_ascii c1 =? 194)%N && (N_of_ascii c2 =? 160)%N.

(** Of three bytes: U+1680, U+2000 to U+200A, the line and paragraph
    separators U+2028 and U+2029, U+202F, U+205F, U+3000 and U+FEFF. *)
Definition is_space3 (c1 c2 c3 : ascii) : bool :=
  let b1 := N_of_ascii c1 in
  let b2 := N_of_ascii c2 in
  let b3 := N_of_ascii c3 in
  ((b1 =? 225) && (b2 =? 154) && (b3 =? 128)
   || (b1 =? 226) && (b2 =? 128)
      && ((128 <=? b3) && (b3 <=? 138) || (b3 =? 168) || (b3 =? 169) || (b3 =? 175))
   || (b1 =? 226) && (b2 =? 129) && (b3 =? 159)
   || (b1 =? 227) && (b2 =? 128) && (b3 =? 128)
   || (b1 =? 239) && (b2 =? 187) && (b3 =? 191))%N.

Fixpoint trimStart (s : string) : string :=
  match s with
  | EmptyString => EmptyString
  | String c1 s1 =>
      if is_space c1 then trimStart s1
      else
        match s1 with
        | EmptyString => s
        | String c2 s2 =>
            if is_space2 c1 c2 then trimStart s2
            else
              match s2 with
              | EmptyString => s
              | String c3 s3 => if is_space3 c1 c2 c3 then trimStart s3 else s
              end
        end
  end.

(** Nothing but white space is left from the first character on exactly
    when [trimStart] leaves nothing. *)
Fixpoint trimEnd (s : string) : string :=
  match s with
  | EmptyString => EmptyString
  | String c s' => if String.eqb (trimStart s) "" then EmptyString else String c (trimEnd s')
  end.

(** [s.trim()] *)
Definition trim (s : string) : string := trimEnd (trimStart s).

(** Truthiness of a string: only the empty string is falsy. *)
Definition truthy (s : string) : bool := negb (String.eqb s "").

(** [a || b] on strings. *)
Definition or_else (a b : string) : string := if truthy a then a else b.

(** A template literal's rendering of a value that may be [null]. *)
Definition template (v : option string) : string := default "null" v.

(** A thrown JavaScript error, as far as the handlers look at it. *)
Record Error := mkError { err_name : string; err_message : string }.

Definition isAbortError (e : Error) : bool := String.eqb (err_name e) "AbortError".

End Js.

(** ** The authentication context (store/AuthContext) *)

Module AuthContext.

(** The user record the server returns; the frontend only tests it for
    presence. *)
Record User := mkUser { username : string; email : string }.

(** The provider's React state together with the two browser-wide stores
    it writes: durable [localStorage] and the default headers of the shared
    [axios] instance. *)
Record State := mkState {
  localStorage : gmap string string;
  axios_common : gmap string string;   (* axios.defaults.headers.common *)
  user : option User;
  loading : bool
}.

(** What [/api/auth/login] and [/api/auth/register] answer on success. *)
Record TokenResponse := mkTokenResponse { access_token : string; user_data : User }.

Definition bearer (token : string) : string := "Bearer " +:+ token.

Definition setUser (u : option User) (st : State) : State :=
  mkState (localStorage st) (axios_common st) u (loading st).

Definition setLoading (b : bool) (st : State) : State :=
  mkState (localStorage st) (axios_common st) (user st) b.

(** The body shared by [login] and [register] after the POST resolved. *)
Definition store_token (r : TokenResponse) (st : State) : State :=
  mkState (<["token" := access_token r]> (localStorage st))
          (<["Authorization" := bearer (access_token r)]> (axios_common st))
          (Some (user_data r))
          (loading st).

(** [login(username, password)]: [None] is a rejected POST, which the
    function lets escape to its caller before touching any state. *)
Definition login (resp : option TokenResponse) (st : State) : State * option User :=
  match resp with
  | None => (st, None)
  | Some r => (store_token r st, Some (user_data r))
  end.

(** [register(username, email, password)] *)
Definition register (resp : option TokenResponse) (st : State) : State * option User :=
  match resp with
  | None => (st, None)
  | Some r => (store_token r st, Some (user_data r))
  end.

Definition logout (st : State) : State :=
  mkState (delete "token" (localStorage st))
          (delete "Authorization" (axios_common st))
          None
          (loading st).

(** [fetchUser]: GET /api/auth/me; [None] is a rejected request. *)
Definition fetchUser (me : option User) (st : State) : State :=
  match me with
  | Some u => setLoading false (setUser (Some u) st)
  | None => setLoading false (logout st)
  end.

(** The mount effect of the provider. *)
Definition on_mount (me : option User) (st : State) : State :=
  match localStorage st !! "token" with
  | Some token =>
      if Js.truthy token then
        fetchUser me (mkState (localStorage st)
                              (<["Authorization" := bearer token]> (axios_common st))
                              (user st) (loading st))
      else setLoading false st
  | None => setLoading false st
  end.

(** A page load starts from fresh React state and fresh [axios] defaults;
    only [localStorage] survives. *)
Definition page_load (storage : gmap string string) : State :=
  mkState storage ∅ None true.

(** Headers of a request sent through the shared [axios] instance. *)
Definition axios_headers (st : State) : gmap string string := axios_common st.

(** Headers the chat page and the code cell build by hand for [fetch]. *)
Definition fetch_headers_with_token (st : State) : gmap string string :=
  <["Authorization" := bearer (Js.template (localStorage st !! "token"))]>
    {["Content-Type" := "application/json"]}.

(** Headers the inference page builds by hand for [fetch]. *)
Definition fetch_headers_plain : gmap string string :=
  {["Content-Type" := "application/json"]}.

End AuthContext.

(** ** The route table (App.jsx) *)

Module App.

Import AuthContext.

Inductive Page := Login | Register | Dashboard | NotebookPage | ChatPage | EvalPage.

(** What a route element renders to: a redirect or a page. *)
Inductive Element :=
| Navigate (to : string)
| Content (p : Page).

Definition PrivateRoute (user : option User) (children : Element) : Element :=
  match user with
  | Some _ => children
  | None => Navigate "/login"
  end.

Definition PublicRoute (user : option User) (children : Element) : Element :=
  match user with
  | Some _ => Navigate "/dashboard"
  | None => children
  end.

(** A [<Route path=... element=... />]; the element reads the user from the
    authentication context when it renders. *)
Record Route := mkRoute { path : string; element : option User -> Element }.

(** The table with the chat and evaluation pages. *)
Definition routes : list Route :=
  [ mkRoute "/" (fun _ => Navigate "/dashboard");
    mkRoute "/login" (fun u => PublicRoute u (Content Login));
    mkRoute "/register" (fun u => PublicRoute u (Content Register));
    mkRoute "/dashboard" (fun u => PrivateRoute u (Content Dashboard));
    mkRoute "/notebook/:id" (fun u => PrivateRoute u (Content NotebookPage));
    mkRoute "/chat" (fun u => PrivateRoute u (Content ChatPage));
    mkRoute "/eval" (fun u => PrivateRoute u (Content EvalPage)) ].

(** The earlier table (frontend/src/App.jsx), before chat and evaluation. *)
Definition routes_early : list Route :=
  [ mkRoute "/" (fun _ => Navigate "/dashboard");
    mkRoute "/login" (fun u => PublicRoute u (Content Login));
    mkRoute "/register" (fun u => PublicRoute u (Content Register));
    mkRoute "/dashboard" (fun u => PrivateRoute u (Content Dashboard));
    mkRoute "/notebook/:id" (fun u => PrivateRoute u (Content NotebookPage)) ].

(** The route declared for a path pattern, if any. *)
Fixpoint route_of (table : list Route) (p : string) : option Route :=
  match table with
  | [] => None
  | r :: table' => if String.eqb (path r) p then Some r else route_of table' p
  end.

(** What the route declared for pattern [p] renders for a given user. *)
Definition render (table : list Route) (p : string) (u : option User) : option Element :=
  (fun r => element r u) <$> route_of table p.

(** Where the browser ends up from location [p]: a route that renders a
    page keeps the location, and one that renders [Navigate] moves it to the
    target, whose route is rendered in turn. *)
Inductive lands (table : list Route) (u : option User) : string -> string -> Page -> Prop :=
| lands_here (p : string) (page : Page) :
    render table p u = Some (Content page) -> lands table u p p page
| lands_there (p to q : string) (page : Page) :
    render table p u = Some (Navigate to) -> lands table u to q page ->
    lands table u p q page.

Definition protected_paths : list string :=
  ["/dashboard"; "/notebook/:id"; "/chat"; "/eval"].

Definition public_paths : list string := ["/login"; "/register"].

End App.

(** Effects a handler has on the outside world, in the order they happen. *)
Inductive Effect :=
| Alert (msg : string)
| Confirm (msg : string)
| ConsoleError (msg : string)
| HttpGet (url : string)
| HttpPost (url : string).

(** ** The notebook editor (pages/NotebookPage) *)

Module NotebookPage.

Record Cell := mkCell {
  type : string;
  content : string;
  output : option string;
  execution_count : option Z
}.

(** A cell as /api/ipynb/load returns it; any field may be missing. *)
Record LoadedCell := mkLoadedCell {
  l_type : option string;
  l_code : option string;
  l_output : option string;
  l_execution_count : option Z
}.

(** The state cells of the page that the cell operations touch. *)
Record State := mkState {
  cells : list Cell;
  showOpenModal : bool;
  availableFiles : list string;
  loadingFiles : bool
}.

Definition setCells (cs : list Cell) (st : State) : State :=
  mkState cs (showOpenModal st) (availableFiles st) (loadingFiles st).

Definition setShowOpenModal (b : bool) (st : State) : State :=
  mkState (cells st) b (availableFiles st) (loadingFiles st).

(** [l.filter((x, i) => p(i))], with [i] counting from [from]. *)
Fixpoint filter_index {A} (p : nat -> bool) (from : nat) (l : list A) : list A :=
  match l with
  | [] => []
  | x :: l' =>
      if p from then x :: filter_index p (S from) l' else filter_index p (S from) l'
  end.

Definition addCell (st : State) : State :=
  setCells (cells st ++ [mkCell "code" "" None None]) st.

(** [newCells[index] = updatedCell] on a copy of the cells: the index of a
    cell replaces that cell, and the index just past the end appends one.
    A larger index leaves holes in the JavaScript array, which a list of
    cells does not hold: such a call is outside the model, [None]. *)
Definition updateCell (index : nat) (updatedCell : Cell) (st : State) : option State :=
  if (index <? length (cells st))%nat then
    Some (setCells (<[index := updatedCell]> (cells st)) st)
  else if (index =? length (cells st))%nat then
    Some (setCells (cells st ++ [updatedCell]) st)
  else None.

(** [deleteCell(index)]; [answer] is what the user answers to the
    confirmation dialog, if it is shown. *)
Definition deleteCell (index : nat) (answer : bool) (st : State) : State * list Effect :=
  if Nat.eqb (length (cells st)) 1 then
    (st, [Alert "Cannot delete the last cell"])
  else if answer then
    (setCells (filter_index (fun i => negb (Nat.eqb i index)) 0 (cells st)) st,
     [Confirm "Delete this cell?"])
  else
    (st, [Confirm "Delete this cell?"]).

(** [x || null] on an optional string: the empty string is falsy too. *)
Definition or_null (x : option string) : option string :=
  match x with
  | Some s => if Js.truthy s then Some s else None
  | None => None
  end.

(** [x || null] on an optional number: zero is falsy too. *)
Definition or_null_Z (x : option Z) : option Z :=
  match x with
  | Some n => if Z.eqb n 0 then None else Some n
  | None => None
  end.

Definition convert_cell (c : LoadedCell) : Cell :=
  mkCell (Js.or_else (default "" (l_type c)) "code")
         (Js.or_else (default "" (l_code c)) "")
         (or_null (l_output c))
         (or_null_Z (l_execution_count c)).

Definition dquote : string := String "034"%char EmptyString.

Definition load_prompt (filename : string) : string :=
  "Load " +:+ dquote +:+ filename +:+ dquote +:+
  "? This will replace the current notebook cells.".

(** [loadIpynbFile(filename)].  [resp] is the answer to the GET (the file
    name is percent-encoded in the real URL): [inl detail] is whatever makes
    the [try] block throw before the dialog, a rejected request or a reply
    without a [cells] array, with the text the alert then shows; [inr] is a
    reply with its cells.  [answer] is the user's answer to [confirm]. *)
Definition loadIpynbFile (filename : string)
    (resp : string + list LoadedCell) (answer : bool)
    (st : State) : State * list Effect :=
  let url := "/api/ipynb/load/" +:+ filename in
  match resp with
  | inl detail =>
      (st, [HttpGet url; ConsoleError "Failed to load file:";
            Alert ("Failed to load file: " +:+ detail)])
  | inr loaded =>
      let loadedCells := map convert_cell loaded in
      if answer then
        (setShowOpenModal false (setCells loadedCells st),
         [HttpGet url; Confirm (load_prompt filename);
          Alert ("Loaded " +:+ pretty (length loadedCells) +:+ " cells from " +:+ filename)])
      else
        (st, [HttpGet url; Confirm (load_prompt filename)])
  end.

End NotebookPage.

(** ** The evaluation page (pages/EvalPage) *)

Module EvalPage.

(** A task as the page tracks it and as /api/eval/status reports it. *)
Record Task := mkTask {
  task_id : string;
  model_id : string;
  benchmarks : list string;
  status : string;
  progress : Z;
  current_benchmark : option string
}.

(** One entry of the results list. *)
Record EvalResult := mkEvalResult {
  result_model_id : string;
  result_benchmarks : list string;
  completed_at : string
}.

(** A timer registered with [setInterval]: its handle, its period in
    milliseconds and the task its callback polls. *)
Record Interval := mkInterval { handle : nat; period : Z; polled : string }.

Record State := mkState {
  selectedBenchmarks : list string;
  selectedModel : string;
  runningTasks : list Task;
  results : list EvalResult;
  intervals : list Interval;       (* the timers that are still armed *)
  next_handle : nat
}.

Definition setSelectedBenchmarks (l : list string) (st : State) : State :=
  mkState l (selectedModel st) (runningTasks st) (results st) (intervals st) (next_handle st).

Definition setRunningTasks (l : list Task) (st : State) : State :=
  mkState (selectedBenchmarks st) (selectedModel st) l (results st) (intervals st) (next_handle st).

Definition setResults (l : list EvalResult) (st : State) : State :=
  mkState (selectedBenchmarks st) (selectedModel st) (runningTasks st) l (intervals st) (next_handle st).

(** [setInterval(callback, ms)] *)
Definition setInterval (ms : Z) (taskId : string) (st : State) : State :=
  mkState (selectedBenchmarks st) (selectedModel st) (runningTasks st) (results st)
          (intervals st ++ [mkInterval (next_handle st) ms taskId]) (S (next_handle st)).

(** [clearInterval(h)] *)
Definition clearInterval (h : nat) (st : State) : State :=
  mkState (selectedBenchmarks st) (selectedModel st) (runningTasks st) (results st)
          (List.filter (fun iv => negb (Nat.eqb (handle iv) h)) (intervals st))
          (next_handle st).

(** [prev.includes(x)] *)
Definition includes (l : list string) (x : string) : bool :=
  existsb (String.eqb x) l.

(** The updater of [toggleBenchmark], on the list of selected ids. *)
Definition toggle (benchmarkId : string) (prev : list string) : list string :=
  if includes prev benchmarkId
  then List.filter (fun id => negb (String.eqb id benchmarkId)) prev
  else prev ++ [benchmarkId].

Definition toggleBenchmark (benchmarkId : string) (st : State) : State :=
  setSelectedBenchmarks (toggle benchmarkId (selectedBenchmarks st)) st.

(** [loadResults]: [None] is a rejected GET, which is only logged. *)
Definition loadResults (resp : option (list EvalResult * list EvalResult))
    (st : State) : State :=
  match resp with
  | Some (active, cached) => setResults (active ++ cached) st
  | None => st
  end.

Definition status_url (taskId : string) : string := "/api/eval/status/" +:+ taskId.
Definition results_url : string := "/api/eval/results".

(** What a call of [loadResults] does to the outside: its GET, and the log
    of a rejected one. *)
Definition loadResults_effects (resp : option (list EvalResult * list EvalResult))
    : list Effect :=
  match resp with
  | Some _ => [HttpGet results_url]
  | None => [HttpGet results_url; ConsoleError "Failed to load results:"]
  end.

Definition is_final (t : Task) : bool :=
  String.eqb (status t) "completed" || String.eqb (status t) "failed".

(** The callback [pollTaskStatus] hands to [setInterval], for the timer
    [iv]; [resp] is the answer to the status GET, [None] when it is
    rejected.  On a final status the callback calls [loadResults()], whose
    GET is answered with [refreshed]; the call is not awaited, and its
    answer is taken to arrive before the next event. *)
Definition poll (iv : Interval) (resp : option Task)
    (refreshed : option (list EvalResult * list EvalResult)) (st : State)
    : State * list Effect :=
  let taskId := polled iv in
  match resp with
  | Some task =>
      let st1 := setRunningTasks
                   (map (fun t => if String.eqb (task_id t) taskId then task else t)
                        (runningTasks st)) st in
      if is_final task then
        (loadResults refreshed
           (setRunningTasks
              (List.filter (fun t => negb (String.eqb (task_id t) taskId)) (runningTasks st1))
              (clearInterval (handle iv) st1)),
         HttpGet (status_url taskId) :: loadResults_effects refreshed)
      else (st1, [HttpGet (status_url taskId)])
  | None =>
      (clearInterval (handle iv) st,
       [HttpGet (status_url taskId); ConsoleError "Failed to poll task status:"])
  end.

(** [pollTaskStatus(taskId)]: arms the timer, every 2000 ms. *)
Definition pollTaskStatus (taskId : string) (st : State) : State :=
  setInterval 2000 taskId st.

(** [runEvaluation]; [resp] is the task id /api/eval/run answers with,
    [None] when the POST is rejected. *)
Definition runEvaluation (resp : option string) (st : State) : State * list Effect :=
  if Nat.eqb (length (selectedBenchmarks st)) 0 || negb (Js.truthy (selectedModel st)) then
    (st, [Alert "Please select at least one benchmark and a model"])
  else
    match resp with
    | Some taskId =>
        let task := mkTask taskId (selectedModel st) (selectedBenchmarks st)
                           "running" 0 None in
        (pollTaskStatus taskId (setRunningTasks (runningTasks st ++ [task]) st),
         [HttpPost "/api/eval/run"])
    | None =>
        (st, [HttpPost "/api/eval/run";
              ConsoleError "Failed to start evaluation:";
              Alert "Failed to start evaluation"])
    end.

(** Handles are handed out in increasing order: every armed timer has a
    handle below the next one to be handed out. *)
Definition handles_fresh (st : State) : Prop :=
  Forall (fun iv => (handle iv < next_handle st)%nat) (intervals st).

(** The page as it mounts: nothing selected, nothing running. *)
Definition initial : State := mkState [] "" [] [] [] 0.

Definition setSelectedModel (m : string) (st : State) : State :=
  mkState (selectedBenchmarks st) m (runningTasks st) (results st) (intervals st) (next_handle st).

(** An answer that ends the polling: a final status, or a rejected GET. *)
Definition ends_polling (resp : option Task) : bool :=
  match resp with
  | Some task => is_final task
  | None => true
  end.

(** The timer with handle [h], if it is still armed. *)
Definition armed (h : nat) (st : State) : option Interval :=
  List.find (fun iv => Nat.eqb (handle iv) h) (intervals st).

(** The browser fires timer [h]: its callback runs if the timer is still
    armed, and nothing happens otherwise. *)
Definition fire (h : nat) (resp : option Task)
    (refreshed : option (list EvalResult * list EvalResult)) (st : State)
    : State * list Effect :=
  match armed h st with
  | Some iv => poll iv resp refreshed st
  | None => (st, [])
  end.

(** Timer [h] fires once per period, with the given answers in turn: at
    each firing the answer to the status GET and, should the callback ask
    for the results, the answer to that GET. *)
Fixpoint fire_all (h : nat)
    (resps : list (option Task * option (list EvalResult * list EvalResult)))
    (st : State) : State * list Effect :=
  match resps with
  | [] => (st, [])
  | (resp, refreshed) :: resps' =>
      let (st1, out1) := fire h resp refreshed st in
      let (st2, out2) := fire_all h resps' st1 in
      (st2, out1 ++ out2)
  end.

End EvalPage.

(** ** Chat messages and streams read with [fetch] *)

Module Stream.

(** A chat message, as both chat pages keep and send it. *)
Record Message := mkMessage { role : string; content : string }.

(** How the body of a streamed response ends: the reader reports [done],
    or [reader.read()] rejects (a dropped connection, or [AbortError]
    after the user pressed stop). *)
Inductive End :=
| Closed
| Broken (e : Js.Error).

(** The outcome of one [fetch]: it rejects, or it resolves to a response
    with a status and a body delivered as a sequence of decoded chunks. *)
Inductive Reply :=
| Rejected (e : Js.Error)
| Answered (status : N) (chunks : list string) (ending : End).

(** [response.ok] *)
Definition ok (status : N) : bool := ((200 <=? status) && (status <=? 299))%N.

(** [lines.pop()]: the last piece, and the pieces before it. *)
Definition pop (lines : list string) : list string * string :=
  (List.removelast lines, List.last lines EmptyString).

(** A request that fails, and not by an abort: the fetch is rejected, the
    status of the response is not ok, or the body breaks off. *)
Definition fails (reply : Reply) : bool :=
  match reply with
  | Rejected e => negb (Js.isAbortError e)
  | Answered status _ ending =>
      negb (ok status) ||
      match ending with
      | Closed => false
      | Broken e => negb (Js.isAbortError e)
      end
  end.

End Stream.

(** ** The chat page (pages/ChatPage) *)

Module ChatPage.

Import Stream.

Record State := mkState {
  messages : list Message;
  input : string;
  isGenerating : bool;
  abortController : bool          (* abortControllerRef.current is not null *)
}.

(** What [JSON.parse] makes of the payload of a frame, as far as the loop
    reads it: whether [parsed.error] is truthy, and the string at
    [parsed.choices?.[0]?.delta?.content], if there is one. *)
Record Chunk := mkChunk { chunk_error : bool; delta_content : option string }.

(** The body and headers of the POST to /api/chat/completions. *)
Record Request := mkRequest {
  url : string;
  headers : gmap string string;
  body_messages : list Message;
  body_stream : bool;
  body_temperature : Q;
  body_max_tokens : Z
}.

Definition setMessages (l : list Message) (st : State) : State :=
  mkState l (input st) (isGenerating st) (abortController st).

Definition setIsGenerating (b : bool) (st : State) : State :=
  mkState (messages st) (input st) b (abortController st).

(** The updaters of [sendMessage] copy the list and then assign to the
    [content] of its last message, in place: the message object is the one
    the previous list holds too, but that list is not read again, so the
    model gives the new list only.  On an empty list the JavaScript raises
    TypeError inside the updater; [sendMessage] only runs it after
    appending the placeholder, and the model leaves an empty list empty. *)
Fixpoint update_last (f : Message -> Message) (l : list Message) : list Message :=
  match l with
  | [] => []
  | [m] => [f m]
  | m :: l' => m :: update_last f l'
  end.

Definition append_content (text : string) (m : Message) : Message :=
  mkMessage (role m) (content m +:+ text).

Definition set_content (text : string) (m : Message) : Message :=
  mkMessage (role m) text.

Definition failure_text : string :=
  "Error: Failed to get response. Please try again.".

Section WithParser.

(** [JSON.parse], [None] when it throws (or when reading the fields of
    what it returned throws, as for [null]): the [catch] around it passes
    over the line. *)
Variable JSON_parse : string -> option Chunk.

(** The [for (const line of lines)] loop; a [break] ends it. *)
Fixpoint for_lines (lines : list string) (st : State) : State :=
  match lines with
  | [] => st
  | line :: rest =>
      if Js.startsWith line "data: " then
        let data := Js.slice 6 line in
        if String.eqb data "[DONE]" then setIsGenerating false st
        else
          match JSON_parse data with
          | None => for_lines rest st
          | Some parsed =>
              if chunk_error parsed then st
              else
                match delta_content parsed with
                | Some text =>
                    if Js.truthy text then
                      for_lines rest
                        (setMessages (update_last (append_content text) (messages st)) st)
                    else for_lines rest st
                | None => for_lines rest st
                end
          end
      else for_lines rest st
  end.

(** The [while (true)] loop over the chunks the reader delivers, with the
    carried-over [buffer]. *)
Fixpoint read_loop (buffer : string) (chunks : list string) (st : State) : State :=
  match chunks with
  | [] => st
  | value :: chunks' =>
      let (lines, piece) := pop (Js.split Js.LF (buffer +:+ value)) in
      read_loop (Js.or_else piece "") chunks' (for_lines lines st)
  end.

(** The [try] block after the request is issued: the state it leaves and
    the error it throws, if any. *)
Definition try_block (reply : Reply) (st : State) : State * option Js.Error :=
  match reply with
  | Rejected e => (st, Some e)
  | Answered status chunks ending =>
      if ok status then
        let st' := read_loop "" chunks st in
        match ending with
        | Closed => (st', None)
        | Broken e => (st', Some e)
        end
      else (st, Some (Js.mkError "Error" "Failed to get response"))
  end.

(** The [catch] block. *)
Definition catch_block (e : Js.Error) (st : State) : State :=
  if Js.isAbortError e then st
  else setMessages (update_last (set_content failure_text) (messages st)) st.

(** [sendMessage]: the state it leaves and the request it issued, if it
    got past its guard. *)
Definition sendMessage (auth : AuthContext.State) (reply : Reply) (st : State)
    : State * option Request :=
  if negb (Js.truthy (Js.trim (input st))) || isGenerating st then (st, None)
  else
    let userMessage := mkMessage "user" (Js.trim (input st)) in
    let newMessages := messages st ++ [userMessage] in
    let assistantMessage := mkMessage "assistant" "" in
    let st1 := mkState (newMessages ++ [assistantMessage]) "" true true in
    let request := mkRequest "/api/chat/completions"
                     (AuthContext.fetch_headers_with_token auth)
                     newMessages true 1 2048 in
    let (st2, thrown) := try_block reply st1 in
    let st3 := match thrown with
               | Some e => catch_block e st2
               | None => st2
               end in
    (mkState (messages st3) (input st3) false false, Some request).

End WithParser.

Definition setInput (text : string) (st : State) : State :=
  mkState (messages st) text (isGenerating st) (abortController st).

Definition clearChat (st : State) : State := setMessages [] st.

End ChatPage.

(** ** The inference page (pages/InferencePage) *)

Module InferencePage.

Import Stream.

(** A checkpoint as /api/inference/models lists it. *)
Record Model := mkModel {
  path : string;
  name : string;
  type : string;
  step : Z
}.

Record State := mkState {
  models : list Model;
  selectedModel : string;
  loading : bool;
  error : string;
  messages : list Message;
  inputText : string;
  isGenerating : bool;
  temperature : Q;
  topK : Z;
  maxTokens : Z;
  abortController : bool
}.

Definition initial : State :=
  mkState [] "" true "" [] "" false (Qmake 8 10) 50 512 false.

(** What [JSON.parse] makes of the payload of a frame: [data.error],
    [data.done] and [data.token]. *)
Record Frame := mkFrame {
  frame_error : option string;
  frame_done : bool;
  frame_token : option string
}.

(** The body and headers of the POST to /api/inference/chat. *)
Record Request := mkRequest {
  url : string;
  headers : gmap string string;
  body_messages : list Message;
  body_model : string;
  body_temperature : Q;
  body_top_k : Z;
  body_max_tokens : Z
}.

Definition setMessages (l : list Message) (st : State) : State :=
  mkState (models st) (selectedModel st) (loading st) (error st) l (inputText st)
          (isGenerating st) (temperature st) (topK st) (maxTokens st) (abortController st).

Definition setError (e : string) (st : State) : State :=
  mkState (models st) (selectedModel st) (loading st) e (messages st) (inputText st)
          (isGenerating st) (temperature st) (topK st) (maxTokens st) (abortController st).

Definition setLoading (b : bool) (st : State) : State :=
  mkState (models st) (selectedModel st) b (error st) (messages st) (inputText st)
          (isGenerating st) (temperature st) (topK st) (maxTokens st) (abortController st).

Definition setModels (l : list Model) (st : State) : State :=
  mkState l (selectedModel st) (loading st) (error st) (messages st) (inputText st)
          (isGenerating st) (temperature st) (topK st) (maxTokens st) (abortController st).

Definition setSelectedModel (p : string) (st : State) : State :=
  mkState (models st) p (loading st) (error st) (messages st) (inputText st)
          (isGenerating st) (temperature st) (topK st) (maxTokens st) (abortController st).

Definition setInputText (text : string) (st : State) : State :=
  mkState (models st) (selectedModel st) (loading st) (error st) (messages st) text
          (isGenerating st) (temperature st) (topK st) (maxTokens st) (abortController st).

(** *** Model discovery *)

(** The answer to GET /api/inference/models: rejected, with the server's
    [detail] text if it sent one, or resolved, with [response.data.models]
    if the field is there. *)
Inductive ModelsReply :=
| ModelsRejected (detail : option string)
| ModelsResolved (listed : option (list Model)).

Definition is_sft (m : Model) : bool := String.eqb (type m) "sft".

(** The callback of [reduce]: keeps the earlier model unless the current
    one has a strictly higher step. *)
Definition later (prev current : Model) : Model :=
  if step current >? step prev then current else prev.

(** [l.reduce(later)] without an initial value, on a non-empty list. *)
Definition reduce_later (first : Model) (others : list Model) : Model :=
  fold_left later others first.

Definition loadModels (reply : ModelsReply) (st : State) : State :=
  let st0 := setError "" (setLoading true st) in
  let st1 :=
    match reply with
    | ModelsResolved (Some (first :: others)) =>
        let listed := first :: others in
        let st' := setModels listed st0 in
        match List.filter is_sft listed with
        | sft :: sfts => setSelectedModel (path (reduce_later sft sfts)) st'
        | [] => setSelectedModel (path first) st'
        end
    | ModelsResolved _ =>
        setError "No trained models found. Please train a model first." st0
    | ModelsRejected detail =>
        setError (Js.or_else (default "" detail) "Failed to load models") st0
    end in
  setLoading false st1.

(** *** Sending a message *)

Definition cli_fallback : string :=
  "cd /var/www/gpt2/nanochat && source .venv/bin/activate && python -m scripts.chat_cli -i sft".

Definition unsupported_text : string :=
  "Web-based inference is not available on this ARM64/CPU server. Please use the nanochat CLI: "
  +:+ cli_fallback.

(** How the lines of one chunk end: the loop ran through or hit [break],
    or an error escaped it.  Either way the text accumulated so far and the
    state are carried along. *)
Inductive Flow :=
| Done (assistantContent : string) (st : State)
| Thrown (e : Js.Error) (assistantContent : string) (st : State).

Section WithParser.

(** [JSON.parse], [None] when it throws SyntaxError. *)
Variable JSON_parse : string -> option Frame.

(** The [for (const line of lines)] loop. *)
Fixpoint for_lines (newMessages : list Message) (lines : list string)
    (assistantContent : string) (st : State) : Flow :=
  match lines with
  | [] => Done assistantContent st
  | line :: rest =>
      if Js.startsWith line "data: " then
        match JSON_parse (Js.slice 6 line) with
        | None => for_lines newMessages rest assistantContent st
        | Some data =>
            if Js.truthy (default "" (frame_error data)) then
              Thrown (Js.mkError "Error" (default "" (frame_error data))) assistantContent st
            else if frame_done data then Done assistantContent st
            else if Js.truthy (default "" (frame_token data)) then
              let assistantContent' := assistantContent +:+ default "" (frame_token data) in
              for_lines newMessages rest assistantContent'
                (setMessages (newMessages ++ [mkMessage "assistant" assistantContent']) st)
            else for_lines newMessages rest assistantContent st
        end
      else for_lines newMessages rest assistantContent st
  end.

(** The [while (true)] loop; each chunk is split on its own. *)
Fixpoint read_loop (newMessages : list Message) (chunks : list string)
    (assistantContent : string) (st : State) : Flow :=
  match chunks with
  | [] => Done assistantContent st
  | value :: chunks' =>
      match for_lines newMessages (Js.split Js.LF value) assistantContent st with
      | Done assistantContent' st' => read_loop newMessages chunks' assistantContent' st'
      | Thrown e c st' => Thrown e c st'
      end
  end.

(** The [try] block after the request is issued. *)
Definition try_block (newMessages : list Message) (reply : Reply) (st : State)
    : State * option Js.Error :=
  match reply with
  | Rejected e => (st, Some e)
  | Answered status chunks ending =>
      if ok status then
        match read_loop newMessages chunks "" st with
        | Done _ st' =>
            match ending with
            | Closed => (st', None)
            | Broken e => (st', Some e)
            end
        | Thrown e _ st' => (st', Some e)
        end
      else (st, Some (Js.mkError "Error" ("HTTP error! status: " +:+ pretty status)))
  end.

(** The [catch] block. *)
Definition catch_block (newMessages : list Message) (e : Js.Error) (st : State) : State :=
  if Js.isAbortError e then st
  else
    let st' :=
      if Js.truthy (Js.err_message e) && Js.includes (Js.err_message e) "503"
      then setError unsupported_text st
      else setError (Js.or_else (Js.err_message e) "Failed to generate response") st in
    setMessages newMessages st'.

(** [handleSendMessage]: the state it leaves and the request it issued, if
    it got past its guards. *)
Definition handleSendMessage (reply : Reply) (st : State) : State * option Request :=
  if negb (Js.truthy (Js.trim (inputText st))) || negb (Js.truthy (selectedModel st))
  then (st, None)
  else if isGenerating st then (st, None)
  else
    let userMessage := mkMessage "user" (Js.trim (inputText st)) in
    let newMessages := messages st ++ [userMessage] in
    let assistantMessage := mkMessage "assistant" "" in
    let st1 := mkState (models st) (selectedModel st) (loading st) (error st)
                 (newMessages ++ [assistantMessage]) "" true
                 (temperature st) (topK st) (maxTokens st) true in
    let request := mkRequest "/api/inference/chat" AuthContext.fetch_headers_plain
                     newMessages (selectedModel st)
                     (temperature st) (topK st) (maxTokens st) in
    let (st2, thrown) := try_block newMessages reply st1 in
    let st3 := match thrown with
               | Some e => catch_block newMessages e st2
               | None => st2
               end in
    (mkState (models st3) (selectedModel st3) (loading st3) (error st3)
             (messages st3) (inputText st3) false
             (temperature st3) (topK st3) (maxTokens st3) false,
     Some request).

End WithParser.

(** *** What the page renders *)

Inductive Handler := HandleSendMessage | HandleKeyPress | HandleStopGeneration.

(** The chat column of the rendered page: the notice at its top, the error
    banner, the messages, and the input area with its banner, text area
    and button.  Icons are left out of the texts. *)
Record View := mkView {
  notice_title : string;
  notice_text : string;
  notice_command : string;
  error_banner : option string;
  shown_messages : list Message;
  banner_title : string;
  banner_text : string;
  banner_commands : list string;
  textarea_value : string;
  textarea_placeholder : string;
  textarea_disabled : bool;
  textarea_onKeyDown : option Handler;
  button_label : string;
  button_disabled : bool;
  button_onClick : option Handler
}.

Definition render (st : State) : View :=
  mkView
    "ARM64/CPU Server Notice"
    "Web-based chat is not available on this server (requires GPU + Flash Attention 3). Use the nanochat CLI for inference:"
    cli_fallback
    (if Js.truthy (error st) then Some (error st) else None)
    (messages st)
    "Web Chat Disabled"
    "Flash Attention 3 kernels not available for GB10 GPU (compute capability 12.1). Use the CLI instead:"
    ["$ cd /var/www/gpt2/nanochat"; "$ source .venv/bin/activate"; "$ python -m scripts.chat_cli -i sft"]
    (inputText st)
    "Web chat is disabled on this server - use CLI (see above)"
    true
    None
    "Send (Disabled)"
    true
    None.

(** The input controls accept input: neither is disabled and the button
    is wired to the send handler. *)
Definition controls_enabled (v : View) : bool :=
  negb (textarea_disabled v) && negb (button_disabled v) &&
  match button_onClick v with Some HandleSendMessage => true | _ => false end.


(** *** The host the page talks to *)





End InferencePage.

(** ** Frames on the wire *)

(** The frames the two services write, for texts that JSON leaves
    unescaped (no quote, backslash or control character), and a reader of
    exactly those frames.  The loops above are parametric in [JSON.parse];
    this reader stands for it where a stream is written out in full. *)
Module Frames.

Definition dquote : string := String "034"%char EmptyString.

Definition quoted (s : string) : string := dquote +:+ s +:+ dquote.

(** [s.endsWith(p)] *)
Definition endsWith (s p : string) : bool :=
  String.eqb (Js.slice (String.length s - String.length p) s) p
  && (String.length p <=? String.length s)%nat.

(** [s.slice(from, s.length - back)] *)
Definition between (from back : nat) (s : string) : string :=
  String.substring from (String.length s - from - back) s.

(** The payload between a fixed opening and a fixed closing text. *)
Definition enclosed (opening closing data : string) : option string :=
  if Js.startsWith data opening && endsWith data closing
     && (String.length opening + String.length closing <=? String.length data)%nat
  then Some (between (String.length opening) (String.length closing) data)
  else None.

Definition delta_open : string :=
  "{" +:+ quoted "choices" +:+ ":[{" +:+ quoted "delta" +:+ ":{" +:+ quoted "content" +:+ ":" +:+ dquote.
Definition delta_close : string := dquote +:+ "}}]}".

(** [data: {"choices":[{"delta":{"content":"..."}}]}] *)
Definition delta (text : string) : string := delta_open +:+ text +:+ delta_close.

Definition error_open : string := "{" +:+ quoted "error" +:+ ":" +:+ dquote.
Definition error_close : string := dquote +:+ "}".

(** [{"error":"..."}] *)
Definition error_frame (msg : string) : string := error_open +:+ msg +:+ error_close.

Definition token_open : string := "{" +:+ quoted "token" +:+ ":" +:+ dquote.

(** [{"token":"..."}] *)
Definition token_frame (text : string) : string := token_open +:+ text +:+ error_close.

(** [{"done":true}] *)
Definition done_frame : string := "{" +:+ quoted "done" +:+ ":true}".

(** A server-sent event carrying [payload]. *)
Definition event (payload : string) : string :=
  "data: " +:+ payload +:+ String Js.LF (String Js.LF EmptyString).

Definition parse_chunk (data : string) : option ChatPage.Chunk :=
  match enclosed delta_open delta_close data with
  | Some text => Some (ChatPage.mkChunk false (Some text))
  | None =>
      match enclosed error_open error_close data with
      | Some msg => Some (ChatPage.mkChunk (Js.truthy msg) None)
      | None => None
      end
  end.

Definition parse_frame (data : string) : option InferencePage.Frame :=
  if String.eqb data done_frame then Some (InferencePage.mkFrame None true None)
  else
    match enclosed token_open error_close data with
    | Some text => Some (InferencePage.mkFrame None false (Some text))
    | None =>
        match enclosed error_open error_close data with
        | Some msg => Some (InferencePage.mkFrame (Some msg) false None)
        | None => None
        end
    end.

End Frames.

(** ** Lines of a stream *)

(** The vocabulary for reasoning about a body that arrives in chunks. *)
Module Lines.

(** No occurrence of the character [sep]. *)
Fixpoint free_of (sep : ascii) (s : string) : bool :=
  match s with
  | EmptyString => true
  | String c s' => negb (Ascii.eqb c sep) && free_of sep s'
  end.

(** The complete lines of [s] and the unfinished piece after the last
    line feed: what [split] and [pop] make of a buffer. *)
Definition complete (s : string) : list string := fst (Stream.pop (Js.split Js.LF s)).
Definition pending (s : string) : string := snd (Stream.pop (Js.split Js.LF s)).

(** One more character in front of a split buffer. *)
Definition cons_first (c : ascii) (p : list string * string) : list string * string :=
  match p with
  | ([], piece) => ([], String c piece)
  | (line :: lines, piece) => (String c line :: lines, piece)
  end.

(** The whole body: the chunks one after the other. *)
Definition joined (chunks : list string) : string := fold_right String.append EmptyString chunks.

(** What the chat page's loop does with one line: pass over it, append a
    text to the last message and go on, or leave the loop, at the
    end-of-stream sentinel or at an error frame. *)
Inductive Kind :=
| Skip
| Append (text : string)
| Sentinel
| ErrorFrame.

Definition kind (parse : string -> option ChatPage.Chunk) (line : string) : Kind :=
  if Js.startsWith line "data: " then
    if String.eqb (Js.slice 6 line) "[DONE]" then Sentinel
    else
      match parse (Js.slice 6 line) with
      | None => Skip
      | Some parsed =>
          if ChatPage.chunk_error parsed then ErrorFrame
          else
            match ChatPage.delta_content parsed with
            | Some text => if Js.truthy text then Append text else Skip
            | None => Skip
            end
      end
  else Skip.

Definition leaves (k : Kind) : bool :=
  match k with
  | Sentinel | ErrorFrame => true
  | _ => false
  end.

Definition skips (k : Kind) : bool :=
  match k with
  | Skip => true
  | _ => false
  end.

(** After the first line that leaves the loop, only lines that are passed
    over follow. *)
Fixpoint quiet_after_leave (kinds : list Kind) : bool :=
  match kinds with
  | [] => true
  | k :: kinds' => if leaves k then forallb skips kinds' else quiet_after_leave kinds'
  end.

(** The body the chat service writes for the deltas [texts]: one event
    per delta, then the sentinel; [enc] writes a delta as JSON. *)
Definition sse_body (enc : string -> string) (texts : list string) : string :=
  joined (map (fun text => Frames.event (enc text)) texts) +:+ Frames.event "[DONE]".

(** A body cut into chunks of [S n] characters; [fuel] bounds the number
    of chunks. *)
Fixpoint cut (fuel n : nat) (s : string) : list string :=
  match fuel with
  | O => [s]
  | S fuel' =>
      if (String.length s <=? S n)%nat then [s]
      else String.substring 0 (S n) s :: cut fuel' n (Js.slice (S n) s)
  end.

(** The texts one after the other. *)
Definition concat_texts (texts : list string) : string := joined texts.

(** The last message is an assistant message, after the messages [pre]. *)
Definition placeholder_after (pre msgs : list Stream.Message) : Prop :=
  exists text, msgs = pre ++ [Stream.mkMessage "assistant" text].

(** The line of an event. *)
Definition data_line (payload : string) : string := "data: " +:+ payload.

(** The lines of the body [sse_body enc texts]: a data line and an empty
    line per event. *)
Definition body_lines (enc : string -> string) (texts : list string) : list string :=
  flat_map (fun text => [data_line (enc text); ""]) texts ++ [data_line "[DONE]"; ""].

(** [enc] writes a delta the way [parse] reads it back, on one line, and
    never as the sentinel. *)
Definition written_and_read (parse : string -> option ChatPage.Chunk)
    (enc : string -> string) (text : string) : Prop :=
  parse (enc text) = Some (ChatPage.mkChunk false (Some text)) /\
  free_of Js.LF (enc text) = true /\
  enc text <> "[DONE]".

(** [enc] writes a token frame of the inference service the way [parse]
    reads it back, on one line. *)
Definition token_written_and_read (parse : string -> option InferencePage.Frame)
    (enc : string -> string) (token : string) : Prop :=
  parse (enc token) = Some (InferencePage.mkFrame None false (Some token)) /\
  free_of Js.LF (enc token) = true.

(** The inference page's state with the assistant's text so far shown
    after [newMessages]. *)
Definition showing (newMessages : list Stream.Message) (text : string)
    (st : InferencePage.State) : InferencePage.State :=
  InferencePage.setMessages (newMessages ++ [Stream.mkMessage "assistant" text]) st.

End Lines.

(** ** Every place the frontend issues a request *)

Module Requests.

(** How a call site sends its request: through the shared [axios]
    instance, through [fetch] with an Authorization header built from the
    stored token, or through [fetch] with a content type only. *)
Inductive Transport := Axios | FetchWithToken | FetchPlain.

(** The call sites of the pages and components. *)
Inductive Site :=
| AuthMe | AuthLogin | AuthRegister                         (* AuthContext *)
| ProjectsList | ProjectNotebooks | ProjectCreate | NotebookCreate   (* Dashboard *)
| NotebookGet | NotebookPut | IpynbList | IpynbLoad         (* NotebookPage *)
| ExecuteStream                                             (* CodeCell *)
| ChatCompletions                                           (* ChatPage *)
| EvalBenchmarks | EvalModels | EvalResults | EvalRun | EvalStatus   (* EvalPage *)
| InferenceModels | InferenceChat.                          (* InferencePage *)

Definition transport (s : Site) : Transport :=
  match s with
  | ExecuteStream | ChatCompletions => FetchWithToken
  | InferenceChat => FetchPlain
  | _ => Axios
  end.

(** The headers a request from call site [s] goes out with. *)
Definition headers (auth : AuthContext.State) (s : Site) : gmap string string :=
  match transport s with
  | Axios => AuthContext.axios_headers auth
  | FetchWithToken => AuthContext.fetch_headers_with_token auth
  | FetchPlain => AuthContext.fetch_headers_plain
  end.


End Requests.

(** ** The code cell (components/CodeCell) *)

Module CodeCell.

Import Stream.

(** The cell's own React state; the cell itself is a prop. *)
Record State := mkState { running : bool; output : string; editMode : bool }.

(** [useState(cell.output || '')] and the other initial values. *)
Definition mount (cell : NotebookPage.Cell) : State :=
  mkState false (Js.or_else (default "" (NotebookPage.output cell)) "") false.

(** What [JSON.parse] makes of the payload of a frame of
    /api/execute/stream: [data.type], [data.text] and [data.return_code],
    the last two possibly missing. *)
Record Frame := mkFrame {
  frame_type : string;
  frame_text : option string;
  return_code : option Z
}.

(** A value that may be [undefined], inside a template literal or added to
    a string. *)
Definition shown (v : option string) : string := default "undefined" v.

Definition shown_number (v : option Z) : string :=
  match v with
  | Some n => pretty n
  | None => "undefined"
  end.

Definition line_feed : string := String Js.LF EmptyString.

Definition stopped_text : string := line_feed +:+ "[Execution stopped by user]".

(** [{ ...cell, output: text }] *)
Definition with_output (cell : NotebookPage.Cell) (text : string) : NotebookPage.Cell :=
  NotebookPage.mkCell (NotebookPage.type cell) (NotebookPage.content cell)
                      (Some text) (NotebookPage.execution_count cell).

Definition setOutput (text : string) (st : State) : State :=
  mkState (running st) text (editMode st).

Definition setRunning (b : bool) (st : State) : State :=
  mkState b (output st) (editMode st).

(** What one parsed frame adds to the output, if it adds anything. *)
Definition frame_output (data : Frame) : option string :=
  if String.eqb (frame_type data) "stdout" || String.eqb (frame_type data) "stderr" then
    Some (shown (frame_text data))
  else if String.eqb (frame_type data) "error" then
    Some (line_feed +:+ "Error: " +:+ shown (frame_text data))
  else if String.eqb (frame_type data) "done" then
    match return_code data with
    | Some 0 => None
    | code => Some (line_feed +:+ "[Exit code: " +:+ shown_number code +:+ "]")
    end
  else None.

Section WithParser.

(** [JSON.parse], [None] when it throws; the [catch] around it logs the
    error and goes on with the next line. *)
Variable JSON_parse : string -> option Frame.

(** The [for (const line of lines)] loop, with the local [fullOutput]. *)
Fixpoint for_lines (lines : list string) (fullOutput : string) (st : State)
    : string * State :=
  match lines with
  | [] => (fullOutput, st)
  | line :: rest =>
      if Js.startsWith line "data: " then
        match JSON_parse (Js.slice 6 line) with
        | None => for_lines rest fullOutput st
        | Some data =>
            match frame_output data with
            | Some text =>
                let fullOutput' := fullOutput +:+ text in
                for_lines rest fullOutput' (setOutput fullOutput' st)
            | None => for_lines rest fullOutput st
            end
        end
      else for_lines rest fullOutput st
  end.

(** The [while (true)] loop; each chunk is split on its own. *)
Fixpoint read_loop (chunks : list string) (fullOutput : string) (st : State)
    : string * State :=
  match chunks with
  | [] => (fullOutput, st)
  | value :: chunks' =>
      let (fullOutput', st') := for_lines (Js.split Js.LF value) fullOutput st in
      read_loop chunks' fullOutput' st'
  end.

(** The [catch] block; [shownBefore] is the [output] the handler closed
    over, the one on screen when the run was started. *)
Definition catch_block (cell : NotebookPage.Cell) (shownBefore : string) (e : Js.Error)
    (st : State) : State * list NotebookPage.Cell :=
  if Js.isAbortError e then
    let abortedOutput := shownBefore +:+ stopped_text in
    (setOutput abortedOutput st, [with_output cell abortedOutput])
  else
    let errorOutput := "Error: " +:+ Js.err_message e in
    (setOutput errorOutput st, [with_output cell errorOutput]).

(** [handleRun]: the state it leaves and the cells it hands to [onChange].
    The status of the response is not looked at. *)
Definition handleRun (cell : NotebookPage.Cell) (reply : Reply) (st : State)
    : State * list NotebookPage.Cell :=
  let st1 := setOutput "" (setRunning true st) in
  let (st2, changes) :=
    match reply with
    | Rejected e => catch_block cell (output st) e st1
    | Answered _ chunks ending =>
        let (fullOutput, st') := read_loop chunks "" st1 in
        match ending with
        | Closed => (st', [with_output cell fullOutput])
        | Broken e => catch_block cell (output st) e st'
        end
    end in
  (setRunning false st2, changes).

End WithParser.

(** The frames of /api/execute/stream written as events, one per chunk. *)
Definition events (enc : Frame -> string) (frames : list Frame) : list string :=
  map (fun data => Frames.event (enc data)) frames.

(** What the frames add to the output, one after the other. *)
Definition frames_output (frames : list Frame) : string :=
  Lines.joined (map (fun data => default "" (frame_output data)) frames).

(** A writer and a reader of frames, for examples: text frames of type
    stdout and stderr, and the done frame of a run that exits with 0. *)
Definition text_open (type : string) : string :=
  "{" +:+ Frames.quoted "type" +:+ ":" +:+ Frames.quoted type +:+ ","
  +:+ Frames.quoted "text" +:+ ":" +:+ Frames.dquote.

Definition done_ok : string :=
  "{" +:+ Frames.quoted "type" +:+ ":" +:+ Frames.quoted "done" +:+ ","
  +:+ Frames.quoted "return_code" +:+ ":0}".

Definition write_run_frame (data : Frame) : string :=
  if String.eqb (frame_type data) "done" then done_ok
  else text_open (frame_type data) +:+ shown (frame_text data) +:+ Frames.error_close.

Definition parse_run_frame (data : string) : option Frame :=
  if String.eqb data done_ok then Some (mkFrame "done" None (Some 0))
  else
    match Frames.enclosed (text_open "stdout") Frames.error_close data with
    | Some text => Some (mkFrame "stdout" (Some text) None)
    | None =>
        match Frames.enclosed (text_open "stderr") Frames.error_close data with
        | Some text => Some (mkFrame "stderr" (Some text) None)
        | None => None
        end
    end.

End CodeCell.

(** ** The registration page (pages/Register) *)

Module Register.

Record State := mkState {
  username : string;
  email : string;
  password : string;
  confirmPassword : string;
  error : string;
  loading : bool
}.

Definition setError (e : string) (st : State) : State :=
  mkState (username st) (email st) (password st) (confirmPassword st) e (loading st).

Definition setLoading (b : bool) (st : State) : State :=
  mkState (username st) (email st) (password st) (confirmPassword st) (error st) b.

(** [handleSubmit]: the form state, the authentication state and where the
    page navigates, if it does.  [resp] is the answer to the POST: [inl] a
    rejection, with the server's [detail] if it sent one. *)
Definition handleSubmit (resp : option string + AuthContext.TokenResponse)
    (auth : AuthContext.State) (st : State)
    : State * AuthContext.State * option string :=
  let st0 := setError "" st in
  if negb (String.eqb (password st) (confirmPassword st)) then
    (setError "Passwords do not match" st0, auth, None)
  else
    match resp with
    | inr r =>
        (setLoading false (setLoading true st0),
         fst (AuthContext.register (Some r) auth), Some "/dashboard")
    | inl detail =>
        (setLoading false
           (setError (Js.or_else (default "" detail) "Registration failed")
                     (setLoading true st0)),
         fst (AuthContext.register None auth), None)
    end.

End Register.

(** ** The dashboard (pages/Dashboard) *)

Module Dashboard.

Record Project := mkProject {
  project_id : Z;
  project_name : string;
  description : option string
}.

Record Notebook := mkNotebook { notebook_id : Z; notebook_name : string }.

Record State := mkState {
  projects : list Project;
  notebooks : gmap Z (list Notebook);       (* keyed by project id *)
  loading : bool;
  showNewProject : bool;
  newProjectName : string;
  newProjectDesc : string
}.

Definition initial : State := mkState [] ∅ true false "" "".

Definition setProjects (l : list Project) (st : State) : State :=
  mkState l (notebooks st) (loading st) (showNewProject st) (newProjectName st) (newProjectDesc st).

Definition setNotebooks (m : gmap Z (list Notebook)) (st : State) : State :=
  mkState (projects st) m (loading st) (showNewProject st) (newProjectName st) (newProjectDesc st).

Definition setLoading (b : bool) (st : State) : State :=
  mkState (projects st) (notebooks st) b (showNewProject st) (newProjectName st) (newProjectDesc st).

Definition notebooks_url (p : Project) : string :=
  "/api/notebooks/project/" +:+ pretty (project_id p).

(** The loop over the projects: [answers] is what the server answers for
    the notebooks of a project, [None] for a rejected request; the loop
    gives the filled [notebooksData] and the requests it made, or, when a
    request is rejected, [None] and the requests made up to that one. *)
Fixpoint collect (answers : Z -> option (list Notebook)) (ps : list Project)
    (notebooksData : gmap Z (list Notebook))
    : option (gmap Z (list Notebook)) * list Effect :=
  match ps with
  | [] => (Some notebooksData, [])
  | p :: ps' =>
      match answers (project_id p) with
      | Some listed =>
          let (result, gets) := collect answers ps' (<[project_id p := listed]> notebooksData) in
          (result, HttpGet (notebooks_url p) :: gets)
      | None => (None, [HttpGet (notebooks_url p)])
      end
  end.

(** [loadProjects]; [resp] is the answer to GET /api/projects/. *)
Definition loadProjects (resp : option (list Project))
    (answers : Z -> option (list Notebook)) (st : State) : State * list Effect :=
  match resp with
  | None =>
      (setLoading false st,
       [HttpGet "/api/projects/"; ConsoleError "Failed to load projects:"])
  | Some listed =>
      let st1 := setProjects listed st in
      match collect answers listed ∅ with
      | (Some notebooksData, gets) =>
          (setLoading false (setNotebooks notebooksData st1), HttpGet "/api/projects/" :: gets)
      | (None, gets) =>
          (setLoading false st1,
           HttpGet "/api/projects/" :: gets ++ [ConsoleError "Failed to load projects:"])
      end
  end.

(** [notebooks[project.id]?.length || 0], the count shown on a project. *)
Definition notebook_count (st : State) (p : Project) : nat :=
  length (default [] (notebooks st !! project_id p)).

End Dashboard.

(** ** More of the notebook editor *)

Module NotebookEditor.

Import NotebookPage.

(** The cell [saveNotebook] puts in the body of its PUT for a cell of the
    page. *)
Definition saved_cell (cell : Cell) : Cell :=
  mkCell (Js.or_else (type cell) "code")
         (Js.or_else (content cell) "")
         (or_null (output cell))
         (or_null_Z (execution_count cell)).

(** The body of the PUT of [saveNotebook]. *)
Definition saveNotebook_body (st : State) : list Cell := map saved_cell (cells st).

(** A cell as importing or saving leaves it: a type, no empty output, no
    execution count of zero. *)
Definition normal (cell : Cell) : Prop :=
  type cell <> "" /\ output cell <> Some "" /\ execution_count cell <> Some 0.

(** What the user does in the editor, as far as the cells go. *)
Inductive Action :=
| AddCell
| UpdateCell (index : nat) (updatedCell : Cell)
| DeleteCell (index : nat) (answer : bool).

(** One action; [None] when it is an update the model does not cover. *)
Definition act (a : Action) (st : State) : option State :=
  match a with
  | AddCell => Some (addCell st)
  | UpdateCell index updatedCell => updateCell index updatedCell st
  | DeleteCell index answer => Some (fst (deleteCell index answer st))
  end.

(** The actions in a row. *)
Fixpoint edit (actions : list Action) (st : State) : option State :=
  match actions with
  | [] => Some st
  | a :: actions' =>
      match act a st with
      | Some st' => edit actions' st'
      | None => None
      end
  end.

(** Every update is of a cell there is, or appends just past the end. *)
Fixpoint in_range (actions : list Action) (n : nat) : Prop :=
  match actions with
  | [] => True
  | AddCell :: actions' => in_range actions' (S n)
  | UpdateCell index _ :: actions' =>
      (index <= n)%nat /\ in_range actions' (if (index =? n)%nat then S n else n)
  | DeleteCell index answer :: actions' =>
      in_range actions'
        (if (n =? 1)%nat then n
         else if answer && (index <? n)%nat then (n - 1)%nat else n)
  end.

End NotebookEditor.

(** ** A session: the events of the authentication context in a row *)

Module Session.

Import AuthContext.

(** The provider's state, and whether the GET /api/auth/me that the mount
    effect sent is still unanswered. *)
Record World := mkWorld { auth : State; pending : bool }.

(** The mount effect up to its request: with a stored token it sets the
    default header and calls [fetchUser], whose answer comes later; the
    provider renders its children meanwhile. *)
Definition mount (storage : gmap string string) : World :=
  let st := page_load storage in
  match localStorage st !! "token" with
  | Some token =>
      if Js.truthy token then
        mkWorld (mkState (localStorage st)
                         (<["Authorization" := bearer token]> (axios_common st))
                         (user st) (loading st))
                true
      else mkWorld (setLoading false st) false
  | None => mkWorld (setLoading false st) false
  end.

(** What can happen to the context after the page has loaded. *)
Inductive Event :=
| Login (resp : option TokenResponse)
| Register (resp : option TokenResponse)
| Logout
| MeAnswered (me : option User).     (* the answer to GET /api/auth/me arrives *)

Definition step (ev : Event) (w : World) : World :=
  match ev with
  | Login resp => mkWorld (fst (login resp (auth w))) (pending w)
  | Register resp => mkWorld (fst (register resp (auth w))) (pending w)
  | Logout => mkWorld (logout (auth w)) (pending w)
  | MeAnswered me => if pending w then mkWorld (fetchUser me (auth w)) false else w
  end.

(** A page load with the stored values [storage], and then the events in
    turn. *)
Definition run (storage : gmap string string) (events : list Event) : World :=
  fold_left (fun w ev => step ev w) events (mount storage).

(** The answer to /api/auth/me brings a user after a logout. *)
Definition late_answer (events : list Event) : Prop :=
  exists before after u, events = before ++ MeAnswered (Some u) :: after /\ In Logout before.

End Session.

(** ** Several turns of the chat page *)

Module Conversation.

Import Stream.

(** [!text.trim()]: nothing but white space. *)
Definition blank (s : string) : bool := negb (Js.truthy (Js.trim s)).

(** The user types [text] and sends it, the service answers with [reply];
    and so on for every turn of the script. *)
Fixpoint turns (parse : string -> option ChatPage.Chunk) (auth : AuthContext.State)
    (script : list (string * Reply)) (st : ChatPage.State) : ChatPage.State :=
  match script with
  | [] => st
  | (text, reply) :: script' =>
      turns parse auth script'
        (fst (ChatPage.sendMessage parse auth reply (ChatPage.setInput text st)))
  end.

(** The texts of the script that are sent, as they are sent. *)
Definition questions (script : list (string * Reply)) : list string :=
  map Js.trim (List.filter (fun text => negb (blank text)) (map fst script)).

(** A conversation of questions and answers, in turns. *)
Definition exchange (questions answers : list string) : list Message :=
  flat_map (fun qa => [mkMessage "user" (fst qa); mkMessage "assistant" (snd qa)])
           (zip questions answers).

End Conversation.

(** ** Text carried from one chunk to the next *)

Module Buffering.

(** A line and its line feed. *)
Definition with_LF (line : string) : string := line +:+ String Js.LF EmptyString.

(** The lines back together, each with its line feed. *)
Definition unsplit (lines : list string) : string := Lines.joined (map with_LF lines).

End Buffering.

(** ** Bodies written out for the examples *)

Module Sse.

(** The body of the reply [Hello world] in three deltas. *)
Definition hello : string := Lines.sse_body Frames.delta ["Hel"; "lo"; " world"].

End Sse.

(** * Properties *)

(** ** Route guards *)

Section RouteGuards.

Import App.

Lemma PrivateRoute_anonymous (children : Element) :
  PrivateRoute None children = Navigate "/login".
Proof. reflexivity. Qed.

Lemma PrivateRoute_user (u : AuthContext.User) (children : Element) :
  PrivateRoute (Some u) children = children.
Proof. reflexivity. Qed.

Lemma PublicRoute_user (u : AuthContext.User) (children : Element) :
  PublicRoute (Some u) children = Navigate "/dashboard".
Proof. reflexivity. Qed.

Lemma PublicRoute_anonymous (children : Element) :
  PublicRoute None children = children.
Proof. reflexivity. Qed.

(** C7: without an authenticated user every protected route (dashboard,
    notebook, chat, eval) renders a redirect to the login page, not its
    page; with one, the login and register routes render a redirect to the
    dashboard, not their page. *)
Theorem route_guards (p : string) :
  (In p protected_paths -> render routes p None = Some (Navigate "/login")) /\
  (In p public_paths ->
   forall u, render routes p (Some u) = Some (Navigate "/dashboard")).
Proof.
  split.
  - intros Hp. simpl in Hp.
    destruct Hp as [<- | [<- | [<- | [<- | []]]]]; reflexivity.
  - intros Hp u. simpl in Hp.
    destruct Hp as [<- | [<- | []]]; reflexivity.
Qed.

(** The guards let the page through in the other case, so the redirect is
    the guard's doing and not the only thing a route can render. *)
Lemma guards_let_through :
  render routes "/chat" (Some (AuthContext.mkUser "ada" "ada@example.org")) = Some (Content ChatPage) /\
  render routes "/login" None = Some (Content Login).
Proof. split; reflexivity. Qed.

(** The earlier route table guards the routes it has in the same way. *)
Lemma routes_early_guards (r : Route) :
  In r routes_early -> render routes (path r) None = render routes_early (path r) None.
Proof.
  simpl. intros [<- | [<- | [<- | [<- | [<- | []]]]]]; reflexivity.
Qed.

End RouteGuards.

(** ** The notebook editor *)

Section Notebook.

Import NotebookPage.

Lemma filter_index_drop_one {A} (l : list A) (index from : nat) :
  (from <= index)%nat ->
  filter_index (fun i => negb (Nat.eqb i index)) from l
  = take (index - from) l ++ drop (S (index - from)) l.
Proof.
  revert from. induction l as [|x l IH]; intros from Hle; simpl.
  - by rewrite take_nil.
  - destruct (Nat.eqb_spec from index) as [->|Hne]; simpl.
    + rewrite Nat.sub_diag. simpl. rewrite drop_0.
      clear IH Hle. revert index. 
      assert (Hall : forall k from, (k < from)%nat ->
                filter_index (fun i => negb (Nat.eqb i k)) from l = l).
      { clear. induction l as [|y l IH]; intros k from Hk; simpl; [done|].
        destruct (Nat.eqb_spec from k); [lia|]. simpl. f_equal. apply IH. lia. }
      intros index. apply Hall. lia.
    + replace (index - from)%nat with (S (index - S from)) by lia.
      simpl. f_equal. apply IH. lia.
Qed.

(** C8: with exactly one cell, [deleteCell] refuses and leaves the cells
    as they are; with more than one cell and a confirmed prompt, exactly the
    cell at the given index goes and the others keep their order. *)
Theorem deleteCell_spec (index : nat) (st : State) :
  (length (cells st) = 1%nat ->
   forall answer, deleteCell index answer st = (st, [Alert "Cannot delete the last cell"])) /\
  ((1 < length (cells st))%nat -> (index < length (cells st))%nat ->
   cells (fst (deleteCell index true st))
   = take index (cells st) ++ drop (S index) (cells st)).
Proof.
  split.
  - intros Hlen answer. unfold deleteCell. by rewrite Hlen.
  - intros Hlen Hidx. unfold deleteCell.
    destruct (Nat.eqb_spec (length (cells st)) 1) as [Heq|_]; [lia|].
    simpl. rewrite filter_index_drop_one by lia. by rewrite Nat.sub_0_r.
Qed.

(** The example: the middle one of three cells is deleted; the only cell
    of a notebook is not. *)
Lemma deleteCell_spec_witness :
  let a := mkCell "code" "a = 1" None None in
  let b := mkCell "markdown" "# b" None None in
  let c := mkCell "code" "c = 3" (Some "3") (Some 2) in
  cells (fst (deleteCell 1 true (mkState [a; b; c] false [] false))) = [a; c] /\
  deleteCell 0 true (mkState [a] false [] false)
  = (mkState [a] false [] false, [Alert "Cannot delete the last cell"]).
Proof.
  cbv zeta. split.
  - refine (proj2 (deleteCell_spec 1 (mkState _ false [] false)) _ _); simpl; lia.
  - refine (proj1 (deleteCell_spec 0 (mkState _ false [] false)) _ true). reflexivity.
Defined.

(** A declined prompt leaves the cells alone as well. *)
Lemma deleteCell_declined (index : nat) (st : State) :
  fst (deleteCell index false st) = st.
Proof. unfold deleteCell. by destruct (Nat.eqb _ _). Qed.


(** The example: a notebook of two cells, a file of one cell, a declined
    prompt. *)
Lemma declined_load_example :
  let st := mkState [mkCell "code" "print(1)" (Some "1") (Some 1); mkCell "markdown" "# Notes" None None]
                    true ["tutorial.ipynb"] false in
  fst (loadIpynbFile "tutorial.ipynb"
         (inr [mkLoadedCell (Some "code") (Some "import torch") None None]) false st) = st /\
  cells (fst (loadIpynbFile "tutorial.ipynb"
         (inr [mkLoadedCell (Some "code") (Some "import torch") None None]) true st))
  = [mkCell "code" "import torch" None None].
Proof. split; reflexivity. Qed.

(** Whatever the server answers, a declined prompt changes no state. *)
Lemma declined_load_changes_nothing (filename : string) resp (st : State) :
  fst (loadIpynbFile filename resp false st) = st.
Proof. by destruct resp. Qed.

(** The accepting path does replace the cells and close the modal. *)
Lemma loadIpynbFile_accepted (filename : string) (loaded : list LoadedCell) (st : State) :
  let st' := fst (loadIpynbFile filename (inr loaded) true st) in
  cells st' = map convert_cell loaded /\ showOpenModal st' = false.
Proof. split; reflexivity. Qed.

End Notebook.

(** ** The evaluation page *)

Section Eval.

Import EvalPage.

Lemma includes_In (l : list string) (x : string) : includes l x = true <-> In x l.
Proof.
  unfold includes. rewrite existsb_exists. split.
  - intros (y & Hy & Heq). apply String.eqb_eq in Heq. by subst.
  - intros Hx. exists x. split; [done | apply String.eqb_refl].
Qed.

Lemma toggle_In (benchmarkId x : string) (prev : list string) :
  In x (toggle benchmarkId prev) <->
  (In x prev /\ x <> benchmarkId) \/ (x = benchmarkId /\ ~ In benchmarkId prev).
Proof.
  unfold toggle. destruct (includes prev benchmarkId) eqn:Hinc.
  - apply includes_In in Hinc. rewrite filter_In, negb_true_iff, String.eqb_neq.
    intuition congruence.
  - assert (Hnot : ~ In benchmarkId prev).
    { intros Hin. apply includes_In in Hin. congruence. }
    rewrite in_app_iff. simpl. split.
    + intros [Hin | [<- | []]]; [left | right]; intuition congruence.
    + intros [[Hin _] | [-> _]]; auto.
Qed.

(** One toggle flips the membership of its benchmark and of no other. *)
Lemma toggle_flips (benchmarkId : string) (prev : list string) :
  (In benchmarkId (toggle benchmarkId prev) <-> ~ In benchmarkId prev) /\
  (forall x, x <> benchmarkId -> (In x (toggle benchmarkId prev) <-> In x prev)).
Proof.
  split; [|intros x Hx]; rewrite toggle_In; intuition congruence.
Qed.

(** C9: one toggle adds the benchmark to the selected set if it is absent
    and removes it if it is present, leaving every other benchmark as it
    was, and two toggles of the same benchmark in a row give back the
    selected set (the ids selected, as a set). *)
Theorem toggleBenchmark_twice (benchmarkId : string) (st : State) :
  let selected s := list_to_set (selectedBenchmarks s) : gset string in
  let once := toggleBenchmark benchmarkId st in
  let twice := toggleBenchmark benchmarkId once in
  (benchmarkId ∉ selected st -> selected once = selected st ∪ {[benchmarkId]}) /\
  (benchmarkId ∈ selected st -> selected once = selected st ∖ {[benchmarkId]}) /\
  selected twice = selected st.
Proof.
  simpl. split; [|split].
  - rewrite elem_of_list_to_set, list_elem_of_In. intros Hnot.
    apply set_eq. intros x.
    rewrite elem_of_union, elem_of_singleton, !elem_of_list_to_set, !list_elem_of_In.
    rewrite toggle_In. intuition congruence.
  - rewrite elem_of_list_to_set, list_elem_of_In. intros Hin.
    apply set_eq. intros x.
    rewrite elem_of_difference, elem_of_singleton, !elem_of_list_to_set, !list_elem_of_In.
    rewrite toggle_In. intuition congruence.
  - apply set_eq. intros x. rewrite !elem_of_list_to_set, !list_elem_of_In.
    rewrite !toggle_In.
    destruct (decide (x = benchmarkId)) as [->|Hne]; [|intuition congruence].
    destruct (in_dec string_dec benchmarkId (selectedBenchmarks st)); intuition congruence.
Qed.

(** When the benchmark was not selected, the list itself comes back. *)
Lemma toggle_twice_absent (benchmarkId : string) (prev : list string) :
  ~ In benchmarkId prev -> toggle benchmarkId (toggle benchmarkId prev) = prev.
Proof.
  intros Hnot. unfold toggle at 2.
  destruct (includes prev benchmarkId) eqn:Hinc; [apply includes_In in Hinc; done|].
  unfold toggle.
  assert (Hin : includes (prev ++ [benchmarkId]) benchmarkId = true).
  { apply includes_In, in_app_iff. right. by left. }
  rewrite Hin, List.filter_app. simpl. rewrite String.eqb_refl. simpl.
  rewrite app_nil_r. apply forallb_filter_id. apply forallb_forall.
  intros x Hx. apply negb_true_iff, String.eqb_neq. congruence.
Qed.

(** When it was selected, the ids come back in a different order unless
    the benchmark was the last one. *)
Lemma toggle_twice_reorders :
  toggle "mmlu" (toggle "mmlu" ["mmlu"; "gsm8k"]) = ["gsm8k"; "mmlu"].
Proof. reflexivity. Qed.

End Eval.

(** ** Polling an evaluation task *)

Section Polling.

Import EvalPage.

Lemma find_filter_negb {A} (p : A -> bool) (l : list A) :
  List.find p (List.filter (fun x => negb (p x)) l) = None.
Proof.
  induction l as [|x l IH]; simpl; [done|].
  destruct (p x) eqn:Hp; simpl; [done|]. by rewrite Hp.
Qed.

Lemma armed_clearInterval (h : nat) (st : State) : armed h (clearInterval h st) = None.
Proof. unfold armed, clearInterval. simpl. apply find_filter_negb. Qed.

Lemma armed_setRunningTasks (h : nat) (l : list Task) (st : State) :
  armed h (setRunningTasks l st) = armed h st.
Proof. reflexivity. Qed.

Lemma armed_handle (h : nat) (iv : Interval) (st : State) :
  armed h st = Some iv -> handle iv = h.
Proof.
  unfold armed. intros Hfind. apply find_some in Hfind as [_ Heq].
  by apply Nat.eqb_eq in Heq.
Qed.

(** [runEvaluation] past its guard, with an accepted POST: the task joins
    the running tasks and a timer of period 2000 ms is armed for it. *)
Lemma runEvaluation_arms_timer (taskId : string) (st : State) :
  selectedBenchmarks st <> [] -> selectedModel st <> "" ->
  let st' := fst (runEvaluation (Some taskId) st) in
  intervals st' = intervals st ++ [mkInterval (next_handle st) 2000 taskId] /\
  runningTasks st'
  = runningTasks st ++ [mkTask taskId (selectedModel st) (selectedBenchmarks st) "running" 0 None].
Proof.
  intros Hb Hm. unfold runEvaluation.
  destruct (selectedBenchmarks st) as [|b bs] eqn:Hsel; [done|]. simpl.
  unfold Js.truthy. destruct (String.eqb_spec (selectedModel st) "") as [|_]; [done|].
  done.
Qed.

(** One firing of the timer: what a poll does to the timer, to the running
    tasks and to the results, by the answer it gets. *)
Lemma poll_outcome (iv : Interval) (resp : option Task)
    (refreshed : option (list EvalResult * list EvalResult)) (st : State) :
  let st' := fst (poll iv resp refreshed st) in
  let out := snd (poll iv resp refreshed st) in
  In (HttpGet (status_url (polled iv))) out /\
  match resp with
  | Some task =>
      if is_final task then
        armed (handle iv) st' = None /\
        (forall t, In t (runningTasks st') -> task_id t <> polled iv) /\
        In (HttpGet results_url) out /\
        results st' = results (loadResults refreshed st)
      else
        intervals st' = intervals st /\ ~ In (HttpGet results_url) out /\
        results st' = results st
  | None =>
      armed (handle iv) st' = None /\
      runningTasks st' = runningTasks st /\
      ~ In (HttpGet results_url) out /\
      results st' = results st
  end.
Proof.
  unfold poll. destruct resp as [task|]; [destruct (is_final task)|]; simpl.
  - split; [by left|]. destruct refreshed as [[active cached]|]; simpl.
    + split; [apply find_filter_negb|]. split; [|split; [right; by left | done]].
      intros t Ht. apply filter_In in Ht as [_ Hne].
      by apply negb_true_iff, String.eqb_neq in Hne.
    + split; [apply find_filter_negb|]. split; [|split; [right; by left | done]].
      intros t Ht. apply filter_In in Ht as [_ Hne].
      by apply negb_true_iff, String.eqb_neq in Hne.
  - split; [by left|]. split; [done|]. split; [|done]. intros [Heq|[]]. discriminate Heq.
  - split; [by left|]. split; [apply find_filter_negb|]. split; [done|]. split; [|done].
    intros [Heq|[Heq|[]]]; discriminate Heq.
Qed.

(** A firing whose answer is not final only refreshes the task's entry. *)
Lemma fire_not_final (iv : Interval) (task : Task)
    (refreshed : option (list EvalResult * list EvalResult)) (st : State) :
  armed (handle iv) st = Some iv -> is_final task = false ->
  fire (handle iv) (Some task) refreshed st
  = (setRunningTasks
       (map (fun t => if String.eqb (task_id t) (polled iv) then task else t)
            (runningTasks st)) st,
     [HttpGet (status_url (polled iv))]).
Proof. intros Harmed Hfinal. unfold fire, poll. by rewrite Harmed, Hfinal. Qed.

(** While the answers keep reporting a status that is not final, the timer
    stays armed, every firing polls the status endpoint once and the results
    stay as they are. *)
Lemma fire_all_keeps_polling (iv : Interval)
    (resps : list (option Task * option (list EvalResult * list EvalResult)))
    (st : State) :
  armed (handle iv) st = Some iv ->
  Forall (fun r => ends_polling (fst r) = false) resps ->
  armed (handle iv) (fst (fire_all (handle iv) resps st)) = Some iv /\
  snd (fire_all (handle iv) resps st)
  = List.map (fun _ => HttpGet (status_url (polled iv))) resps /\
  results (fst (fire_all (handle iv) resps st)) = results st.
Proof.
  intros Harmed Hall. revert st Harmed.
  induction Hall as [|[resp refreshed] resps Hresp _ IH]; intros st Harmed; simpl; [done|].
  destruct resp as [task|]; [|discriminate Hresp]. simpl in Hresp.
  rewrite (fire_not_final iv task refreshed st Harmed Hresp).
  match goal with |- context [fire_all _ _ ?s] => specialize (IH s Harmed) end.
  destruct (fire_all (handle iv) resps _) as [st2 out2]. simpl in *.
  destruct IH as (-> & -> & ->). done.
Qed.

(** One firing of an armed timer: it polls the status endpoint, and it
    disarms the timer exactly when the answer ends the polling. *)
Lemma fire_armed_timer (iv : Interval) (resp : option Task)
    (refreshed : option (list EvalResult * list EvalResult)) (st : State) :
  armed (handle iv) st = Some iv ->
  let st' := fst (fire (handle iv) resp refreshed st) in
  let out := snd (fire (handle iv) resp refreshed st) in
  In (HttpGet (status_url (polled iv))) out /\
  (armed (handle iv) st' = None <-> ends_polling resp = true) /\
  (forall task, resp = Some task -> is_final task = true ->
     (forall t, In t (runningTasks st') -> task_id t <> polled iv) /\
     In (HttpGet results_url) out /\
     results st' = results (loadResults refreshed st)) /\
  (resp = None ->
     runningTasks st' = runningTasks st /\ ~ In (HttpGet results_url) out /\
     results st' = results st).
Proof.
  intros Harmed. unfold fire. rewrite Harmed.
  pose proof (poll_outcome iv resp refreshed st) as Hout.
  cbv zeta in Hout |- *. destruct Hout as [Hget Hcase].
  split; [done|]. split; [|split].
  - destruct resp as [task|]; unfold ends_polling.
    + destruct (is_final task) eqn:Hfinal.
      * destruct Hcase as [Hnone _]. by rewrite Hnone.
      * destruct Hcase as [Hiv _]. unfold armed in Harmed |- *.
        rewrite Hiv, Harmed. split; done.
    + destruct Hcase as [Hnone _]. by rewrite Hnone.
  - intros task -> Hfinal. rewrite Hfinal in Hcase. tauto.
  - intros ->. tauto.
Qed.

(** Fresh handles are an invariant of the page: they hold as it mounts and
    every handler keeps them. *)
Lemma handles_fresh_initial : handles_fresh initial.
Proof. constructor. Qed.

Lemma handles_fresh_setInterval (ms : Z) (taskId : string) (st : State) :
  handles_fresh st -> handles_fresh (setInterval ms taskId st).
Proof.
  unfold handles_fresh, setInterval. simpl. intros Hfresh.
  apply Forall_app. split.
  - eapply Forall_impl; [exact Hfresh|]. simpl. intros iv Hlt. lia.
  - apply Forall_singleton. simpl. lia.
Qed.

Lemma handles_fresh_clearInterval (h : nat) (st : State) :
  handles_fresh st -> handles_fresh (clearInterval h st).
Proof.
  unfold handles_fresh, clearInterval. simpl. intros Hfresh.
  rewrite Forall_forall in Hfresh |- *. intros iv Hiv.
  apply list_elem_of_In, filter_In in Hiv as [Hiv _]. by apply Hfresh, list_elem_of_In.
Qed.

Lemma handles_fresh_poll (iv : Interval) (resp : option Task)
    (refreshed : option (list EvalResult * list EvalResult)) (st : State) :
  handles_fresh st -> handles_fresh (fst (poll iv resp refreshed st)).
Proof.
  intros Hfresh. unfold poll.
  destruct resp as [task|]; [destruct (is_final task)|]; simpl;
    try exact Hfresh; [|by apply (handles_fresh_clearInterval (handle iv) st)].
  destruct refreshed as [[active cached]|]; simpl;
    by apply (handles_fresh_clearInterval (handle iv) st).
Qed.

Lemma handles_fresh_runEvaluation (resp : option string) (st : State) :
  handles_fresh st -> handles_fresh (fst (runEvaluation resp st)).
Proof.
  intros Hfresh. unfold runEvaluation.
  destruct (_ || _); [done|]. destruct resp as [taskId|]; [|done].
  simpl. unfold pollTaskStatus.
  by apply (handles_fresh_setInterval 2000 taskId (setRunningTasks _ st)).
Qed.

Lemma handles_fresh_toggleBenchmark (benchmarkId : string) (st : State) :
  handles_fresh st -> handles_fresh (toggleBenchmark benchmarkId st).
Proof. done. Qed.

(** The firing of another timer leaves this one armed or disarmed as it
    was. *)
Lemma poll_other_timer (h : nat) (iv : Interval) (resp : option Task)
    (refreshed : option (list EvalResult * list EvalResult)) (st : State) :
  handle iv <> h -> armed h (fst (poll iv resp refreshed st)) = armed h st.
Proof.
  intros Hne.
  assert (Hclear : forall l,
             List.find (fun iv' => Nat.eqb (handle iv') h)
               (List.filter (fun iv' => negb (Nat.eqb (handle iv') (handle iv))) l)
             = List.find (fun iv' => Nat.eqb (handle iv') h) l).
  { intros l. induction l as [|iv' ivs IH]; simpl; [done|].
    destruct (Nat.eqb_spec (handle iv') (handle iv)) as [Heq|Hneq]; simpl.
    - destruct (Nat.eqb_spec (handle iv') h); [congruence | exact IH].
    - destruct (Nat.eqb (handle iv') h); [done | exact IH]. }
  unfold poll, armed.
  destruct resp as [task|]; [destruct (is_final task)|]; simpl.
  - destruct refreshed as [[active cached]|]; simpl; apply Hclear.
  - done.
  - apply Hclear.
Qed.

(** [loadResults] shows the active results, then the cached ones. *)
Lemma loadResults_refreshes (active cached : list EvalResult) (st : State) :
  results (loadResults (Some (active, cached)) st) = active ++ cached.
Proof. reflexivity. Qed.

Lemma armed_setInterval (ms : Z) (taskId : string) (st : State) :
  handles_fresh st ->
  armed (next_handle st) (setInterval ms taskId st)
  = Some (mkInterval (next_handle st) ms taskId).
Proof.
  unfold handles_fresh, armed, setInterval. simpl.
  generalize (next_handle st) as h. intros h Hfresh.
  induction Hfresh as [|iv ivs Hlt _ IH]; simpl.
  - by rewrite Nat.eqb_refl.
  - destruct (Nat.eqb_spec (handle iv) h); [lia | done].
Qed.

(** X25: once an evaluation is started, its task is polled by a timer of
    period 2000 ms.  As long as the polls report a status that is neither
    completed nor failed the timer stays armed, each firing polls the status
    endpoint and the results stay as they are.  The next firing disarms the
    timer exactly when its poll reports completed or failed, or fails.  On
    completed or failed the task leaves the running tasks, the results are
    fetched again and the page shows what that request answers. *)
Theorem polling_lifecycle (taskId : string) (st0 : State)
    (resps : list (option Task * option (list EvalResult * list EvalResult)))
    (resp : option Task) (refreshed : option (list EvalResult * list EvalResult)) :
  handles_fresh st0 ->
  selectedBenchmarks st0 <> [] -> selectedModel st0 <> "" ->
  Forall (fun r => ends_polling (fst r) = false) resps ->
  let h := next_handle st0 in
  let started := fst (runEvaluation (Some taskId) st0) in
  let st := fst (fire_all h resps started) in
  let st' := fst (fire h resp refreshed st) in
  let out := snd (fire h resp refreshed st) in
  armed h started = Some (mkInterval h 2000 taskId) /\
  armed h st = Some (mkInterval h 2000 taskId) /\
  snd (fire_all h resps started) = List.map (fun _ => HttpGet (status_url taskId)) resps /\
  results st = results st0 /\
  In (HttpGet (status_url taskId)) out /\
  (armed h st' = None <-> ends_polling resp = true) /\
  (forall task, resp = Some task -> is_final task = true ->
     (forall t, In t (runningTasks st') -> task_id t <> taskId) /\
     In (HttpGet results_url) out /\
     forall active cached, refreshed = Some (active, cached) ->
       results st' = active ++ cached).
Proof.
  intros Hfresh Hb Hm Hall. cbv zeta.
  set (iv := mkInterval (next_handle st0) 2000 taskId).
  assert (Hstarted : armed (handle iv) (fst (runEvaluation (Some taskId) st0)) = Some iv).
  { unfold runEvaluation.
    destruct (selectedBenchmarks st0) as [|b bs] eqn:Hsel; [done|]. simpl.
    unfold Js.truthy. destruct (String.eqb_spec (selectedModel st0) "") as [|_]; [done|].
    simpl. unfold pollTaskStatus.
    match goal with |- armed _ (setInterval _ _ ?s) = _ =>
      change (next_handle st0) with (next_handle s) end.
    apply armed_setInterval. exact Hfresh. }
  assert (Hres0 : results (fst (runEvaluation (Some taskId) st0)) = results st0).
  { unfold runEvaluation. destruct (_ || _); [done|]. done. }
  destruct (fire_all_keeps_polling iv resps _ Hstarted Hall) as (Harmed & Hout & Hres).
  pose proof (fire_armed_timer iv resp refreshed _ Harmed) as Hstep.
  cbv zeta in Hstep. simpl handle in *. simpl polled in *.
  destruct Hstep as (Hget & Hiff & Hfinal & _).
  split; [exact Hstarted|]. split; [exact Harmed|]. split; [exact Hout|].
  split; [by rewrite Hres|]. split; [exact Hget|]. split; [exact Hiff|].
  intros task Hresp Hfin. destruct (Hfinal task Hresp Hfin) as (Hgone & Hin & Hresults).
  split; [exact Hgone|]. split; [exact Hin|].
  intros active cached ->. exact Hresults.
Qed.

(** The example: an evaluation of two benchmarks is started on a fresh
    page, two polls report it running, the third reports it completed and
    the results are fetched. *)
Lemma polling_lifecycle_witness :
  let st0 := setSelectedModel "sft_d12_step2000" (toggleBenchmark "gsm8k" (toggleBenchmark "mmlu" initial)) in
  let running := Some (mkTask "task-1" "sft_d12_step2000" ["mmlu"; "gsm8k"] "running" 50 (Some "gsm8k")) in
  let completed := Some (mkTask "task-1" "sft_d12_step2000" ["mmlu"; "gsm8k"] "completed" 100 None) in
  let result := mkEvalResult "sft_d12_step2000" ["mmlu"; "gsm8k"] "2025-01-01T00:00:00" in
  let st := fst (fire_all 0 [(running, None); (running, None)]
                   (fst (runEvaluation (Some "task-1") st0))) in
  armed 0 st = Some (mkInterval 0 2000 "task-1") /\
  (armed 0 (fst (fire 0 completed (Some ([], [result])) st)) = None
   <-> ends_polling completed = true) /\
  results (fst (fire 0 completed (Some ([], [result])) st)) = [result].
Proof.
  cbv zeta.
  pose proof (polling_lifecycle "task-1"
    (setSelectedModel "sft_d12_step2000" (toggleBenchmark "gsm8k" (toggleBenchmark "mmlu" initial)))
    [(Some (mkTask "task-1" "sft_d12_step2000" ["mmlu"; "gsm8k"] "running" 50 (Some "gsm8k")), None);
     (Some (mkTask "task-1" "sft_d12_step2000" ["mmlu"; "gsm8k"] "running" 50 (Some "gsm8k")), None)]
    (Some (mkTask "task-1" "sft_d12_step2000" ["mmlu"; "gsm8k"] "completed" 100 None))
    (Some ([], [mkEvalResult "sft_d12_step2000" ["mmlu"; "gsm8k"] "2025-01-01T00:00:00"]))) as H.
  cbv zeta in H.
  destruct H as (_ & Harmed & _ & _ & _ & Hiff & Hfinal).
  - constructor.
  - discriminate.
  - discriminate.
  - repeat constructor.
  - split; [exact Harmed|]. split; [exact Hiff|].
    destruct (Hfinal _ eq_refl eq_refl) as (_ & _ & Hresults).
    exact (Hresults _ _ eq_refl).
Defined.

(** C5: the poll of a running task fails.  Polling stops, yet the task is
    still among the running tasks and the results are not fetched again,
    whereas a poll that reports the task completed removes it and fetches
    the results. *)
Lemma poll_failure_keeps_task :
  let st0 := setSelectedModel "sft_d12_step2000" (toggleBenchmark "mmlu" initial) in
  let st := fst (runEvaluation (Some "task-1") st0) in
  let result := mkEvalResult "sft_d12_step2000" ["mmlu"] "2025-01-01T00:00:00" in
  let completed := mkTask "task-1" "sft_d12_step2000" ["mmlu"] "completed" 100 None in
  armed 0 st = Some (mkInterval 0 2000 "task-1") /\
  armed 0 (fst (fire 0 None (Some ([], [result])) st)) = None /\
  List.map task_id (runningTasks (fst (fire 0 None (Some ([], [result])) st))) = ["task-1"] /\
  results (fst (fire 0 None (Some ([], [result])) st)) = [] /\
  snd (fire 0 None (Some ([], [result])) st)
  = [HttpGet "/api/eval/status/task-1"; ConsoleError "Failed to poll task status:"] /\
  runningTasks (fst (fire 0 (Some completed) (Some ([], [result])) st)) = [] /\
  results (fst (fire 0 (Some completed) (Some ([], [result])) st)) = [result] /\
  snd (fire 0 (Some completed) (Some ([], [result])) st)
  = [HttpGet "/api/eval/status/task-1"; HttpGet "/api/eval/results"].
Proof. cbv zeta. repeat split. Qed.

End Polling.

(** ** The token: stored, attached, restored, removed *)

Section Token.

Import AuthContext Requests.

(** [register] handles its answer exactly as [login] does. *)
Lemma register_as_login (resp : option TokenResponse) (st : State) :
  register resp st = login resp st.
Proof. reflexivity. Qed.

(** A rejected login or registration changes nothing. *)
Lemma login_rejected (st : State) : login None st = (st, None).
Proof. reflexivity. Qed.

(** The requests the two chat pages build carry the headers of their call
    sites. *)
Lemma sendMessage_headers parse (auth : State) reply st req :
  snd (ChatPage.sendMessage parse auth reply st) = Some req ->
  ChatPage.headers req = headers auth ChatCompletions.
Proof.
  unfold ChatPage.sendMessage. destruct (_ || _); [discriminate|].
  destruct (ChatPage.try_block _ _ _). simpl. by intros [= <-].
Qed.

Lemma handleSendMessage_headers parse (auth : State) reply st req :
  snd (InferencePage.handleSendMessage parse reply st) = Some req ->
  InferencePage.headers req = headers auth InferenceChat.
Proof.
  unfold InferencePage.handleSendMessage. destruct (_ || _); [discriminate|].
  destruct (InferencePage.isGenerating st); [discriminate|].
  destruct (InferencePage.try_block _ _ _ _). simpl. by intros [= <-].
Qed.


(** A reload whose stored token the server no longer accepts ends logged
    out. *)
Lemma on_mount_rejected (storage : gmap string string) (token : string) :
  storage !! "token" = Some token -> token <> "" ->
  let st := on_mount None (page_load storage) in
  localStorage st !! "token" = None /\ user st = None /\ loading st = false.
Proof.
  intros Hstored Htoken. unfold on_mount, page_load. simpl. rewrite Hstored.
  unfold Js.truthy. destruct (String.eqb_spec token ""); [done|]. simpl.
  by rewrite lookup_delete_eq.
Qed.




(** The request [handleSendMessage] of the inference page builds has no
    Authorization header, whatever is stored. *)
Lemma inference_chat_sends_no_token :
  let r := mkTokenResponse "t0k3n" (mkUser "ada" "ada@example.org") in
  let logged := fst (login (Some r) (page_load ∅)) in
  let page := InferencePage.setInputText "hello"
                (InferencePage.setSelectedModel "sft/d12/model_002000.pt" InferencePage.initial) in
  localStorage logged !! "token" = Some "t0k3n" /\
  headers logged InferenceChat !! "Authorization" = None /\
  (InferencePage.headers <$>
     snd (InferencePage.handleSendMessage (fun _ => None) (Stream.Answered 200 [] Stream.Closed) page))
  = Some (headers logged InferenceChat).
Proof. cbv zeta. repeat split. Qed.

End Token.

(** ** The inference page: the model selected by default *)

Section DefaultModel.

Import InferencePage.

(** [reduce] returns one of the models it was given, and none of them has
    a higher step. *)
Lemma reduce_later_max (others : list Model) (first : Model) :
  let best := reduce_later first others in
  In best (first :: others) /\
  forall m, In m (first :: others) -> step m <= step best.
Proof.
  unfold reduce_later. revert first.
  induction others as [|m2 others IH]; intros first; simpl.
  - split; [by left|]. intros m [<- | []]. lia.
  - specialize (IH (later first m2)). simpl in IH. destruct IH as [Hin Hmax].
    split.
    + destruct Hin as [Heq | Hin]; [|by right; right].
      rewrite <- Heq. unfold later. destruct (step m2 >? step first); auto.
    + intros m Hm.
      assert (Hlater : step first <= step (later first m2) /\ step m2 <= step (later first m2)).
      { unfold later. destruct (Z.gtb_spec (step m2) (step first)); lia. }
      destruct Hm as [<- | [<- | Hm]].
      * etransitivity; [apply Hlater|]. apply Hmax. by left.
      * etransitivity; [apply Hlater|]. apply Hmax. by left.
      * apply Hmax. by right.
Qed.

(** Among models of equal highest step, the one listed first is kept. *)
Lemma reduce_later_ties :
  reduce_later (mkModel "a" "d12" "sft" 500) [mkModel "b" "d20" "sft" 500]
  = mkModel "a" "d12" "sft" 500.
Proof. reflexivity. Qed.

Lemma is_sft_type (m : Model) : is_sft m = true <-> type m = "sft".
Proof. unfold is_sft. apply String.eqb_eq. Qed.

(** C4: for a non-empty list of models from the discovery endpoint, the
    model selected at first is an sft model of highest step among the sft
    models if there is an sft model, and the first model listed if not. *)
Theorem loadModels_default (listed : list Model) (st : State) :
  listed <> [] ->
  let st' := loadModels (ModelsResolved (Some listed)) st in
  models st' = listed /\
  (Exists (fun m => type m = "sft") listed ->
   exists best, In best listed /\ type best = "sft" /\
                selectedModel st' = path best /\
                forall m, In m listed -> type m = "sft" -> step m <= step best) /\
  (Forall (fun m => type m <> "sft") listed ->
   exists first, head listed = Some first /\ selectedModel st' = path first).
Proof.
  intros Hne. cbv zeta. destruct listed as [|first others]; [done|].
  unfold loadModels.
  destruct (List.filter is_sft (first :: others)) as [|sft sfts] eqn:Hfilter.
  - split; [done|]. split.
    + intros Hex. apply Exists_exists in Hex as (m & Hm & Htype).
      assert (Hin : In m (List.filter is_sft (first :: others))).
      { apply filter_In. split; [by apply list_elem_of_In | by apply is_sft_type]. }
      rewrite Hfilter in Hin. destruct Hin.
    + intros _. by exists first.
  - split; [done|].
    pose proof (reduce_later_max sfts sft) as [Hin Hmax]. rewrite <- Hfilter in Hin, Hmax.
    apply filter_In in Hin as [Hin Hsft]. split.
    + intros _. exists (reduce_later sft sfts).
      split; [exact Hin|]. split; [by apply is_sft_type|]. split; [done|].
      intros m Hm Htype. apply Hmax, filter_In. split; [done | by apply is_sft_type].
    + intros Hall. exfalso.
      rewrite Forall_forall in Hall.
      apply (Hall (reduce_later sft sfts)); [by apply list_elem_of_In | by apply is_sft_type].
Qed.

(** The example: the checkpoints of three stages, the sft ones at steps
    500 and 2000. *)
Lemma loadModels_default_witness :
  let listed := [ mkModel "base/d12/model_007080.pt" "d12" "base" 7080;
                  mkModel "sft/d12/model_000500.pt" "d12" "sft" 500;
                  mkModel "sft/d12/model_002000.pt" "d12" "sft" 2000;
                  mkModel "mid/d12/model_001000.pt" "d12" "mid" 1000 ] in
  models (loadModels (ModelsResolved (Some listed)) initial) = listed /\
  selectedModel (loadModels (ModelsResolved (Some listed)) initial) = "sft/d12/model_002000.pt".
Proof.
  cbv zeta. split.
  - apply (loadModels_default _ initial). discriminate.
  - reflexivity.
Defined.

(** An empty or missing list selects nothing and reports it. *)
Lemma loadModels_none (listed : option (list Model)) (st : State) :
  listed = None \/ listed = Some [] ->
  let st' := loadModels (ModelsResolved listed) st in
  selectedModel st' = selectedModel st /\
  error st' = "No trained models found. Please train a model first.".
Proof. intros [-> | ->]; split; reflexivity. Qed.

End DefaultModel.

(** ** A stream that fails: what becomes of the placeholder *)

Section FailedStream.

Import Stream Lines.

Lemma update_last_snoc (f : Message -> Message) (pre : list Message) (m : Message) :
  ChatPage.update_last f (pre ++ [m]) = pre ++ [f m].
Proof.
  induction pre as [|x pre IH]; simpl; [done|].
  rewrite IH. by destruct pre.
Qed.

Lemma chat_for_lines_placeholder parse (pre : list Message) (lines : list string)
    (st : ChatPage.State) :
  placeholder_after pre (ChatPage.messages st) ->
  placeholder_after pre (ChatPage.messages (ChatPage.for_lines parse lines st)).
Proof.
  revert st. induction lines as [|line rest IH]; intros st Hst; simpl; [done|].
  destruct (Js.startsWith line "data: "); [|by apply IH].
  destruct (String.eqb _ "[DONE]"); [done|].
  destruct (parse _) as [parsed|]; [|by apply IH].
  destruct (ChatPage.chunk_error parsed); [done|].
  destruct (ChatPage.delta_content parsed) as [text|]; [|by apply IH].
  destruct (Js.truthy text); [|by apply IH].
  apply IH. destruct Hst as [c ->]. simpl. rewrite update_last_snoc.
  by eexists.
Qed.

Lemma chat_read_loop_placeholder parse (pre : list Message) (chunks : list string)
    (buffer : string) (st : ChatPage.State) :
  placeholder_after pre (ChatPage.messages st) ->
  placeholder_after pre (ChatPage.messages (ChatPage.read_loop parse buffer chunks st)).
Proof.
  revert buffer st. induction chunks as [|value chunks IH]; intros buffer st Hst; simpl; [done|].
  apply IH. by apply chat_for_lines_placeholder.
Qed.

Lemma chat_try_block_placeholder parse (pre : list Message) reply (st : ChatPage.State) :
  placeholder_after pre (ChatPage.messages st) ->
  placeholder_after pre (ChatPage.messages (fst (ChatPage.try_block parse reply st))).
Proof.
  intros Hst. unfold ChatPage.try_block.
  destruct reply as [e|status chunks ending]; [done|].
  destruct (ok status); [|done].
  destruct ending; simpl; by apply chat_read_loop_placeholder.
Qed.

Lemma truthy_true (s : string) : s <> "" -> Js.truthy s = true.
Proof. unfold Js.truthy. by destruct (String.eqb_spec s ""). Qed.

(** [sendMessage] past its guard, with the [try], [catch] and [finally]
    blocks in a row. *)
Lemma sendMessage_eq parse auth reply (st : ChatPage.State) :
  Js.trim (ChatPage.input st) <> "" -> ChatPage.isGenerating st = false ->
  ChatPage.sendMessage parse auth reply st
  = let newMessages := ChatPage.messages st ++ [mkMessage "user" (Js.trim (ChatPage.input st))] in
    let tried := ChatPage.try_block parse reply
                   (ChatPage.mkState (newMessages ++ [mkMessage "assistant" ""]) "" true true) in
    let caught := match snd tried with
                  | Some e => ChatPage.catch_block e (fst tried)
                  | None => fst tried
                  end in
    (ChatPage.mkState (ChatPage.messages caught) (ChatPage.input caught) false false,
     Some (ChatPage.mkRequest "/api/chat/completions"
             (AuthContext.fetch_headers_with_token auth) newMessages true 1 2048)).
Proof.
  intros Hinput Hgen. unfold ChatPage.sendMessage.
  rewrite (truthy_true _ Hinput), Hgen. cbv zeta. simpl negb. cbv iota.
  by destruct (ChatPage.try_block _ _ _).
Qed.

(** Past its guard, [sendMessage] posts the conversation with the new user
    message, and leaves the generating flag down and a last message that
    is the assistant's. *)
Lemma sendMessage_request parse auth reply (st : ChatPage.State) :
  Js.trim (ChatPage.input st) <> "" -> ChatPage.isGenerating st = false ->
  let userMessage := mkMessage "user" (Js.trim (ChatPage.input st)) in
  snd (ChatPage.sendMessage parse auth reply st)
  = Some (ChatPage.mkRequest "/api/chat/completions"
            (AuthContext.fetch_headers_with_token auth)
            (ChatPage.messages st ++ [userMessage]) true 1 2048) /\
  ChatPage.isGenerating (fst (ChatPage.sendMessage parse auth reply st)) = false /\
  placeholder_after (ChatPage.messages st ++ [userMessage])
    (ChatPage.messages (fst (ChatPage.sendMessage parse auth reply st))).
Proof.
  intros Hinput Hgen. cbv zeta. rewrite (sendMessage_eq _ _ _ _ Hinput Hgen). cbv zeta.
  split; [done|]. split; [done|]. simpl.
  match goal with |- context [ChatPage.try_block parse reply ?s] =>
    pose proof (chat_try_block_placeholder parse
                  (ChatPage.messages st ++ [mkMessage "user" (Js.trim (ChatPage.input st))])
                  reply s (ex_intro _ "" eq_refl)) as Hshape;
    destruct (ChatPage.try_block parse reply s) as [st2 thrown]
  end.
  simpl in *. destruct thrown as [e|]; [|done].
  unfold ChatPage.catch_block. destruct (Js.isAbortError e); [done|]. simpl.
  destruct Hshape as [c ->]. rewrite update_last_snoc. by eexists.
Qed.

(** On the chat page, a request that fails with anything but an abort
    leaves the placeholder in the list, its text replaced by the failure
    notice. *)
Lemma sendMessage_failure parse auth reply (st : ChatPage.State) (e : Js.Error) :
  Js.trim (ChatPage.input st) <> "" -> ChatPage.isGenerating st = false ->
  let userMessage := mkMessage "user" (Js.trim (ChatPage.input st)) in
  let placeholder := mkMessage "assistant" "" in
  snd (ChatPage.try_block parse reply
         (ChatPage.mkState ((ChatPage.messages st ++ [userMessage]) ++ [placeholder]) "" true true))
  = Some e ->
  Js.isAbortError e = false ->
  ChatPage.messages (fst (ChatPage.sendMessage parse auth reply st))
  = ChatPage.messages st ++ [userMessage; mkMessage "assistant" ChatPage.failure_text].
Proof.
  intros Hinput Hgen. cbv zeta. intros Hthrown Habort.
  rewrite (sendMessage_eq _ _ _ _ Hinput Hgen). cbv zeta. simpl.
  match goal with |- context [ChatPage.try_block parse reply ?s] =>
    pose proof (chat_try_block_placeholder parse
                  (ChatPage.messages st ++ [mkMessage "user" (Js.trim (ChatPage.input st))])
                  reply s (ex_intro _ "" eq_refl)) as Hshape;
    destruct (ChatPage.try_block parse reply s) as [st2 thrown]
  end.
  simpl in *. subst thrown.
  unfold ChatPage.catch_block. rewrite Habort. simpl.
  destruct Hshape as [c ->]. rewrite update_last_snoc. by rewrite <- app_assoc.
Qed.

(** [handleSendMessage] past its guards, with the [try], [catch] and
    [finally] blocks in a row. *)
Lemma handleSendMessage_eq parse reply (st : InferencePage.State) :
  Js.trim (InferencePage.inputText st) <> "" ->
  InferencePage.selectedModel st <> "" ->
  InferencePage.isGenerating st = false ->
  InferencePage.handleSendMessage parse reply st
  = let newMessages := InferencePage.messages st
                       ++ [mkMessage "user" (Js.trim (InferencePage.inputText st))] in
    let st1 := InferencePage.mkState (InferencePage.models st) (InferencePage.selectedModel st)
                 (InferencePage.loading st) (InferencePage.error st)
                 (newMessages ++ [mkMessage "assistant" ""]) "" true
                 (InferencePage.temperature st) (InferencePage.topK st)
                 (InferencePage.maxTokens st) true in
    let tried := InferencePage.try_block parse newMessages reply st1 in
    let caught := match snd tried with
                  | Some e => InferencePage.catch_block newMessages e (fst tried)
                  | None => fst tried
                  end in
    (InferencePage.mkState (InferencePage.models caught) (InferencePage.selectedModel caught)
       (InferencePage.loading caught) (InferencePage.error caught)
       (InferencePage.messages caught) (InferencePage.inputText caught) false
       (InferencePage.temperature caught) (InferencePage.topK caught)
       (InferencePage.maxTokens caught) false,
     Some (InferencePage.mkRequest "/api/inference/chat" AuthContext.fetch_headers_plain
             newMessages (InferencePage.selectedModel st)
             (InferencePage.temperature st) (InferencePage.topK st)
             (InferencePage.maxTokens st))).
Proof.
  intros Hinput Hmodel Hgen. unfold InferencePage.handleSendMessage.
  rewrite (truthy_true _ Hinput), (truthy_true _ Hmodel), Hgen. cbv zeta. simpl negb. cbv iota.
  by destruct (InferencePage.try_block _ _ _ _).
Qed.

(** On the inference page, a request that fails with anything but an
    abort takes the placeholder out of the list again. *)
Lemma handleSendMessage_failure parse reply (st : InferencePage.State) (e : Js.Error) :
  Js.trim (InferencePage.inputText st) <> "" ->
  InferencePage.selectedModel st <> "" ->
  InferencePage.isGenerating st = false ->
  let newMessages := InferencePage.messages st
                     ++ [mkMessage "user" (Js.trim (InferencePage.inputText st))] in
  snd (InferencePage.try_block parse newMessages reply
         (InferencePage.mkState (InferencePage.models st) (InferencePage.selectedModel st)
            (InferencePage.loading st) (InferencePage.error st)
            (newMessages ++ [mkMessage "assistant" ""]) "" true
            (InferencePage.temperature st) (InferencePage.topK st)
            (InferencePage.maxTokens st) true))
  = Some e ->
  Js.isAbortError e = false ->
  InferencePage.messages (fst (InferencePage.handleSendMessage parse reply st)) = newMessages.
Proof.
  intros Hinput Hmodel Hgen. cbv zeta. intros Hthrown Habort.
  rewrite (handleSendMessage_eq _ _ _ Hinput Hmodel Hgen). cbv zeta. simpl.
  rewrite Hthrown. unfold InferencePage.catch_block. by rewrite Habort.
Qed.

(** What makes the inference page's [try] block throw: a rejected fetch,
    a status that is not ok, a broken body, and an error frame. *)
Lemma inference_try_block_status parse newMessages status chunks ending st :
  ok status = false ->
  snd (InferencePage.try_block parse newMessages (Answered status chunks ending) st)
  = Some (Js.mkError "Error" ("HTTP error! status: " +:+ pretty status)).
Proof. intros Hok. unfold InferencePage.try_block. by rewrite Hok. Qed.

Lemma inference_try_block_error_frame parse newMessages line msg st :
  Js.startsWith line "data: " = true ->
  parse (Js.slice 6 line) = Some (InferencePage.mkFrame (Some msg) false None) ->
  msg <> "" ->
  InferencePage.for_lines parse newMessages [line] "" st
  = InferencePage.Thrown (Js.mkError "Error" msg) "" st.
Proof.
  intros Hstart Hparse Hmsg. unfold InferencePage.for_lines.
  rewrite Hstart, Hparse.
  change (default "" (InferencePage.frame_error _)) with msg.
  by rewrite (truthy_true _ Hmsg).
Qed.

(** What makes the chat page's [try] block throw: a rejected fetch, a
    status that is not ok, and a body that breaks off. *)
Lemma chat_try_block_throws parse (e : Js.Error) (status : N) (chunks : list string)
    (ending : End) (st : ChatPage.State) :
  snd (ChatPage.try_block parse (Rejected e) st) = Some e /\
  (ok status = false ->
   snd (ChatPage.try_block parse (Answered status chunks ending) st)
   = Some (Js.mkError "Error" "Failed to get response")) /\
  (ok status = true ->
   snd (ChatPage.try_block parse (Answered status chunks (Broken e)) st) = Some e).
Proof.
  split; [done|]. unfold ChatPage.try_block. split; intros ->; done.
Qed.

(** The errors the loops of the inference page throw themselves are plain
    errors, never aborts. *)
Lemma inference_for_lines_thrown parse newMessages lines text st e text' st' :
  InferencePage.for_lines parse newMessages lines text st = InferencePage.Thrown e text' st' ->
  Js.isAbortError e = false.
Proof.
  revert text st. induction lines as [|line rest IH]; intros text st; simpl; [done|].
  destruct (Js.startsWith line "data: "); [|by apply IH].
  destruct (parse _) as [data|]; [|by apply IH].
  destruct (Js.truthy (default "" (InferencePage.frame_error data))); [by intros [= <- _ _]|].
  destruct (InferencePage.frame_done data); [done|].
  destruct (Js.truthy _); by apply IH.
Qed.

Lemma inference_read_loop_thrown parse newMessages chunks text st e text' st' :
  InferencePage.read_loop parse newMessages chunks text st = InferencePage.Thrown e text' st' ->
  Js.isAbortError e = false.
Proof.
  revert text st. induction chunks as [|value chunks IH]; intros text st; simpl; [done|].
  destruct (InferencePage.for_lines parse newMessages _ text st) as [text1 st1|e1 text1 st1] eqn:Hlines.
  - by apply IH.
  - intros [= <- _ _]. by apply inference_for_lines_thrown in Hlines.
Qed.

(** A failing request makes the [try] block of either page throw an error
    that is not an abort. *)
Lemma chat_try_block_fails parse reply (st : ChatPage.State) :
  fails reply = true ->
  exists e, snd (ChatPage.try_block parse reply st) = Some e /\ Js.isAbortError e = false.
Proof.
  unfold fails, ChatPage.try_block. destruct reply as [e|status chunks ending].
  - intros He%negb_true_iff. by exists e.
  - destruct (ok status); simpl; [|by eexists].
    destruct ending as [|e]; [done|]. intros He%negb_true_iff. by exists e.
Qed.

Lemma inference_try_block_fails parse newMessages reply (st : InferencePage.State) :
  fails reply = true ->
  exists e, snd (InferencePage.try_block parse newMessages reply st) = Some e
            /\ Js.isAbortError e = false.
Proof.
  unfold fails, InferencePage.try_block. destruct reply as [e|status chunks ending].
  - intros He%negb_true_iff. by exists e.
  - destruct (ok status); simpl; [|by eexists].
    destruct (InferencePage.read_loop parse newMessages chunks "" st)
      as [text1 st1|e1 text1 st1] eqn:Hloop.
    + destruct ending as [|e]; [done|]. intros He%negb_true_iff. by exists e.
    + intros _. exists e1. split; [done|]. by apply inference_read_loop_thrown in Hloop.
Qed.

(** C2 (as amended): when a streamed chat request fails other than by an
    abort (the fetch is rejected, the status is not ok, or the body breaks
    off), the inference page takes the assistant placeholder out of the
    message list again, as it also does when its stream carries an error
    frame, and the chat page keeps the placeholder and replaces whatever
    text it had with a fixed failure notice. *)
Theorem failed_stream_placeholder (reply : Reply) (text : string) (before : list Message) :
  fails reply = true ->
  Js.trim text <> "" ->
  let newMessages := before ++ [mkMessage "user" (Js.trim text)] in
  (forall parse (st : InferencePage.State),
     InferencePage.inputText st = text -> InferencePage.messages st = before ->
     InferencePage.selectedModel st <> "" -> InferencePage.isGenerating st = false ->
     InferencePage.messages (fst (InferencePage.handleSendMessage parse reply st))
     = newMessages /\
     forall status chunks ending e partial st',
       ok status = true ->
       InferencePage.read_loop parse newMessages chunks ""
         (InferencePage.mkState (InferencePage.models st) (InferencePage.selectedModel st)
            (InferencePage.loading st) (InferencePage.error st)
            (newMessages ++ [mkMessage "assistant" ""]) "" true
            (InferencePage.temperature st) (InferencePage.topK st)
            (InferencePage.maxTokens st) true)
       = InferencePage.Thrown e partial st' ->
       InferencePage.messages
         (fst (InferencePage.handleSendMessage parse (Answered status chunks ending) st))
       = newMessages) /\
  (forall parse auth (st : ChatPage.State),
     ChatPage.input st = text -> ChatPage.messages st = before ->
     ChatPage.isGenerating st = false ->
     ChatPage.messages (fst (ChatPage.sendMessage parse auth reply st))
     = newMessages ++ [mkMessage "assistant" ChatPage.failure_text]).
Proof.
  intros Hfails Htext. cbv zeta. split.
  - intros parse st <- <- Hmodel Hgen. split.
    + destruct (inference_try_block_fails parse
                  (InferencePage.messages st
                   ++ [mkMessage "user" (Js.trim (InferencePage.inputText st))])
                  reply
                  (InferencePage.mkState (InferencePage.models st)
                     (InferencePage.selectedModel st) (InferencePage.loading st)
                     (InferencePage.error st)
                     ((InferencePage.messages st
                       ++ [mkMessage "user" (Js.trim (InferencePage.inputText st))])
                      ++ [mkMessage "assistant" ""]) "" true
                     (InferencePage.temperature st) (InferencePage.topK st)
                     (InferencePage.maxTokens st) true) Hfails) as (e & Hthrown & Habort).
      by apply (handleSendMessage_failure parse reply st e).
    + intros status chunks ending e partial st' Hok Hloop.
      apply (handleSendMessage_failure parse _ st e); try done.
      * unfold InferencePage.try_block. by rewrite Hok, Hloop.
      * by apply inference_read_loop_thrown in Hloop.
  - intros parse auth st <- <- Hgen.
    destruct (chat_try_block_fails parse reply
                (ChatPage.mkState
                   ((ChatPage.messages st ++ [mkMessage "user" (Js.trim (ChatPage.input st))])
                    ++ [mkMessage "assistant" ""]) "" true true) Hfails)
      as (e & Hthrown & Habort).
    rewrite <- app_assoc. by apply (sendMessage_failure parse auth reply st e).
Qed.

(** The example: the connection drops after the first delta or token. *)
Lemma failed_stream_placeholder_witness :
  let dropped := Js.mkError "TypeError" "network error" in
  InferencePage.messages
    (fst (InferencePage.handleSendMessage Frames.parse_frame
            (Answered 200 [Frames.event (Frames.token_frame "Hel")] (Broken dropped))
            (InferencePage.setInputText " hi "
               (InferencePage.setSelectedModel "sft/d12/model_002000.pt" InferencePage.initial))))
  = [mkMessage "user" "hi"] /\
  ChatPage.messages
    (fst (ChatPage.sendMessage Frames.parse_chunk (AuthContext.page_load ∅)
            (Answered 200 [Frames.event (Frames.delta "Hel")] (Broken dropped))
            (ChatPage.mkState [] " hi " false false)))
  = [mkMessage "user" "hi"; mkMessage "assistant" ChatPage.failure_text].
Proof.
  cbv zeta. split.
  - pose proof (failed_stream_placeholder
                  (Answered 200 [Frames.event (Frames.token_frame "Hel")]
                     (Broken (Js.mkError "TypeError" "network error"))) " hi " []) as H.
    cbv zeta in H. destruct H as [Hinference _]; [reflexivity | discriminate |].
    apply Hinference; reflexivity || discriminate.
  - pose proof (failed_stream_placeholder
                  (Answered 200 [Frames.event (Frames.delta "Hel")]
                     (Broken (Js.mkError "TypeError" "network error"))) " hi " []) as H.
    cbv zeta in H. destruct H as [_ Hchat]; [reflexivity | discriminate |].
    apply Hchat; reflexivity.
Defined.

(** The counterexample to C2 as it is worded: on the chat page the
    connection drops after the delta [Hel]; the list still ends with the
    assistant placeholder, which now reads the failure notice. *)
Lemma chat_failure_keeps_placeholder :
  let dropped := Js.mkError "TypeError" "network error" in
  let st := ChatPage.mkState [] "hi" false false in
  let reply := Answered 200 [Frames.event (Frames.delta "Hel")] (Broken dropped) in
  Js.isAbortError dropped = false /\
  snd (ChatPage.sendMessage Frames.parse_chunk (AuthContext.page_load ∅) reply st)
  = Some (ChatPage.mkRequest "/api/chat/completions"
            (AuthContext.fetch_headers_with_token (AuthContext.page_load ∅))
            [mkMessage "user" "hi"] true 1 2048) /\
  ChatPage.messages (fst (ChatPage.sendMessage Frames.parse_chunk (AuthContext.page_load ∅) reply st))
  = [mkMessage "user" "hi";
     mkMessage "assistant" "Error: Failed to get response. Please try again."].
Proof. cbv zeta. repeat split. Qed.

(** An error frame in the chat stream ends the loop over the lines of its
    chunk and throws nothing: the text received so far stays. *)
Lemma chat_error_frame_keeps_text :
  let st := ChatPage.mkState [] "hi" false false in
  let reply := Answered 200 [Frames.event (Frames.delta "Hel");
                             Frames.event (Frames.error_frame "engine crashed")] Closed in
  ChatPage.messages (fst (ChatPage.sendMessage Frames.parse_chunk (AuthContext.page_load ∅) reply st))
  = [mkMessage "user" "hi"; mkMessage "assistant" "Hel"].
Proof. reflexivity. Qed.

End FailedStream.

(** ** Splitting a chunked body into lines *)

Section Splitting.

Import Stream Lines.

Lemma str_app_cons (c : ascii) (s t : string) : String c s +:+ t = String c (s +:+ t).
Proof. reflexivity. Qed.

Lemma str_app_nil_r (s : string) : s +:+ "" = s.
Proof. induction s as [|c s IH]; [done|]. by rewrite str_app_cons, IH. Qed.

Lemma str_app_assoc (a b c : string) : (a +:+ b) +:+ c = a +:+ (b +:+ c).
Proof. induction a as [|x a IH]; [done|]. by rewrite !str_app_cons, IH. Qed.

Lemma split_nonempty (sep : ascii) (s : string) : Js.split sep s <> [].
Proof.
  destruct s as [|c s]; simpl; [done|].
  destruct (Ascii.eqb c sep); [done|]. by destruct (Js.split sep s).
Qed.

Lemma pop_cons_nonempty (x : string) (l : list string) :
  l <> [] -> pop (x :: l) = (x :: fst (pop l), snd (pop l)).
Proof. intros Hl. unfold pop. by destruct l. Qed.

(** The recursive equations of [split] followed by [pop]. *)
Lemma pop_split_LF (s : string) :
  pop (Js.split Js.LF (String Js.LF s)) = ("" :: complete s, pending s).
Proof.
  simpl. rewrite pop_cons_nonempty by apply split_nonempty. done.
Qed.

Lemma pop_split_other (c : ascii) (s : string) :
  Ascii.eqb c Js.LF = false ->
  pop (Js.split Js.LF (String c s)) = cons_first c (pop (Js.split Js.LF s)).
Proof.
  intros Hc. simpl. rewrite Hc.
  pose proof (split_nonempty Js.LF s) as Hne.
  destruct (Js.split Js.LF s) as [|piece pieces]; [done|].
  destruct pieces as [|q qs]; [done|].
  rewrite !pop_cons_nonempty by done. done.
Qed.

Lemma pop_split_pair (s : string) : pop (Js.split Js.LF s) = (complete s, pending s).
Proof. unfold complete, pending. by destruct (pop _). Qed.

(** A buffer followed by more text splits into the lines of the buffer,
    and then the lines of its unfinished piece followed by that text. *)
Lemma complete_pending_app (a b : string) :
  complete (a +:+ b) = complete a ++ complete (pending a +:+ b) /\
  pending (a +:+ b) = pending (pending a +:+ b).
Proof.
  induction a as [|c a [IHc IHp]]; [done|].
  unfold complete, pending. rewrite str_app_cons.
  destruct (Ascii.eqb c Js.LF) eqn:Hc.
  - apply Ascii.eqb_eq in Hc as ->. rewrite !pop_split_LF. simpl.
    fold (complete a) (pending a). by rewrite IHc, IHp.
  - rewrite !(pop_split_other c) by done. rewrite !pop_split_pair, IHc, IHp.
    destruct (complete a) as [|line lines]; simpl.
    + rewrite str_app_cons.
      fold (complete (String c (pending a +:+ b))) (pending (String c (pending a +:+ b))).
      unfold complete, pending. rewrite (pop_split_other c) by done.
      rewrite pop_split_pair. by destruct (complete (pending a +:+ b)).
    + done.
Qed.

Lemma complete_app (a b : string) :
  complete (a +:+ b) = complete a ++ complete (pending a +:+ b).
Proof. apply complete_pending_app. Qed.

Lemma pending_app (a b : string) : pending (a +:+ b) = pending (pending a +:+ b).
Proof. apply complete_pending_app. Qed.

(** Text without a line feed is all unfinished piece. *)
Lemma free_of_split (s : string) :
  free_of Js.LF s = true -> complete s = [] /\ pending s = s.
Proof.
  induction s as [|c s IH]; [done|]. simpl. intros [Hc Hs]%andb_prop.
  apply negb_true_iff in Hc. destruct (IH Hs) as [IHc IHp].
  unfold complete, pending. rewrite (pop_split_other c) by done.
  rewrite pop_split_pair, IHc, IHp. done.
Qed.

(** The unfinished piece never holds a line feed. *)
Lemma pending_free (s : string) : free_of Js.LF (pending s) = true.
Proof.
  induction s as [|c s IH]; [done|].
  unfold pending. destruct (Ascii.eqb c Js.LF) eqn:Hc.
  - apply Ascii.eqb_eq in Hc as ->. by rewrite pop_split_LF.
  - rewrite (pop_split_other c) by done. rewrite pop_split_pair.
    destruct (complete s); simpl; [|done]. by rewrite Hc, IH.
Qed.

(** A line, its line feed, and what follows. *)
Lemma complete_line (line rest : string) :
  free_of Js.LF line = true ->
  complete (line +:+ String Js.LF rest) = line :: complete rest /\
  pending (line +:+ String Js.LF rest) = pending rest.
Proof.
  intros Hline. induction line as [|c line IH]; simpl in Hline.
  - unfold complete, pending. change ("" +:+ ?s) with s. by rewrite pop_split_LF.
  - apply andb_prop in Hline as [Hc Hline]. apply negb_true_iff in Hc.
    destruct (IH Hline) as [IHc IHp].
    unfold complete, pending. rewrite str_app_cons, (pop_split_other c) by done.
    rewrite pop_split_pair, IHc, IHp. done.
Qed.

End Splitting.

(** ** The chat page puts the deltas back together *)

Section Reassembly.

Import Stream Lines.

Variable parse : string -> option ChatPage.Chunk.

(** The loop over the lines, by the kind of its first line. *)
Lemma for_lines_cons (line : string) (rest : list string) (st : ChatPage.State) :
  ChatPage.for_lines parse (line :: rest) st
  = match kind parse line with
    | Skip => ChatPage.for_lines parse rest st
    | Append text =>
        ChatPage.for_lines parse rest
          (ChatPage.setMessages
             (ChatPage.update_last (ChatPage.append_content text) (ChatPage.messages st)) st)
    | Sentinel => ChatPage.setIsGenerating false st
    | ErrorFrame => st
    end.
Proof.
  unfold kind. cbn [ChatPage.for_lines].
  destruct (Js.startsWith line "data: "); [|done].
  destruct (String.eqb _ "[DONE]"); [done|].
  destruct (parse _) as [parsed|]; [|done].
  destruct (ChatPage.chunk_error parsed); [done|].
  destruct (ChatPage.delta_content parsed) as [text|]; [|done].
  by destruct (Js.truthy text).
Qed.

Lemma for_lines_skips (lines : list string) (st : ChatPage.State) :
  forallb skips (map (kind parse) lines) = true ->
  ChatPage.for_lines parse lines st = st.
Proof.
  induction lines as [|line lines IH]; [done|].
  cbn [map forallb]. intros [Hk Hrest]%andb_prop.
  rewrite for_lines_cons. destruct (kind parse line); try discriminate. by apply IH.
Qed.

Lemma for_lines_app_stay (A B : list string) (st : ChatPage.State) :
  existsb leaves (map (kind parse) A) = false ->
  ChatPage.for_lines parse (A ++ B) st
  = ChatPage.for_lines parse B (ChatPage.for_lines parse A st).
Proof.
  revert st. induction A as [|line A IH]; intros st; [done|].
  cbn [map existsb app]. intros [Hk Hrest]%orb_false_elim.
  rewrite !for_lines_cons. destruct (kind parse line); try discriminate; by apply IH.
Qed.

Lemma for_lines_app_leave (A B : list string) (st : ChatPage.State) :
  existsb leaves (map (kind parse) A) = true ->
  ChatPage.for_lines parse (A ++ B) st = ChatPage.for_lines parse A st.
Proof.
  revert st. induction A as [|line A IH]; intros st; [done|].
  cbn [map existsb app]. intros Hex.
  rewrite !for_lines_cons. destruct (kind parse line); try done; by apply IH.
Qed.

Lemma skips_quiet (kinds : list Kind) :
  forallb skips kinds = true -> quiet_after_leave kinds = true.
Proof.
  induction kinds as [|k kinds IH]; [done|]. simpl. intros [Hk Hrest]%andb_prop.
  destruct k; try discriminate. by apply IH.
Qed.

Lemma quiet_app (A B : list Kind) :
  quiet_after_leave (A ++ B) = true ->
  (existsb leaves A = false /\ quiet_after_leave B = true) \/
  (existsb leaves A = true /\ forallb skips B = true).
Proof.
  induction A as [|k A IH]; simpl; [by left|].
  destruct (leaves k); simpl.
  - rewrite forallb_app. intros [_ HB]%andb_prop. by right.
  - exact IH.
Qed.

Lemma or_else_empty (s : string) : Js.or_else s "" = s.
Proof. unfold Js.or_else, Js.truthy. by destruct (String.eqb_spec s "") as [->|]. Qed.

(** However the body is cut into chunks, the loop over the chunks does
    what one pass over all the lines of the body does, provided nothing but
    lines that are passed over follows the line that ends the pass. *)
Lemma read_loop_whole (chunks : list string) (buffer : string) (st : ChatPage.State) :
  free_of Js.LF buffer = true ->
  quiet_after_leave (map (kind parse) (complete (buffer +:+ joined chunks))) = true ->
  ChatPage.read_loop parse buffer chunks st
  = ChatPage.for_lines parse (complete (buffer +:+ joined chunks)) st.
Proof.
  revert buffer st. induction chunks as [|value chunks IH]; intros buffer st Hfree Hquiet.
  - simpl. rewrite str_app_nil_r. by destruct (free_of_split buffer Hfree) as [-> _].
  - cbn [ChatPage.read_loop joined fold_right] in *.
    fold (joined chunks) in *.
    rewrite <- str_app_assoc, complete_app in *.
    rewrite pop_split_pair, or_else_empty.
    rewrite map_app in Hquiet. apply quiet_app in Hquiet as [[Hstay HB] | [Hleave HB]].
    + rewrite for_lines_app_stay by done. apply IH; [apply pending_free | done].
    + rewrite for_lines_app_leave by done.
      rewrite IH; [| apply pending_free | by apply skips_quiet].
      by apply for_lines_skips.
Qed.

End Reassembly.

(** ** One turn of the chat page, and the next *)

Section ChatTurn.

Import Stream Lines.

Variable parse : string -> option ChatPage.Chunk.
Variable enc : string -> string.

Lemma complete_event (payload rest : string) :
  free_of Js.LF payload = true ->
  complete (Frames.event payload +:+ rest) = data_line payload :: "" :: complete rest /\
  pending (Frames.event payload +:+ rest) = pending rest.
Proof.
  intros Hfree. unfold Frames.event.
  replace (("data: " +:+ payload +:+ String Js.LF (String Js.LF "")) +:+ rest)
    with (data_line payload +:+ String Js.LF (String Js.LF rest)).
  2:{ unfold data_line. by rewrite !str_app_assoc. }
  destruct (complete_line (data_line payload) (String Js.LF rest)) as [Hc Hp]; [exact Hfree|].
  rewrite Hc, Hp. unfold complete, pending. by rewrite pop_split_LF.
Qed.

Lemma complete_sse_body (texts : list string) :
  Forall (written_and_read parse enc) texts ->
  complete (sse_body enc texts) = body_lines enc texts /\ pending (sse_body enc texts) = "".
Proof.
  unfold sse_body, body_lines. induction 1 as [|text texts (_ & Hfree & _) _ [IHc IHp]].
  - change (joined (map _ []) +:+ ?s) with s.
    rewrite <- (str_app_nil_r (Frames.event "[DONE]")).
    destruct (complete_event "[DONE]" "") as [-> ->]; done.
  - cbn [map joined fold_right flat_map]. fold (joined (map (fun t => Frames.event (enc t)) texts)).
    rewrite str_app_assoc.
    destruct (complete_event (enc text)
                (joined (map (fun t => Frames.event (enc t)) texts) +:+ Frames.event "[DONE]")
                Hfree) as [-> ->].
    rewrite IHc, IHp. done.
Qed.

Lemma startsWith_data_line (payload : string) :
  Js.startsWith (data_line payload) "data: " = true.
Proof. unfold data_line, Js.startsWith. simpl. by destruct payload. Qed.

Lemma kind_data_line (text : string) :
  written_and_read parse enc text ->
  kind parse (data_line (enc text)) = if Js.truthy text then Append text else Skip.
Proof.
  intros (Hparse & _ & Hdone). unfold kind.
  rewrite startsWith_data_line.
  change (Js.slice 6 (data_line (enc text))) with (enc text).
  apply String.eqb_neq in Hdone. by rewrite Hdone, Hparse.
Qed.

Lemma kind_empty_line : kind parse "" = Skip.
Proof. reflexivity. Qed.

Lemma kind_sentinel : kind parse (data_line "[DONE]") = Sentinel.
Proof. reflexivity. Qed.

Lemma body_lines_quiet (texts : list string) :
  Forall (written_and_read parse enc) texts ->
  quiet_after_leave (map (kind parse) (body_lines enc texts)) = true.
Proof.
  unfold body_lines. induction 1 as [|text texts Htext _ IH]; [done|].
  cbn [flat_map app map quiet_after_leave].
  rewrite (kind_data_line text Htext), kind_empty_line.
  by destruct (Js.truthy text).
Qed.

(** One pass over the lines of the body appends the deltas, in order, to
    the text of the last message, and lowers the generating flag. *)
Lemma for_lines_body (texts : list string) (pre : list Message) (role0 text0 : string)
    (st : ChatPage.State) :
  Forall (written_and_read parse enc) texts ->
  ChatPage.messages st = pre ++ [mkMessage role0 text0] ->
  ChatPage.for_lines parse (body_lines enc texts) st
  = ChatPage.mkState (pre ++ [mkMessage role0 (text0 +:+ concat_texts texts)])
      (ChatPage.input st) false (ChatPage.abortController st).
Proof.
  unfold body_lines, concat_texts. intros Hall. revert text0 st.
  induction Hall as [|text texts Htext _ IH]; intros text0 st Hst.
  - cbn [flat_map app joined fold_right]. rewrite for_lines_cons, kind_sentinel.
    rewrite str_app_nil_r, <- Hst. done.
  - cbn [flat_map app joined fold_right]. fold (joined texts).
    rewrite for_lines_cons, (kind_data_line text Htext).
    unfold Js.truthy. destruct (String.eqb_spec text "") as [->|Hne]; cbn [negb].
    + rewrite for_lines_cons, kind_empty_line. by apply IH.
    + rewrite for_lines_cons, kind_empty_line.
      rewrite <- str_app_assoc.
      match goal with |- ChatPage.for_lines _ _ ?s = _ =>
        change (ChatPage.input st) with (ChatPage.input s);
        change (ChatPage.abortController st) with (ChatPage.abortController s)
      end.
      apply IH. simpl. rewrite Hst. apply update_last_snoc.
Qed.

(** C1: the chat page puts the deltas of a stream back together by
    concatenation in their order of arrival, however the body is cut into
    chunks: the deltas [texts], then the end-of-stream sentinel, leave one
    assistant message whose text is the deltas one after the other; and the
    messages posted with the next user turn hold that message as it is. *)
Theorem chat_reassembles_deltas (texts chunks : list string) (status : N)
    (auth : AuthContext.State) (st : ChatPage.State) (next : string) :
  Forall (written_and_read parse enc) texts ->
  joined chunks = sse_body enc texts ->
  ok status = true ->
  Js.trim (ChatPage.input st) <> "" -> ChatPage.isGenerating st = false ->
  Js.trim next <> "" ->
  let question := mkMessage "user" (Js.trim (ChatPage.input st)) in
  let answer := mkMessage "assistant" (concat_texts texts) in
  let turn := ChatPage.sendMessage parse auth (Answered status chunks Closed) st in
  ChatPage.messages (fst turn) = ChatPage.messages st ++ [question; answer] /\
  forall reply,
    ChatPage.body_messages <$>
      snd (ChatPage.sendMessage parse auth reply (ChatPage.setInput next (fst turn)))
    = Some (ChatPage.messages st ++ [question; answer; mkMessage "user" (Js.trim next)]).
Proof.
  intros Hall Hbody Hok Hinput Hgen Hnext. cbv zeta.
  assert (Hturn : ChatPage.messages
                    (fst (ChatPage.sendMessage parse auth (Answered status chunks Closed) st))
                  = ChatPage.messages st
                    ++ [mkMessage "user" (Js.trim (ChatPage.input st));
                        mkMessage "assistant" (concat_texts texts)]).
  { rewrite (sendMessage_eq _ _ _ _ Hinput Hgen). cbv zeta.
    unfold ChatPage.try_block. rewrite Hok.
    rewrite read_loop_whole; [|done|].
    - change ("" +:+ joined chunks) with (joined chunks). rewrite Hbody.
      destruct (complete_sse_body texts Hall) as [-> _].
      erewrite for_lines_body; [|done|reflexivity]. simpl.
      by rewrite <- app_assoc.
    - change ("" +:+ joined chunks) with (joined chunks). rewrite Hbody.
      destruct (complete_sse_body texts Hall) as [-> _].
      by apply body_lines_quiet. }
  split; [exact Hturn|].
  intros reply.
  destruct (sendMessage_request parse auth (Answered status chunks Closed) st Hinput Hgen)
    as (_ & Hflag & _).
  destruct (sendMessage_request parse auth reply
              (ChatPage.setInput next
                 (fst (ChatPage.sendMessage parse auth (Answered status chunks Closed) st))))
    as (Hreq & _); [done | exact Hflag |].
  rewrite Hreq. simpl. rewrite Hturn. by rewrite <- app_assoc.
Qed.

End ChatTurn.

(** The example of the claim: the deltas [Hel], [lo] and [ world], then the
    sentinel, in a body that reaches the page in chunks of 23 characters,
    cut in the middle of the events; the next turn posts the reply as it
    was put together. *)
Lemma chat_reassembles_deltas_witness :
  let chunks := Lines.cut 20 22 (Lines.sse_body Frames.delta ["Hel"; "lo"; " world"]) in
  let auth := AuthContext.page_load ∅ in
  let turn := ChatPage.sendMessage Frames.parse_chunk auth
                (Stream.Answered 200 chunks Stream.Closed)
                (ChatPage.mkState [] "Say hello" false false) in
  length chunks = 8%nat /\
  ChatPage.messages (fst turn)
  = [Stream.mkMessage "user" "Say hello"; Stream.mkMessage "assistant" "Hello world"] /\
  ChatPage.body_messages <$>
    snd (ChatPage.sendMessage Frames.parse_chunk auth
           (Stream.Answered 200 [] Stream.Closed) (ChatPage.setInput "Thanks" (fst turn)))
  = Some [Stream.mkMessage "user" "Say hello"; Stream.mkMessage "assistant" "Hello world";
          Stream.mkMessage "user" "Thanks"].
Proof.
  cbv zeta. split; [reflexivity|].
  pose proof (chat_reassembles_deltas Frames.parse_chunk Frames.delta
                ["Hel"; "lo"; " world"]
                (Lines.cut 20 22 (Lines.sse_body Frames.delta ["Hel"; "lo"; " world"]))
                200 (AuthContext.page_load ∅)
                (ChatPage.mkState [] "Say hello" false false) "Thanks") as H.
  cbv zeta in H. destruct H as [Hturn Hnext].
  - repeat constructor; intros Heq; vm_compute in Heq; discriminate Heq.
  - reflexivity.
  - reflexivity.
  - discriminate.
  - reflexivity.
  - discriminate.
  - split; [exact Hturn | exact (Hnext (Stream.Answered 200 [] Stream.Closed))].
Defined.

(** ** The inference page: rendering, and the send handler *)

Section InferenceTurn.

Import Stream Lines.

Variable parse : string -> option InferencePage.Frame.
Variable enc : string -> string.

Lemma showing_twice newMessages text text' st :
  showing newMessages text' (showing newMessages text st) = showing newMessages text' st.
Proof. reflexivity. Qed.

Lemma split_complete_pending (s : string) : Js.split Js.LF s = complete s ++ [pending s].
Proof.
  unfold complete, pending, pop. simpl.
  apply app_removelast_last, split_nonempty.
Qed.

Lemma split_event (payload : string) :
  free_of Js.LF payload = true ->
  Js.split Js.LF (Frames.event payload) = [data_line payload; ""; ""].
Proof.
  intros Hfree. rewrite split_complete_pending.
  rewrite <- (str_app_nil_r (Frames.event payload)).
  by destruct (complete_event payload "" Hfree) as [-> ->].
Qed.

(** The lines of a token event add the token to the text shown. *)
Lemma inference_for_lines_token newMessages (token text : string) (st : InferencePage.State) :
  token_written_and_read parse enc token ->
  InferencePage.for_lines parse newMessages [data_line (enc token); ""; ""] text
    (showing newMessages text st)
  = InferencePage.Done (text +:+ token) (showing newMessages (text +:+ token) st).
Proof.
  intros [Hparse _]. cbn [InferencePage.for_lines].
  rewrite startsWith_data_line.
  change (Js.slice 6 (data_line (enc token))) with (enc token). rewrite Hparse.
  cbn [InferencePage.frame_error InferencePage.frame_done InferencePage.frame_token
       default from_option id].
  change (Js.truthy "") with false. cbv iota.
  change (Js.startsWith "" "data: ") with false. cbv iota.
  unfold Js.truthy. destruct (String.eqb_spec token "") as [->|_]; cbn [negb].
  - by rewrite str_app_nil_r.
  - done.
Qed.


End InferenceTurn.

Section InferenceHost.

Import Stream Lines InferencePage.

(** The page renders its input area the same in every state: both
    controls disabled, no handler wired, the fallback command shown. *)
Lemma render_input_area (st : State) :
  textarea_disabled (render st) = true /\
  textarea_onKeyDown (render st) = None /\
  button_disabled (render st) = true /\
  button_onClick (render st) = None /\
  controls_enabled (render st) = false /\
  notice_command (render st) = cli_fallback /\
  banner_commands (render st)
  = ["$ cd /var/www/gpt2/nanochat"; "$ source .venv/bin/activate";
     "$ python -m scripts.chat_cli -i sft"].
Proof. repeat split. Qed.

(** The explanation shown for a 503 holds the command-line fallback. *)
Lemma unsupported_text_fallback : Js.includes unsupported_text cli_fallback = true.
Proof. reflexivity. Qed.

(** The answer of a host without the capability makes the handler throw an
    error whose message holds the status. *)
Lemma status_503_message :
  Js.includes ("HTTP error! status: " +:+ pretty 503%N) "503" = true /\
  ok 503 = false.
Proof. split; reflexivity. Qed.




End InferenceHost.

(** * Further properties of the pages *)

(** ** The cells of the notebook editor *)

Section NotebookCells.

Import NotebookPage NotebookEditor.

Lemma deleteCell_cells (index : nat) (st : State) :
  length (cells st) <> 1%nat ->
  cells (fst (deleteCell index true st)) = take index (cells st) ++ drop (S index) (cells st).
Proof.
  intros Hlen. unfold deleteCell.
  destruct (Nat.eqb_spec (length (cells st)) 1) as [Heq|_]; [done|].
  simpl. rewrite filter_index_drop_one by lia. by rewrite Nat.sub_0_r.
Qed.

(** [deleteCell] never takes the last cell away. *)
Lemma deleteCell_cells_nonempty_aux (index : nat) (answer : bool) (st : State) :
  cells st <> [] -> cells (fst (deleteCell index answer st)) <> [].
Proof.
  intros Hne. destruct answer; [|by rewrite deleteCell_declined].
  destruct (Nat.eq_dec (length (cells st)) 1%nat) as [Hone|Hmany].
  - unfold deleteCell. by rewrite Hone.
  - rewrite (deleteCell_cells index st Hmany). intros Hnil.
    apply (f_equal length) in Hnil. rewrite length_app, length_take, length_drop in Hnil.
    simpl in Hnil. destruct (cells st) as [|c cs]; [done|]. simpl in *. lia.
Qed.

(** X1: [deleteCell] takes away at most one cell and never the last one:
    a notebook that has cells keeps at least one, whatever the index and
    the answer to the prompt; an index past the end takes nothing away. *)
Theorem deleteCell_bounds (index : nat) (answer : bool) (st : State) :
  let st' := fst (deleteCell index answer st) in
  (cells st <> [] -> cells st' <> []) /\
  (length (cells st) - 1 <= length (cells st') <= length (cells st))%nat /\
  ((length (cells st) <= index)%nat -> cells st' = cells st) /\
  (answer = false -> cells st' = cells st).
Proof.
  cbv zeta.
  destruct answer; [|rewrite deleteCell_declined; repeat split; try done; lia].
  destruct (Nat.eq_dec (length (cells st)) 1%nat) as [Hone|Hmany].
  - unfold deleteCell. rewrite Hone. simpl.
    repeat split; try done; lia.
  - rewrite (deleteCell_cells index st Hmany).
    destruct (Nat.le_gt_cases (length (cells st)) index) as [Hout|Hin].
    + rewrite take_ge, drop_ge, app_nil_r by lia. repeat split; try done; lia.
    + assert (Hlen : length (take index (cells st) ++ drop (S index) (cells st))
                     = (length (cells st) - 1)%nat).
      { rewrite length_app, length_take, length_drop. lia. }
      repeat split; try lia.
      intros _ Hnil. rewrite Hnil in Hlen. simpl in Hlen. lia.
Qed.

(** X2: adding a cell and then deleting the cell just added gives back
    the cells there were, if there were any; on an empty notebook the
    deletion is refused, and the added cell stays. *)
Theorem addCell_then_deleteCell (st : State) :
  let added := addCell st in
  let last := length (cells st) in
  cells added = cells st ++ [mkCell "code" "" None None] /\
  (cells st <> [] -> cells (fst (deleteCell last true added)) = cells st) /\
  (cells st = [] ->
   deleteCell last true added = (added, [Alert "Cannot delete the last cell"])).
Proof.
  cbv zeta. split; [done|]. split.
  - intros Hne. rewrite deleteCell_cells.
    + simpl. rewrite take_app_length, drop_ge, app_nil_r; [done|].
      rewrite length_app. simpl. lia.
    + simpl. rewrite length_app. simpl.
      destruct (cells st); [done | simpl; lia].
  - intros Hnil. unfold deleteCell, addCell. simpl. by rewrite Hnil.
Qed.

(** [updateCell] replaces a cell there is and keeps the number of cells,
    or appends just past the end. *)
Lemma updateCell_cells (index : nat) (updatedCell : Cell) (st st' : State) :
  updateCell index updatedCell st = Some st' ->
  cells st' !! index = Some updatedCell /\
  length (cells st') = (if (index =? length (cells st))%nat
                        then S (length (cells st)) else length (cells st)) /\
  (forall i, i <> index -> (i < length (cells st))%nat -> cells st' !! i = cells st !! i).
Proof.
  unfold updateCell.
  destruct (Nat.ltb_spec index (length (cells st))) as [Hlt|Hge].
  - intros [= <-]. simpl.
    destruct (Nat.eqb_spec index (length (cells st))) as [Heq|_]; [lia|].
    split; [by apply list_lookup_insert_eq|]. split; [apply length_insert|].
    intros i Hi _. by apply list_lookup_insert_ne.
  - destruct (Nat.eqb_spec index (length (cells st))) as [->|Hne]; [|done].
    intros [= <-]. simpl. split; [|split].
    + rewrite lookup_app_r by done. by rewrite Nat.sub_diag.
    + rewrite length_app. simpl. lia.
    + intros i _ Hi. by apply lookup_app_l.
Qed.

Lemma act_keeps_cells (a : Action) (st st' : State) :
  act a st = Some st' -> cells st <> [] -> cells st' <> [].
Proof.
  destruct a as [|index updatedCell|index answer]; simpl.
  - intros [= <-] Hne. simpl. by destruct (cells st).
  - intros Hupd Hne Hnil. apply updateCell_cells in Hupd as (_ & Hlen & _).
    rewrite Hnil in Hlen. simpl in Hlen.
    destruct (index =? length (cells st))%nat; [lia|]. by destruct (cells st).
  - intros [= <-] Hne. by apply (deleteCell_cells_nonempty_aux index answer st).
Qed.

Lemma act_length (a : Action) (actions : list Action) (st : State) :
  in_range (a :: actions) (length (cells st)) ->
  exists st', act a st = Some st' /\ in_range actions (length (cells st')).
Proof.
  destruct a as [|index updatedCell|index answer]; simpl.
  - intros Hrange. eexists. split; [done|]. simpl. rewrite length_app. simpl.
    by rewrite Nat.add_1_r.
  - intros [Hle Hrange]. unfold updateCell.
    destruct (Nat.ltb_spec index (length (cells st))) as [Hlt|Hge].
    + eexists. split; [done|]. simpl. rewrite length_insert.
      destruct (Nat.eqb_spec index (length (cells st))); [lia | done].
    + assert (Heq : index = length (cells st)) by lia.
      rewrite Heq, Nat.eqb_refl in *. eexists. split; [done|].
      simpl. rewrite length_app. simpl. by rewrite Nat.add_1_r.
  - intros Hrange. eexists. split; [done|].
    destruct (Nat.eqb_spec (length (cells st)) 1) as [Hone|Hmany].
    + unfold deleteCell. destruct (Nat.eqb_spec (length (cells st)) 1); [done | lia].
    + destruct answer; simpl in Hrange; [|by rewrite deleteCell_declined].
      rewrite (deleteCell_cells index st Hmany).
      rewrite length_app, length_take, length_drop.
      destruct (Nat.ltb_spec index (length (cells st))) as [Hlt|Hge].
      * replace (index `min` length (cells st) + (length (cells st) - S index))%nat
          with (length (cells st) - 1)%nat by lia. done.
      * replace (index `min` length (cells st) + (length (cells st) - S index))%nat
          with (length (cells st)) by lia. done.
Qed.

(** X3: adding, editing and deleting cells, in any order and any number
    of times, never leaves a notebook that had cells without any; and the
    actions all go through when every edit is of a cell there is at its
    time, or appends just past the end. *)
Theorem editor_keeps_a_cell (actions : list Action) (st : State) :
  cells st <> [] ->
  (forall st', edit actions st = Some st' -> cells st' <> []) /\
  (in_range actions (length (cells st)) -> is_Some (edit actions st)).
Proof.
  intros Hne. split.
  - revert st Hne. induction actions as [|a actions IH]; intros st Hne st'; simpl.
    + by intros [= <-].
    + destruct (act a st) as [st1|] eqn:Hact; [|done].
      apply IH. by apply (act_keeps_cells a st st1).
  - clear Hne. revert st. induction actions as [|a actions IH]; intros st Hrange.
    + by eexists.
    + destruct (act_length a actions st Hrange) as (st1 & Hact & Hrange1).
      cbn [edit]. rewrite Hact. by apply IH.
Qed.

(** The example: the only cell cannot be deleted, a second one is added
    and edited, then the first one is deleted. *)
Lemma editor_keeps_a_cell_witness :
  let actions := [DeleteCell 0 true; AddCell; UpdateCell 1 (mkCell "code" "x = 1" None None);
                  DeleteCell 0 true] in
  let st := mkState [mkCell "markdown" "# Title" None None] false [] false in
  cells <$> edit actions st = Some [mkCell "code" "x = 1" None None] /\
  forall st', edit actions st = Some st' -> cells st' <> [].
Proof.
  cbv zeta. split; [reflexivity|].
  apply (editor_keeps_a_cell
           [DeleteCell 0 true; AddCell; UpdateCell 1 (mkCell "code" "x = 1" None None);
            DeleteCell 0 true]
           (mkState [mkCell "markdown" "# Title" None None] false [] false)).
  discriminate.
Defined.

Lemma or_else_same (a b : string) : Js.or_else a b = a <-> a <> "" \/ b = "".
Proof.
  unfold Js.or_else, Js.truthy. destruct (String.eqb_spec a "") as [->|Hne]; simpl.
  - split; [intros ->; by right | intros [?| ->]; done].
  - split; [by left | done].
Qed.

Lemma or_null_same (o : option string) : or_null o = o <-> o <> Some "".
Proof.
  destruct o as [s|]; simpl; [|done].
  unfold Js.truthy. destruct (String.eqb_spec s "") as [->|Hne]; simpl.
  - split; [discriminate | done].
  - split; [congruence | done].
Qed.

Lemma or_null_Z_same (o : option Z) : or_null_Z o = o <-> o <> Some 0.
Proof.
  destruct o as [n|]; simpl; [|done].
  destruct (Z.eqb_spec n 0) as [->|Hne].
  - split; [discriminate | done].
  - split; [congruence | done].
Qed.

Lemma convert_cell_normal (c : LoadedCell) : normal (convert_cell c).
Proof.
  unfold normal, convert_cell. simpl. split; [|split].
  - unfold Js.or_else, Js.truthy.
    by destruct (String.eqb_spec (default "" (l_type c)) "").
  - destruct (l_output c) as [s|]; simpl; [|done].
    unfold Js.truthy. destruct (String.eqb_spec s ""); simpl; congruence.
  - destruct (l_execution_count c) as [n|]; simpl; [|done].
    destruct (Z.eqb_spec n 0); congruence.
Qed.

Lemma saved_cell_same (cell : Cell) : saved_cell cell = cell <-> normal cell.
Proof.
  unfold normal. destruct cell as [t c o n]. unfold saved_cell. simpl. split.
  - intros [= Ht _ Ho Hn].
    apply or_else_same in Ht as [Ht|Ht]; [|discriminate].
    by apply or_null_same in Ho; apply or_null_Z_same in Hn.
  - intros (Ht & Ho & Hn). f_equal.
    + apply or_else_same. by left.
    + apply or_else_same. by right.
    + by apply or_null_same.
    + by apply or_null_Z_same.
Qed.

Lemma saved_cell_normal (cell : Cell) : normal (saved_cell cell).
Proof.
  unfold normal, saved_cell. simpl. split; [|split].
  - unfold Js.or_else, Js.truthy. by destruct (String.eqb_spec (type cell) "").
  - destruct (output cell) as [s|]; simpl; [|done].
    unfold Js.truthy. destruct (String.eqb_spec s ""); simpl; congruence.
  - destruct (execution_count cell) as [n|]; simpl; [|done].
    destruct (Z.eqb_spec n 0); congruence.
Qed.

(** X4: the cells of an imported file are saved as they were imported:
    importing leaves every cell with a type, with no empty output and with
    no execution count of zero, and [saveNotebook] sends exactly such cells
    unchanged; any other cell it sends with the missing type filled in as
    [code], an empty output as none and a count of zero as none, and saving
    what was saved changes nothing more. *)
Theorem imported_cells_saved_unchanged (filename : string) (loaded : list LoadedCell)
    (st : State) :
  let imported := fst (loadIpynbFile filename (inr loaded) true st) in
  length (cells imported) = length loaded /\
  Forall normal (cells imported) /\
  saveNotebook_body imported = cells imported /\
  (forall cell, saved_cell cell = cell <-> normal cell) /\
  (forall st', Forall normal (saveNotebook_body st')) /\
  (forall st', map saved_cell (saveNotebook_body st') = saveNotebook_body st').
Proof.
  cbv zeta. simpl. split; [apply length_map|]. split; [|split; [|split; [|split]]].
  - apply Forall_forall. intros cell (c & <- & _)%list_elem_of_In%in_map_iff.
    apply convert_cell_normal.
  - unfold saveNotebook_body. simpl. rewrite <- (map_id (map convert_cell loaded)) at 2.
    apply map_ext_in. intros cell (c & <- & _)%in_map_iff.
    apply saved_cell_same, convert_cell_normal.
  - apply saved_cell_same.
  - intros st'. apply Forall_forall.
    intros cell (c & <- & _)%list_elem_of_In%in_map_iff. apply saved_cell_normal.
  - intros st'. unfold saveNotebook_body. rewrite <- (map_id (map saved_cell (cells st'))) at 2.
    apply map_ext_in. intros cell (c & <- & _)%in_map_iff.
    apply saved_cell_same, saved_cell_normal.
Qed.

End NotebookCells.

(** ** The selection and the running tasks of the evaluation page *)

Section EvalMore.

Import EvalPage.

Lemma includes_toggle (benchmarkId x : string) (prev : list string) :
  includes (toggle benchmarkId prev) x
  = xorb (includes prev x) (String.eqb benchmarkId x).
Proof.
  apply eq_true_iff_eq. rewrite includes_In, toggle_In.
  destruct (String.eqb_spec benchmarkId x) as [->|Hne].
  - destruct (includes prev x) eqn:Hinc; simpl.
    + apply includes_In in Hinc. split; [|done]. intros [[_ Hx]|[_ Hx]]; done.
    + split; [done|]. intros _. right. split; [done|].
      intros Hin. apply includes_In in Hin. congruence.
  - rewrite xorb_false_r, includes_In. split.
    + intros [[Hin _]|[-> _]]; done.
    + intros Hin. left. split; [done | congruence].
Qed.

Lemma toggle_NoDup (benchmarkId : string) (prev : list string) :
  List.NoDup prev -> List.NoDup (toggle benchmarkId prev).
Proof.
  intros Hnd. unfold toggle. destruct (includes prev benchmarkId) eqn:Hinc.
  - by apply List.NoDup_filter.
  - apply NoDup_ListNoDup, NoDup_app. split; [by apply NoDup_ListNoDup|]. split.
    + intros x Hx [->|[]]%list_elem_of_In. apply list_elem_of_In, includes_In in Hx. congruence.
    + apply NoDup_singleton.
Qed.

Lemma toggles_includes (ids : list string) (x : string) (st : State) :
  includes (selectedBenchmarks (fold_left (fun s id => toggleBenchmark id s) ids st)) x
  = xorb (includes (selectedBenchmarks st) x) (Nat.odd (count_occ string_dec ids x)).
Proof.
  revert st. induction ids as [|id ids IH]; intros st; simpl.
  - by rewrite xorb_false_r.
  - rewrite IH. simpl. rewrite includes_toggle.
    destruct (string_dec id x) as [->|Hne].
    + rewrite String.eqb_refl, Nat.odd_succ, <- Nat.negb_odd.
      by destruct (includes _ x), (Nat.odd _).
    + apply String.eqb_neq in Hne. rewrite Hne. by rewrite xorb_false_r.
Qed.

Lemma toggles_NoDup (ids : list string) (st : State) :
  List.NoDup (selectedBenchmarks st) ->
  List.NoDup (selectedBenchmarks (fold_left (fun s id => toggleBenchmark id s) ids st)).
Proof.
  revert st. induction ids as [|id ids IH]; intros st Hnd; simpl; [done|].
  apply IH. simpl. by apply toggle_NoDup.
Qed.

(** X5: after any series of clicks on the benchmark check boxes the
    selection holds no benchmark twice, and it holds a benchmark exactly
    when its box was clicked an odd number of times. *)
Theorem selection_after_toggles (ids : list string) (x : string) :
  let st := fold_left (fun s id => toggleBenchmark id s) ids initial in
  List.NoDup (selectedBenchmarks st) /\
  (In x (selectedBenchmarks st) <-> Nat.odd (count_occ string_dec ids x) = true).
Proof.
  cbv zeta. split.
  - apply toggles_NoDup. constructor.
  - rewrite <- includes_In, toggles_includes. done.
Qed.

Lemma filter_others_replaced (taskId : string) (task : Task) (l : list Task) :
  task_id task = taskId ->
  List.filter (fun t => negb (String.eqb (task_id t) taskId))
    (map (fun t => if String.eqb (task_id t) taskId then task else t) l)
  = List.filter (fun t => negb (String.eqb (task_id t) taskId)) l.
Proof.
  intros Hid. induction l as [|t l IH]; simpl; [done|].
  destruct (String.eqb (task_id t) taskId) eqn:Ht; simpl.
  - by rewrite Hid, String.eqb_refl.
  - by rewrite Ht, IH.
Qed.

Lemma filter_filter_same {A} (p : A -> bool) (l : list A) :
  List.filter p (List.filter p l) = List.filter p l.
Proof.
  induction l as [|x l IH]; simpl; [done|].
  destruct (p x) eqn:Hp; simpl; [by rewrite Hp, IH | done].
Qed.

(** X6: a poll of one task, whatever it reports, leaves the entries of
    the other running tasks as they were and in their order, leaves the
    selection alone, and neither arms nor disarms the timer of any other
    task; it never makes the list of running tasks longer.  The results
    change only when the poll reports a final status and the request for
    the results is answered: they then are the active results followed by
    the cached ones.  (The status report is about the task polled.) *)
Theorem poll_leaves_the_rest (iv : Interval) (resp : option Task)
    (refreshed : option (list EvalResult * list EvalResult)) (st : State) :
  (forall task, resp = Some task -> task_id task = polled iv) ->
  let st' := fst (poll iv resp refreshed st) in
  let others := List.filter (fun t => negb (String.eqb (task_id t) (polled iv))) in
  others (runningTasks st') = others (runningTasks st) /\
  (length (runningTasks st') <= length (runningTasks st))%nat /\
  selectedBenchmarks st' = selectedBenchmarks st /\
  selectedModel st' = selectedModel st /\
  results st'
  = match resp, refreshed with
    | Some task, Some (active, cached) =>
        if is_final task then active ++ cached else results st
    | _, _ => results st
    end /\
  (forall h, h <> handle iv -> armed h st' = armed h st).
Proof.
  intros Hid. cbv zeta.
  split; [|split; [|split; [|split; [|split]]]].
  - unfold poll. destruct resp as [task|]; [|done].
    specialize (Hid task eq_refl).
    destruct (is_final task); simpl.
    + destruct refreshed as [[active cached]|]; simpl;
        by rewrite filter_filter_same, filter_others_replaced.
    + by rewrite filter_others_replaced.
  - unfold poll. destruct resp as [task|]; [|done].
    destruct (is_final task); simpl.
    + destruct refreshed as [[active cached]|]; simpl;
        (etransitivity; [apply List.filter_length_le|]; by rewrite length_map).
    + by rewrite length_map.
  - unfold poll. destruct resp as [task|]; [destruct (is_final task)|]; try done.
    by destruct refreshed as [[active cached]|].
  - unfold poll. destruct resp as [task|]; [destruct (is_final task)|]; try done.
    by destruct refreshed as [[active cached]|].
  - unfold poll. destruct resp as [task|]; [destruct (is_final task)|];
      by destruct refreshed as [[active cached]|].
  - intros h Hh. apply poll_other_timer. congruence.
Qed.

(** The example: two tasks run; the poll of the first reports it
    completed, and the results are fetched. *)
Lemma poll_leaves_the_rest_witness :
  let first := mkTask "task-1" "sft_d12" ["mmlu"] "running" 0 None in
  let second := mkTask "task-2" "sft_d12" ["gsm8k"] "running" 40 (Some "gsm8k") in
  let st := mkState ["mmlu"] "sft_d12" [first; second] []
              [mkInterval 0 2000 "task-1"; mkInterval 1 2000 "task-2"] 2 in
  let report := mkTask "task-1" "sft_d12" ["mmlu"] "completed" 100 None in
  let result := mkEvalResult "sft_d12" ["mmlu"] "2025-01-01T00:00:00" in
  let st' := fst (poll (mkInterval 0 2000 "task-1") (Some report) (Some ([], [result])) st) in
  runningTasks st' = [second] /\
  results st' = [result] /\
  armed 1 st' = Some (mkInterval 1 2000 "task-2").
Proof.
  cbv zeta.
  pose proof (poll_leaves_the_rest (mkInterval 0 2000 "task-1")
                (Some (mkTask "task-1" "sft_d12" ["mmlu"] "completed" 100 None))
                (Some ([], [mkEvalResult "sft_d12" ["mmlu"] "2025-01-01T00:00:00"]))
                (mkState ["mmlu"] "sft_d12"
                   [mkTask "task-1" "sft_d12" ["mmlu"] "running" 0 None;
                    mkTask "task-2" "sft_d12" ["gsm8k"] "running" 40 (Some "gsm8k")] []
                   [mkInterval 0 2000 "task-1"; mkInterval 1 2000 "task-2"] 2)) as H.
  cbv zeta in H. destruct H as (_ & _ & _ & _ & Hresults & Harmed).
  - by intros task [= <-].
  - split; [reflexivity|]. split; [exact Hresults|].
    rewrite (Harmed 1%nat); [reflexivity | discriminate].
Defined.

Lemma fire_disarmed (h : nat)
    (resps : list (option Task * option (list EvalResult * list EvalResult)))
    (st : State) :
  armed h st = None -> fire_all h resps st = (st, []).
Proof.
  intros Hnone. induction resps as [|[resp refreshed] resps IH]; simpl; [done|].
  unfold fire. rewrite Hnone, IH. done.
Qed.

(** X7: once a poll has ended the polling of a task, by a final status or
    by failing, later firings of its timer do nothing: no request, no
    change of state. *)
Theorem stopped_polling_stays_stopped (iv : Interval) (resp : option Task)
    (refreshed : option (list EvalResult * list EvalResult))
    (resps : list (option Task * option (list EvalResult * list EvalResult)))
    (st : State) :
  armed (handle iv) st = Some iv ->
  ends_polling resp = true ->
  fire_all (handle iv) resps (fst (fire (handle iv) resp refreshed st))
  = (fst (fire (handle iv) resp refreshed st), []).
Proof.
  intros Harmed Hends. apply fire_disarmed.
  pose proof (fire_armed_timer iv resp refreshed st Harmed) as Hstep. cbv zeta in Hstep.
  by apply Hstep.
Qed.

(** The example: the poll fails, and the timer is fired twice more. *)
Lemma stopped_polling_stays_stopped_witness :
  let st := fst (runEvaluation (Some "task-1")
                   (setSelectedModel "sft_d12" (toggleBenchmark "mmlu" initial))) in
  let running := Some (mkTask "task-1" "sft_d12" ["mmlu"] "running" 10 None) in
  snd (fire_all 0 [(running, None); (running, None)] (fst (fire 0 None None st))) = [].
Proof.
  cbv zeta.
  rewrite (stopped_polling_stays_stopped (mkInterval 0 2000 "task-1") None None); reflexivity.
Defined.

(** X8: [runEvaluation] sends nothing and changes nothing when no
    benchmark or no model is selected; a rejected request leaves no task
    and no timer behind; an accepted one adds exactly one running task and
    arms exactly one timer. *)
Theorem runEvaluation_outcomes (resp : option string) (st : State) :
  (selectedBenchmarks st = [] \/ selectedModel st = "" ->
   runEvaluation resp st = (st, [Alert "Please select at least one benchmark and a model"])) /\
  (resp = None -> fst (runEvaluation resp st) = st) /\
  (forall taskId, selectedBenchmarks st <> [] -> selectedModel st <> "" ->
     resp = Some taskId ->
     snd (runEvaluation resp st) = [HttpPost "/api/eval/run"] /\
     length (runningTasks (fst (runEvaluation resp st))) = S (length (runningTasks st)) /\
     length (intervals (fst (runEvaluation resp st))) = S (length (intervals st))).
Proof.
  split; [|split].
  - unfold runEvaluation, Js.truthy. intros [-> | ->]; [done|].
    simpl. by rewrite orb_true_r.
  - intros ->. unfold runEvaluation. by destruct (_ || _).
  - intros taskId Hb Hm ->.
    destruct (runEvaluation_arms_timer taskId st Hb Hm) as [Hiv Hrun].
    cbv zeta in Hiv, Hrun. rewrite Hiv, Hrun, !length_app. simpl.
    split; [|lia]. unfold runEvaluation, Js.truthy.
    destruct (selectedBenchmarks st); [done|].
    by destruct (String.eqb_spec (selectedModel st) "").
Qed.

End EvalMore.

(** ** The session: user, header and stored token *)

Section SessionFacts.

Import AuthContext Session.

(** The mount effect and the answer to its request, one after the other,
    are [on_mount]. *)
Lemma mount_then_answer (storage : gmap string string) (me : option User) :
  auth (run storage [MeAnswered me]) = on_mount me (page_load storage).
Proof.
  unfold run, mount, on_mount. simpl.
  destruct (storage !! "token") as [token|]; [|done]. by destruct (Js.truthy token).
Qed.

Lemma run_snoc (storage : gmap string string) (events : list Event) (ev : Event) :
  run storage (events ++ [ev]) = step ev (run storage events).
Proof. unfold run. by rewrite fold_left_app. Qed.

(** A header, when there is one, is the bearer of the stored token. *)
Lemma run_header (storage : gmap string string) (events : list Event) (h : string) :
  axios_common (auth (run storage events)) !! "Authorization" = Some h ->
  exists token, localStorage (auth (run storage events)) !! "token" = Some token /\
                h = bearer token.
Proof.
  revert h. induction events as [|ev events IH] using rev_ind; intros h.
  - unfold run, mount. simpl.
    destruct (storage !! "token") as [token|] eqn:Hstored; [|done].
    destruct (Js.truthy token); [|done]. simpl.
    rewrite lookup_insert_eq. intros [= <-]. by exists token.
  - rewrite run_snoc. destruct ev as [[r|]|[r|]| |me]; simpl; try apply IH.
    + rewrite !lookup_insert_eq. intros [= <-]. by eexists.
    + rewrite !lookup_insert_eq. intros [= <-]. by eexists.
    + by rewrite lookup_delete_eq.
    + destruct (pending (run storage events)); [|apply IH].
      destruct me as [u|]; simpl; [apply IH|]. by rewrite lookup_delete_eq.
Qed.

Lemma late_answer_prefix (events : list Event) (ev : Event) :
  late_answer events -> late_answer (events ++ [ev]).
Proof.
  intros (before & after & u & -> & Hin).
  exists before, (after ++ [ev]), u. split; [|done]. by rewrite <- app_assoc.
Qed.

(** As long as no answer comes late: a user has a header, and so does a
    request that is still unanswered when nobody has logged out. *)
Lemma run_user (storage : gmap string string) (events : list Event) :
  ~ late_answer events ->
  let w := run storage events in
  (is_Some (user (auth w)) -> is_Some (axios_common (auth w) !! "Authorization")) /\
  (~ In Logout events -> pending w = true ->
   is_Some (axios_common (auth w) !! "Authorization")).
Proof.
  cbv zeta. induction events as [|ev events IH] using rev_ind; intros Hlate.
  - unfold run, mount. simpl.
    destruct (storage !! "token") as [token|]; [|split; [by intros [? ?] | done]].
    destruct (Js.truthy token); [|split; [by intros [? ?] | done]]. simpl.
    rewrite lookup_insert_eq. split; [by intros [? ?] | eauto].
  - destruct IH as [Huser Hpending].
    { intros Hl. by apply Hlate, late_answer_prefix. }
    assert (Hout : ~ In Logout (events ++ [ev]) -> ~ In Logout events).
    { intros Hnot Hin. apply Hnot, in_app_iff. by left. }
    rewrite run_snoc. destruct ev as [[r|]|[r|]| |me]; simpl.
    + rewrite !lookup_insert_eq. split; eauto.
    + split; [done | auto].
    + rewrite !lookup_insert_eq. split; eauto.
    + split; [done | auto].
    + split; [by intros [? ?]|]. intros Hnot. exfalso. apply Hnot, in_app_iff.
      right. by left.
    + destruct (pending (run storage events)) eqn:Hp;
        [|split; [done | intros _ Hp'; congruence]].
      destruct me as [u|]; simpl.
      * split; [|done]. intros _. apply Hpending; [|done].
        intros Hin. apply Hlate. by exists events, [], u.
      * split; [by intros [? ?] | done].
Qed.

(** X9: at every point of a session (the mount effect, then logins,
    registrations, logouts and the answer to /api/auth/me, in any order)
    the default Authorization header, when there is one, is the bearer of
    the stored token; and as long as the answer to /api/auth/me does not
    bring a user after a logout, a user present has a stored token and the
    header for it. *)
Theorem session_stays_coherent (storage : gmap string string) (events : list Event) :
  let st := auth (run storage events) in
  (forall h, axios_common st !! "Authorization" = Some h ->
     exists token, localStorage st !! "token" = Some token /\ h = bearer token) /\
  (~ late_answer events ->
   forall u, user st = Some u ->
     exists token, localStorage st !! "token" = Some token /\
                   axios_common st !! "Authorization" = Some (bearer token)).
Proof.
  cbv zeta. split; [apply run_header|].
  intros Hlate u Hu.
  destruct (run_user storage events Hlate) as [Huser _]. cbv zeta in Huser.
  destruct Huser as [h Hh]; [by rewrite Hu|].
  destruct (run_header storage events h Hh) as (token & Hstored & ->).
  by exists token.
Qed.

(** The answer that comes late: the page is reloaded with a stored token,
    the user logs in and out again before /api/auth/me is answered, and the
    answer then sets a user for whom there is neither token nor header. *)
Lemma answer_after_logout :
  let storage : gmap string string := {["token" := "t0k3n"]} in
  let ada := mkUser "ada" "ada@example.org" in
  let st := auth (run storage [Login (Some (mkTokenResponse "n3w" ada)); Logout;
                               MeAnswered (Some ada)]) in
  user st = Some ada /\
  localStorage st !! "token" = None /\
  axios_common st !! "Authorization" = None.
Proof. cbv zeta. repeat split. Qed.

Lemma lands_login (u : option User) (p : string) :
  In p App.protected_paths -> u = None ->
  App.lands App.routes u p "/login" App.Login.
Proof.
  intros Hp ->. simpl in Hp.
  destruct Hp as [<- | [<- | [<- | [<- | []]]]];
    (eapply App.lands_there; [reflexivity|]; by apply App.lands_here).
Qed.

(** X10: a reload loses the page it was on.  With a stored token the
    mount effect sets the header at once, but until /api/auth/me is
    answered there is no user, so a protected location moves to the login
    page; when the answer brings the user, the login page moves on to the
    dashboard, whichever protected page was reloaded; when the token is
    refused, the login page stays and the token is gone.  Right after a
    logout every protected location moves to the login page. *)
Theorem reload_lands_on_dashboard (storage : gmap string string) (token : string)
    (p : string) :
  storage !! "token" = Some token -> token <> "" ->
  In p App.protected_paths ->
  let waiting := auth (run storage []) in
  axios_common waiting !! "Authorization" = Some (bearer token) /\
  App.lands App.routes (user waiting) p "/login" App.Login /\
  (forall u, App.lands App.routes (user (auth (run storage [MeAnswered (Some u)])))
               "/login" "/dashboard" App.Dashboard) /\
  (let refused := auth (run storage [MeAnswered None]) in
   App.lands App.routes (user refused) "/login" "/login" App.Login /\
   localStorage refused !! "token" = None) /\
  (forall events,
     App.lands App.routes (user (auth (run storage (events ++ [Logout])))) p
       "/login" App.Login).
Proof.
  intros Hstored Htoken Hp. cbv zeta.
  assert (Hmount : mount storage
                   = mkWorld (mkState storage (<["Authorization" := bearer token]> ∅) None true)
                             true).
  { unfold mount, page_load. simpl. rewrite Hstored.
    unfold Js.truthy. by destruct (String.eqb_spec token ""). }
  unfold run. simpl. rewrite Hmount. simpl.
  split; [apply lookup_insert_eq|]. split; [by apply lands_login|].
  split; [|split; [split|]].
  - intros u. eapply App.lands_there; [reflexivity|]. by apply App.lands_here.
  - by apply App.lands_here.
  - apply lookup_delete_eq.
  - intros events. apply lands_login; [done|].
    rewrite fold_left_app. done.
Qed.

(** The example: the chat page is reloaded with a stored token. *)
Lemma reload_lands_on_dashboard_witness :
  let storage : gmap string string := {["token" := "t0k3n"]} in
  let ada := mkUser "ada" "ada@example.org" in
  App.lands App.routes (user (auth (run storage []))) "/chat" "/login" App.Login /\
  App.lands App.routes (user (auth (run storage [MeAnswered (Some ada)])))
    "/login" "/dashboard" App.Dashboard.
Proof.
  cbv zeta.
  pose proof (reload_lands_on_dashboard {["token" := "t0k3n"]} "t0k3n" "/chat") as H.
  cbv zeta in H. destruct H as (_ & Hlogin & Hdash & _).
  - reflexivity.
  - discriminate.
  - simpl. tauto.
  - split; [exact Hlogin | apply Hdash].
Defined.

End SessionFacts.

(** ** The registration form *)

Section RegisterForm.

Import Register.

Lemma truthy_or_else (a : string) {b : string} : a <> "" -> Js.or_else a b = a.
Proof.
  intros Ha. unfold Js.or_else, Js.truthy. by destruct (String.eqb_spec a "").
Qed.

(** X11: the registration form sends nothing when the two passwords
    differ and says so; a rejected registration leaves the session as it
    was and shows the server's reason, or a fixed text when there is none;
    an accepted one stores the token, goes to the dashboard, and the
    dashboard route then shows the dashboard.  In no case does the form
    stay in its loading state. *)
Theorem handleSubmit_outcomes (resp : option string + AuthContext.TokenResponse)
    (auth : AuthContext.State) (st : State) :
  let form := fst (fst (handleSubmit resp auth st)) in
  let auth' := snd (fst (handleSubmit resp auth st)) in
  let target := snd (handleSubmit resp auth st) in
  (password st <> confirmPassword st ->
   auth' = auth /\ target = None /\ error form = "Passwords do not match" /\
   loading form = loading st) /\
  (password st = confirmPassword st ->
   (forall detail, resp = inl detail ->
      auth' = auth /\ target = None /\ error form <> "" /\ loading form = false /\
      (forall reason, detail = Some reason -> reason <> "" -> error form = reason)) /\
   (forall r, resp = inr r ->
      target = Some "/dashboard" /\ error form = "" /\ loading form = false /\
      AuthContext.localStorage auth' !! "token" = Some (AuthContext.access_token r) /\
      App.render App.routes "/dashboard" (AuthContext.user auth')
      = Some (App.Content App.Dashboard))).
Proof.
  cbv zeta. unfold handleSubmit. split.
  - intros Hne. apply String.eqb_neq in Hne. by rewrite Hne.
  - intros Heq. rewrite Heq, String.eqb_refl. simpl. split.
    + intros detail ->. simpl. split; [done|]. split; [done|]. split; [|split; [done|]].
      * unfold Js.or_else, Js.truthy.
        by destruct (String.eqb_spec (default "" detail) "").
      * intros reason -> Hreason. simpl. by rewrite (truthy_or_else reason Hreason).
    + intros r ->. simpl. split; [done|]. split; [done|]. split; [done|].
      split; [apply lookup_insert_eq | done].
Qed.

End RegisterForm.

(** ** The dashboard's projects and notebooks *)

Section DashboardLoad.

Import Dashboard.

Lemma collect_all (answers : Z -> option (list Notebook)) (ps : list Project)
    (acc : gmap Z (list Notebook)) :
  Forall (fun p => is_Some (answers (project_id p))) ps ->
  exists m,
    collect answers ps acc = (Some m, map (fun p => HttpGet (notebooks_url p)) ps) /\
    forall k, m !! k = if decide (k ∈ map project_id ps) then answers k else acc !! k.
Proof.
  intros Hall. revert acc. induction Hall as [|p ps [listed Hp] _ IH]; intros acc.
  - exists acc. split; [done|]. intros k. simpl.
    by destruct (decide (k ∈ [])) as [Hin%elem_of_nil|].
  - destruct (IH (<[project_id p := listed]> acc)) as (m & Hcollect & Hm).
    exists m. simpl. rewrite Hp, Hcollect. split; [done|].
    intros k. rewrite Hm.
    destruct (decide (k ∈ map project_id ps)) as [Hin|Hnotin];
      destruct (decide (k ∈ project_id p :: map project_id ps)) as [Hin'|Hnotin'].
    + done.
    + exfalso. apply Hnotin', elem_of_cons. by right.
    + apply elem_of_cons in Hin' as [->|Hin']; [|done].
      by rewrite lookup_insert_eq.
    + rewrite lookup_insert_ne; [done|].
      intros <-. apply Hnotin', elem_of_cons. by left.
Qed.

(** The loop stops at the first project whose request is rejected. *)
Lemma collect_rejected_at (answers : Z -> option (list Notebook))
    (before after : list Project) (p : Project) (acc : gmap Z (list Notebook)) :
  Forall (fun q => is_Some (answers (project_id q))) before ->
  answers (project_id p) = None ->
  collect answers (before ++ p :: after) acc
  = (None, map (fun q => HttpGet (notebooks_url q)) (before ++ [p])).
Proof.
  intros Hall Hp. revert acc. induction Hall as [|q before [listed Hq] _ IH]; intros acc; simpl.
  - by rewrite Hp.
  - by rewrite Hq, IH.
Qed.

(** X12: the dashboard shows the notebooks of all projects or of none:
    when every request for a project's notebooks is answered, each project
    gets the notebooks the server listed for it; when one is rejected, the
    projects are shown but the notebooks kept are the ones from before (none
    on a fresh page, so every project counts 0 notebooks), the requests made
    are those for the projects up to and including the first rejected one,
    and none is made for the projects after it.  Either way the page leaves
    its loading state. *)
Theorem loadProjects_all_or_nothing (listed : list Project)
    (answers : Z -> option (list Notebook)) (st : State) :
  let st' := fst (loadProjects (Some listed) answers st) in
  let gets := snd (loadProjects (Some listed) answers st) in
  projects st' = listed /\ loading st' = false /\
  (Forall (fun p => is_Some (answers (project_id p))) listed ->
   (forall p, In p listed -> notebooks st' !! project_id p = answers (project_id p)) /\
   gets = HttpGet "/api/projects/" :: map (fun p => HttpGet (notebooks_url p)) listed) /\
  (forall before rejected after,
     listed = before ++ rejected :: after ->
     Forall (fun p => is_Some (answers (project_id p))) before ->
     answers (project_id rejected) = None ->
     notebooks st' = notebooks st /\
     (notebooks st = ∅ -> forall p, notebook_count st' p = 0%nat) /\
     gets = HttpGet "/api/projects/"
            :: map (fun p => HttpGet (notebooks_url p)) (before ++ [rejected])
            ++ [ConsoleError "Failed to load projects:"]).
Proof.
  cbv zeta. unfold loadProjects. split; [|split; [|split]].
  - by destruct (collect answers listed ∅) as [[m|] gets].
  - by destruct (collect answers listed ∅) as [[m|] gets].
  - intros Hall. destruct (collect_all answers listed ∅ Hall) as (m & -> & Hm).
    simpl. split; [|done].
    intros p Hp. rewrite Hm. rewrite decide_True; [done|].
    apply list_elem_of_In, in_map. exact Hp.
  - intros before rejected after -> Hall Hrejected.
    rewrite (collect_rejected_at answers before after rejected ∅ Hall Hrejected). simpl.
    split; [done|]. split; [|done].
    intros Hempty p. unfold notebook_count. simpl. by rewrite Hempty, lookup_empty.
Qed.

(** A rejected request for the projects changes nothing but the loading
    state. *)
Lemma loadProjects_rejected (answers : Z -> option (list Notebook)) (st : State) :
  fst (loadProjects None answers st) = setLoading false st.
Proof. reflexivity. Qed.

End DashboardLoad.

(** ** The line buffer of the chat page *)

Section LineBuffer.

Import Stream Lines.

Lemma buffer_split (s : string) :
  Buffering.unsplit (complete s) +:+ pending s = s /\
  Forall (fun line => free_of Js.LF line = true) (complete s).
Proof.
  unfold Buffering.unsplit.
  induction s as [|c s [IHs IHf]]; [by split|].
  unfold complete, pending in *. destruct (Ascii.eqb c Js.LF) eqn:Hc.
  - apply Ascii.eqb_eq in Hc as ->. rewrite pop_split_LF. simpl.
    fold (complete s) (pending s). unfold complete, pending.
    split; [|by constructor].
    change (Buffering.with_LF "" +:+ ?x) with (String Js.LF x).
    rewrite str_app_cons. f_equal. exact IHs.
  - rewrite (pop_split_other c) by done.
    destruct (pop (Js.split Js.LF s)) as [[|line lines] piece]; simpl in *.
    + split; [by rewrite <- IHs | done].
    + split.
      * unfold Buffering.with_LF in *. rewrite !str_app_cons. f_equal. exact IHs.
      * apply Forall_cons in IHf as [Hline Hlines]. constructor; [|done].
        simpl. by rewrite Hc, Hline.
Qed.

(** X13: the chat page's line buffer loses and repeats nothing: when a
    chunk arrives, the lines handed to the line loop, each with its line
    feed, followed by the text kept for the next chunk, are exactly the
    text kept before followed by the chunk; the lines hold no line feed and
    neither does the text kept. *)
Theorem line_buffer_keeps_text (buffer value : string) :
  let lines := fst (pop (Js.split Js.LF (buffer +:+ value))) in
  let kept := Js.or_else (snd (pop (Js.split Js.LF (buffer +:+ value)))) "" in
  Buffering.unsplit lines +:+ kept = buffer +:+ value /\
  Forall (fun line => free_of Js.LF line = true) lines /\
  free_of Js.LF kept = true.
Proof.
  cbv zeta. rewrite or_else_empty.
  destruct (buffer_split (buffer +:+ value)) as [Htext Hlines].
  split; [exact Htext|]. split; [exact Hlines|]. apply pending_free.
Qed.

End LineBuffer.

(** ** More on the chat page's stream *)

Section ChatStream.

Import Stream Lines.

Variable parse : string -> option ChatPage.Chunk.

Lemma read_loop_single (value : string) (st : ChatPage.State) :
  ChatPage.read_loop parse "" [value] st = ChatPage.for_lines parse (complete value) st.
Proof.
  cbn [ChatPage.read_loop]. change ("" +:+ value) with value.
  by rewrite pop_split_pair.
Qed.

Lemma chat_try_block_chunking (status : N) (ending : End) (chunks1 chunks2 : list string)
    (st : ChatPage.State) :
  joined chunks1 = joined chunks2 ->
  quiet_after_leave (map (kind parse) (complete (joined chunks1))) = true ->
  ChatPage.try_block parse (Answered status chunks1 ending) st
  = ChatPage.try_block parse (Answered status chunks2 ending) st.
Proof.
  intros Hsame Hquiet. unfold ChatPage.try_block.
  destruct (ok status); [|done].
  rewrite !read_loop_whole; try done.
  - by rewrite Hsame.
  - change ("" +:+ joined chunks2) with (joined chunks2). by rewrite <- Hsame.
Qed.

(** X14: how the network cuts a response body into chunks does not
    matter to the chat page: two ways of cutting the same body leave
    [sendMessage] in the same state, as long as nothing but lines the loop
    passes over follows the first sentinel or error frame of the body. *)
Theorem chat_chunking_irrelevant (auth : AuthContext.State) (status : N) (ending : End)
    (chunks1 chunks2 : list string) (st : ChatPage.State) :
  joined chunks1 = joined chunks2 ->
  quiet_after_leave (map (kind parse) (complete (joined chunks1))) = true ->
  ChatPage.sendMessage parse auth (Answered status chunks1 ending) st
  = ChatPage.sendMessage parse auth (Answered status chunks2 ending) st.
Proof.
  intros Hsame Hquiet. unfold ChatPage.sendMessage.
  destruct (_ || _); [done|]. cbv zeta.
  by rewrite (chat_try_block_chunking status ending chunks1 chunks2 _ Hsame Hquiet).
Qed.

End ChatStream.

(** The example: the body of the deltas [Hel], [lo] and [ world] in one
    piece, and cut every 7 characters. *)
Lemma chat_chunking_irrelevant_witness :
  let body := Lines.sse_body Frames.delta ["Hel"; "lo"; " world"] in
  let st := ChatPage.mkState [] "Say hello" false false in
  ChatPage.sendMessage Frames.parse_chunk (AuthContext.page_load ∅)
    (Stream.Answered 200 [body] Stream.Closed) st
  = ChatPage.sendMessage Frames.parse_chunk (AuthContext.page_load ∅)
      (Stream.Answered 200 (Lines.cut 40 6 body) Stream.Closed) st.
Proof.
  cbv zeta. apply chat_chunking_irrelevant; reflexivity.
Defined.

Section ChatSentinel.

Import Stream Lines.

Variable parse : string -> option ChatPage.Chunk.
Variable enc : string -> string.

(** X15: the end-of-stream sentinel ends only the lines of its own
    chunk: a delta that follows it in the same chunk is dropped, and a
    delta that arrives in a later chunk is still appended to the reply. *)
Theorem delta_after_sentinel (text : string) (pre : list Message) (m : Message)
    (st : ChatPage.State) :
  written_and_read parse enc text -> text <> "" ->
  ChatPage.messages st = pre ++ [m] ->
  ChatPage.messages
    (ChatPage.read_loop parse "" [Frames.event "[DONE]" +:+ Frames.event (enc text)] st)
  = pre ++ [m] /\
  ChatPage.messages
    (ChatPage.read_loop parse "" [Frames.event "[DONE]"; Frames.event (enc text)] st)
  = pre ++ [ChatPage.append_content text m].
Proof.
  intros Htext Hne Hst.
  assert (Hfree : free_of Js.LF (enc text) = true) by apply Htext.
  assert (Hdelta : complete (Frames.event (enc text)) = [data_line (enc text); ""]
                   /\ pending (Frames.event (enc text)) = "").
  { rewrite <- (str_app_nil_r (Frames.event (enc text))).
    by destruct (complete_event (enc text) "" Hfree) as [-> ->]. }
  assert (Hdone : complete (Frames.event "[DONE]") = [data_line "[DONE]"; ""]
                  /\ pending (Frames.event "[DONE]") = "") by (split; reflexivity).
  split.
  - rewrite read_loop_single.
    destruct (complete_event "[DONE]" (Frames.event (enc text)) eq_refl) as [-> _].
    rewrite for_lines_cons, kind_sentinel. exact Hst.
  - cbn [ChatPage.read_loop]. change ("" +:+ ?v) with v.
    rewrite pop_split_pair, or_else_empty.
    destruct Hdone as [-> ->]. change ("" +:+ ?v) with v.
    rewrite pop_split_pair. destruct Hdelta as [-> _].
    rewrite (for_lines_cons parse (data_line "[DONE]")), kind_sentinel.
    rewrite for_lines_cons, (kind_data_line parse enc text Htext).
    rewrite (truthy_true _ Hne).
    rewrite for_lines_cons, kind_empty_line. simpl.
    rewrite Hst. apply update_last_snoc.
Qed.

End ChatSentinel.

(** The example: the delta [!] after the sentinel. *)
Lemma delta_after_sentinel_witness :
  let st := ChatPage.mkState [Stream.mkMessage "user" "hi"; Stream.mkMessage "assistant" "Hello"]
              "" true true in
  ChatPage.messages
    (ChatPage.read_loop Frames.parse_chunk ""
       [Frames.event "[DONE]" +:+ Frames.event (Frames.delta "!")] st)
  = [Stream.mkMessage "user" "hi"; Stream.mkMessage "assistant" "Hello"] /\
  ChatPage.messages
    (ChatPage.read_loop Frames.parse_chunk ""
       [Frames.event "[DONE]"; Frames.event (Frames.delta "!")] st)
  = [Stream.mkMessage "user" "hi"; Stream.mkMessage "assistant" "Hello!"].
Proof.
  cbv zeta.
  refine (delta_after_sentinel Frames.parse_chunk Frames.delta "!"
            [Stream.mkMessage "user" "hi"] (Stream.mkMessage "assistant" "Hello") _ _ _ _).
  - repeat split. intros Heq. vm_compute in Heq. discriminate Heq.
  - discriminate.
  - reflexivity.
Defined.

(** ** Several turns in a row *)

Section Turns.

Import Stream Lines Conversation.

(** [trim] gives the empty string exactly for blank text. *)
Lemma truthy_trim (s : string) : Js.truthy (Js.trim s) = negb (blank s).
Proof. unfold blank. by rewrite negb_involutive. Qed.

Lemma exchange_snoc (qs answers : list string) (q a : string) :
  length qs = length answers ->
  exchange (qs ++ [q]) (answers ++ [a])
  = exchange qs answers ++ [mkMessage "user" q; mkMessage "assistant" a].
Proof.
  intros Hlen. unfold exchange. rewrite zip_with_app by done.
  rewrite flat_map_app. simpl. done.
Qed.

Lemma turns_exchange parse auth (script : list (string * Reply)) (st : ChatPage.State)
    (qs answers : list string) :
  length qs = length answers ->
  ChatPage.messages st = exchange qs answers ->
  ChatPage.isGenerating st = false ->
  exists more,
    length more = length (questions script) /\
    ChatPage.messages (turns parse auth script st)
    = exchange (qs ++ questions script) (answers ++ more) /\
    ChatPage.isGenerating (turns parse auth script st) = false.
Proof.
  revert st qs answers.
  induction script as [|[text reply] script IH]; intros st qs answers Hlen Hst Hgen.
  - exists []. simpl. by rewrite !app_nil_r.
  - cbn [turns]. unfold questions. cbn [map fst List.filter].
    destruct (blank text) eqn:Hblank; cbn [negb].
    + assert (Hskip : ChatPage.sendMessage parse auth reply (ChatPage.setInput text st)
                      = (ChatPage.setInput text st, None)).
      { unfold ChatPage.sendMessage. rewrite truthy_trim. simpl. by rewrite Hblank. }
      rewrite Hskip. simpl fst.
      apply (IH (ChatPage.setInput text st) qs answers); done.
    + assert (Htext : Js.trim (ChatPage.input (ChatPage.setInput text st)) <> "").
      { simpl. intros Heq. pose proof (truthy_trim text) as Ht.
        unfold Js.truthy in Ht. rewrite Heq, Hblank in Ht. discriminate Ht. }
      destruct (sendMessage_request parse auth reply (ChatPage.setInput text st) Htext Hgen)
        as (_ & Hgen' & [a Ha]).
      simpl in Ha. rewrite Hst in Ha.
      destruct (IH (fst (ChatPage.sendMessage parse auth reply (ChatPage.setInput text st)))
                  (qs ++ [Js.trim text]) (answers ++ [a])) as (more & Hmore & Hmsgs & Hg).
      * rewrite !length_app. simpl. lia.
      * rewrite Ha, exchange_snoc by done. by rewrite <- app_assoc.
      * exact Hgen'.
      * exists (a :: more). cbn [map length]. split; [by rewrite Hmore|].
        split; [|exact Hg]. rewrite Hmsgs. by rewrite <- !app_assoc.
Qed.

(** X17: whatever the service answers, and however its streams end, a
    conversation on the chat page is a strict alternation of user and
    assistant messages: after a cleared chat and any number of turns, the
    list holds, for every text sent that was not blank, the trimmed text as
    a user message followed by one assistant message, in the order they
    were sent, and nothing else. *)
Theorem conversation_alternates parse auth (script : list (string * Reply))
    (st : ChatPage.State) :
  ChatPage.isGenerating st = false ->
  exists answers,
    length answers = length (questions script) /\
    ChatPage.messages (turns parse auth script (ChatPage.clearChat st))
    = exchange (questions script) answers.
Proof.
  intros Hgen.
  destruct (turns_exchange parse auth script (ChatPage.clearChat st) [] []) as (more & H1 & H2 & _);
    [done | done | exact Hgen |].
  by exists more.
Qed.

(** The example: a question answered, a blank input, a question whose
    request is rejected. *)
Lemma conversation_alternates_witness :
  exists answers,
    length answers = 2%nat /\
    ChatPage.messages
      (turns Frames.parse_chunk (AuthContext.page_load ∅)
         [("Say hello", Answered 200 [Sse.hello] Closed);
          ("   ", Answered 200 [] Closed);
          (" And again ", Rejected (Js.mkError "TypeError" "network error"))]
         (ChatPage.clearChat (ChatPage.mkState [] "" false false)))
    = exchange ["Say hello"; "And again"] answers.
Proof.
  apply (conversation_alternates Frames.parse_chunk (AuthContext.page_load ∅)
           [("Say hello", Answered 200 [Sse.hello] Closed);
            ("   ", Answered 200 [] Closed);
            (" And again ", Rejected (Js.mkError "TypeError" "network error"))]
           (ChatPage.mkState [] "" false false)).
  reflexivity.
Defined.

End Turns.

(** ** A generation that is stopped *)

Section Stopped.

Import Stream Lines.

Variable parse : string -> option ChatPage.Chunk.
Variable enc : string -> string.

(** The lines of the events of some deltas, with no sentinel after them. *)
Lemma complete_events (texts : list string) (rest : string) :
  Forall (written_and_read parse enc) texts ->
  free_of Js.LF rest = true ->
  complete (joined (map (fun text => Frames.event (enc text)) texts) +:+ rest)
  = flat_map (fun text => [data_line (enc text); ""]) texts.
Proof.
  intros Hall Hrest. induction Hall as [|text texts (_ & Hfree & _) _ IH].
  - change (joined (map _ []) +:+ rest) with rest. by destruct (free_of_split rest Hrest).
  - cbn [map joined fold_right flat_map]. fold (joined (map (fun t => Frames.event (enc t)) texts)).
    rewrite str_app_assoc.
    destruct (complete_event (enc text)
                (joined (map (fun t => Frames.event (enc t)) texts) +:+ rest) Hfree) as [-> _].
    by rewrite IH.
Qed.

Lemma deltas_quiet (texts : list string) :
  Forall (written_and_read parse enc) texts ->
  quiet_after_leave
    (map (kind parse) (flat_map (fun text => [data_line (enc text); ""]) texts)) = true.
Proof.
  induction 1 as [|text texts Htext _ IH]; [done|].
  cbn [flat_map app map quiet_after_leave].
  rewrite (kind_data_line parse enc text Htext), kind_empty_line.
  by destruct (Js.truthy text).
Qed.

Lemma for_lines_deltas (texts : list string) (pre : list Message) (role0 text0 : string)
    (st : ChatPage.State) :
  Forall (written_and_read parse enc) texts ->
  ChatPage.messages st = pre ++ [mkMessage role0 text0] ->
  ChatPage.for_lines parse (flat_map (fun text => [data_line (enc text); ""]) texts) st
  = ChatPage.setMessages (pre ++ [mkMessage role0 (text0 +:+ concat_texts texts)]) st.
Proof.
  unfold concat_texts. intros Hall. revert text0 st.
  induction Hall as [|text texts Htext _ IH]; intros text0 st Hst.
  - cbn [flat_map joined fold_right ChatPage.for_lines]. rewrite str_app_nil_r, <- Hst.
    by destruct st.
  - cbn [flat_map app joined fold_right]. fold (joined texts).
    rewrite for_lines_cons, (kind_data_line parse enc text Htext).
    unfold Js.truthy. destruct (String.eqb_spec text "") as [->|Hne]; cbn [negb].
    + rewrite for_lines_cons, kind_empty_line. by apply IH.
    + rewrite for_lines_cons, kind_empty_line. rewrite <- str_app_assoc.
      erewrite IH; [done|]. simpl. rewrite Hst. apply update_last_snoc.
Qed.

(** X18: when the user stops a generation, the chat page keeps what has
    arrived: the reply shows the deltas received in full up to then, one
    after the other, however they were cut into chunks; a frame that was
    cut off by the stop is dropped, and no failure notice is written. *)
Theorem stopped_generation_keeps_text (texts chunks : list string) (cut_off : string)
    (status : N) (e : Js.Error) (auth : AuthContext.State) (st : ChatPage.State) :
  Forall (written_and_read parse enc) texts ->
  free_of Js.LF cut_off = true ->
  joined chunks = joined (map (fun text => Frames.event (enc text)) texts) +:+ cut_off ->
  ok status = true ->
  Js.isAbortError e = true ->
  Js.trim (ChatPage.input st) <> "" -> ChatPage.isGenerating st = false ->
  let stopped := fst (ChatPage.sendMessage parse auth (Answered status chunks (Broken e)) st) in
  ChatPage.messages stopped
  = ChatPage.messages st ++ [mkMessage "user" (Js.trim (ChatPage.input st));
                              mkMessage "assistant" (concat_texts texts)] /\
  ChatPage.isGenerating stopped = false.
Proof.
  intros Hall Hcut Hbody Hok Habort Hinput Hgen. cbv zeta.
  rewrite (sendMessage_eq _ _ _ _ Hinput Hgen). cbv zeta.
  unfold ChatPage.try_block. rewrite Hok. simpl.
  unfold ChatPage.catch_block. rewrite Habort. split; [|done].
  rewrite read_loop_whole; [|done|].
  - change ("" +:+ joined chunks) with (joined chunks).
    rewrite Hbody, (complete_events texts cut_off Hall Hcut).
    erewrite for_lines_deltas; [|done|reflexivity]. simpl. by rewrite <- app_assoc.
  - change ("" +:+ joined chunks) with (joined chunks).
    rewrite Hbody, (complete_events texts cut_off Hall Hcut). by apply deltas_quiet.
Qed.

End Stopped.

(** The example: [Hel] and [lo] have arrived and the next event is cut
    off in its middle when the user presses stop. *)
Lemma stopped_generation_keeps_text_witness :
  let cut_off := String.substring 0 30 (Frames.event (Frames.delta " world")) in
  let body := Lines.joined (map (fun text => Frames.event (Frames.delta text)) ["Hel"; "lo"])
              +:+ cut_off in
  ChatPage.messages
    (fst (ChatPage.sendMessage Frames.parse_chunk (AuthContext.page_load ∅)
            (Stream.Answered 200 (Lines.cut 40 10 body)
               (Stream.Broken (Js.mkError "AbortError" "The user aborted a request.")))
            (ChatPage.mkState [] "Say hello" false false)))
  = [Stream.mkMessage "user" "Say hello"; Stream.mkMessage "assistant" "Hello"].
Proof.
  cbv zeta.
  refine (proj1 (stopped_generation_keeps_text Frames.parse_chunk Frames.delta ["Hel"; "lo"]
                   _ (String.substring 0 30 (Frames.event (Frames.delta " world")))
                   200 _ (AuthContext.page_load ∅)
                   (ChatPage.mkState [] "Say hello" false false) _ _ _ _ _ _ _)).
  - repeat constructor; intros Heq; vm_compute in Heq; discriminate Heq.
  - reflexivity.
  - reflexivity.
  - reflexivity.
  - reflexivity.
  - discriminate.
  - reflexivity.
Defined.

(** ** More on the inference page *)

Section InferenceMore.

Import Stream Lines InferencePage.

(** X19: [loadModels] always ends the loading state and touches no
    message; it leaves its error empty exactly when the server listed at
    least one model, and then the model it selects is one of those listed;
    in every other case it sets an error and keeps the models and the
    selection it had. *)
Theorem loadModels_outcomes (reply : ModelsReply) (st : State) :
  let st' := loadModels reply st in
  loading st' = false /\
  messages st' = messages st /\
  (error st' = "" <-> exists first others, reply = ModelsResolved (Some (first :: others))) /\
  (error st' = "" -> In (selectedModel st') (map path (models st'))) /\
  (error st' <> "" -> models st' = models st /\ selectedModel st' = selectedModel st).
Proof.
  cbv zeta. unfold loadModels.
  destruct reply as [detail | [[|first others]|]]; simpl.
  - split; [done|]. split; [done|].
    assert (Herr : Js.or_else (default "" detail) "Failed to load models" <> "").
    { unfold Js.or_else, Js.truthy. by destruct (String.eqb_spec (default "" detail) ""). }
    split; [|split]; [|done|done].
    split; [done | intros (? & ? & ?); discriminate].
  - split; [done|]. split; [done|]. split; [|split]; [|done|done].
    split; [discriminate | intros (? & ? & ?); discriminate].
  - destruct (is_sft first) eqn:Hfirst.
    + split; [done|]. split; [done|]. split; [|split]; [|intros _|done].
      * split; [eauto | done].
      * simpl.
        pose proof (reduce_later_max (List.filter is_sft others) first) as [Hin _].
        simpl in Hin. destruct Hin as [<-|Hin]; [by left|].
        apply filter_In in Hin as [Hin _]. right. by apply in_map.
    + destruct (List.filter is_sft others) as [|sft sfts] eqn:Hfilter.
      * split; [done|]. split; [done|]. split; [|split]; [|intros _; by left|done].
        split; [eauto | done].
      * split; [done|]. split; [done|]. split; [|split]; [|intros _|done].
        -- split; [eauto | done].
        -- simpl. pose proof (reduce_later_max sfts sft) as [Hin _].
           rewrite <- Hfilter in Hin. right.
           apply filter_In in Hin as [Hin _]. by apply in_map.
  - split; [done|]. split; [done|]. split; [|split]; [|done|done].
    split; [discriminate | intros (? & ? & ?); discriminate].
Qed.

Variable parse : string -> option Frame.

Lemma free_of_app (a b : string) :
  free_of Js.LF (a +:+ b) = free_of Js.LF a && free_of Js.LF b.
Proof.
  induction a as [|c a IH]; [done|]. rewrite str_app_cons. simpl.
  by rewrite IH, andb_assoc.
Qed.

Lemma split_free (s : string) : free_of Js.LF s = true -> Js.split Js.LF s = [s].
Proof.
  intros Hfree. rewrite split_complete_pending.
  by destruct (free_of_split s Hfree) as [-> ->].
Qed.

Lemma split_line_end (line : string) :
  free_of Js.LF line = true ->
  Js.split Js.LF (line +:+ String Js.LF (String Js.LF "")) = [line; ""; ""].
Proof.
  intros Hfree. rewrite split_complete_pending.
  destruct (complete_line line (String Js.LF "") Hfree) as [-> ->].
  unfold complete, pending. by rewrite pop_split_LF.
Qed.

(** X20: the inference page keeps no text from one chunk to the next, so
    a token frame that the network cuts in two is lost: its first part does
    not parse and its second part is no data line, whereas the same frame in
    one chunk adds its token to the reply. *)
Theorem token_cut_in_two_is_lost (newMessages : list Message) (part1 part2 token text : string)
    (st : State) :
  free_of Js.LF part1 = true -> free_of Js.LF part2 = true ->
  parse part1 = None ->
  Js.startsWith part2 "data: " = false ->
  parse (part1 +:+ part2) = Some (mkFrame None false (Some token)) ->
  token <> "" ->
  read_loop parse newMessages
    [data_line part1; part2 +:+ String Js.LF (String Js.LF "")]
    text (showing newMessages text st)
  = Done text (showing newMessages text st) /\
  read_loop parse newMessages
    [Frames.event (part1 +:+ part2)]
    text (showing newMessages text st)
  = Done (text +:+ token) (showing newMessages (text +:+ token) st).
Proof.
  intros Hfree1 Hfree2 Hparse1 Hstart2 Hparse Htoken. split.
  - cbn [read_loop].
    rewrite (split_free (data_line part1)) by exact Hfree1.
    cbn [for_lines]. rewrite startsWith_data_line.
    change (Js.slice 6 (data_line part1)) with part1. rewrite Hparse1.
    rewrite (split_line_end part2 Hfree2). cbn [for_lines]. rewrite Hstart2.
    change (Js.startsWith "" "data: ") with false. done.
  - cbn [read_loop].
    assert (Hfree : free_of Js.LF (part1 +:+ part2) = true).
    { by rewrite free_of_app, Hfree1, Hfree2. }
    rewrite (split_event _ Hfree).
    rewrite (inference_for_lines_token parse (fun _ => part1 +:+ part2) newMessages token text st);
      [done|]. by split.
Qed.

Variable enc : string -> string.

Lemma inference_read_loop_token_events newMessages (tokens : list string) (text : string)
    (st : State) :
  Forall (token_written_and_read parse enc) tokens ->
  read_loop parse newMessages (map (fun token => Frames.event (enc token)) tokens)
    text (showing newMessages text st)
  = Done (text +:+ joined tokens) (showing newMessages (text +:+ joined tokens) st).
Proof.
  intros Hall. revert text.
  induction Hall as [|token tokens Htoken _ IH]; intros text.
  - cbn [map read_loop joined fold_right]. by rewrite str_app_nil_r.
  - cbn [map read_loop joined fold_right]. fold (joined tokens).
    rewrite (split_event _ (proj2 Htoken)).
    rewrite (inference_for_lines_token _ _ _ _ _ _ Htoken).
    rewrite IH. by rewrite str_app_assoc.
Qed.

(** X21: when the user stops a generation on the inference page, the
    tokens that have arrived stay shown as the reply, no error is set and
    the generating flag is lowered. *)
Theorem stopped_inference_keeps_tokens (tokens : list string) (status : N) (e : Js.Error)
    (st : State) :
  Forall (token_written_and_read parse enc) tokens ->
  ok status = true ->
  Js.isAbortError e = true ->
  Js.trim (inputText st) <> "" -> selectedModel st <> "" -> isGenerating st = false ->
  let chunks := map (fun token => Frames.event (enc token)) tokens in
  let stopped := fst (handleSendMessage parse (Answered status chunks (Broken e)) st) in
  messages stopped
  = messages st ++ [mkMessage "user" (Js.trim (inputText st));
                    mkMessage "assistant" (joined tokens)] /\
  error stopped = error st /\
  isGenerating stopped = false.
Proof.
  intros Hall Hok Habort Hinput Hmodel Hgen. cbv zeta.
  rewrite (handleSendMessage_eq _ _ _ Hinput Hmodel Hgen). cbv zeta.
  unfold try_block. rewrite Hok.
  match goal with |- context [read_loop parse ?nm _ "" ?s] =>
    change s with (showing nm "" s);
    rewrite (inference_read_loop_token_events nm tokens "" s Hall)
  end.
  simpl. unfold catch_block. rewrite Habort. simpl.
  split; [|done]. by rewrite <- app_assoc.
Qed.

End InferenceMore.

(** The example: a token frame cut after 12 characters of its payload. *)
Lemma token_cut_in_two_is_lost_witness :
  let part1 := String.substring 0 12 (Frames.token_frame "Hello") in
  let part2 := String.substring 12 5 (Frames.token_frame "Hello") in
  let st := Lines.showing [Stream.mkMessage "user" "hi"] "" InferencePage.initial in
  InferencePage.read_loop Frames.parse_frame [Stream.mkMessage "user" "hi"]
    [Lines.data_line part1; part2 +:+ String Js.LF (String Js.LF "")] "" st
  = InferencePage.Done "" st /\
  InferencePage.read_loop Frames.parse_frame [Stream.mkMessage "user" "hi"]
    [Frames.event (part1 +:+ part2)] "" st
  = InferencePage.Done "Hello"
      (Lines.showing [Stream.mkMessage "user" "hi"] "Hello" InferencePage.initial).
Proof.
  cbv zeta.
  refine (token_cut_in_two_is_lost Frames.parse_frame [Stream.mkMessage "user" "hi"]
            (String.substring 0 12 (Frames.token_frame "Hello"))
            (String.substring 12 5 (Frames.token_frame "Hello")) "Hello" ""
            InferencePage.initial _ _ _ _ _ _); try reflexivity.
  discriminate.
Defined.

(** The example: two tokens have arrived when the user presses stop. *)
Lemma stopped_inference_keeps_tokens_witness :
  let st := InferencePage.setInputText "Say hello"
              (InferencePage.setSelectedModel "sft/d12/model_002000.pt" InferencePage.initial) in
  InferencePage.messages
    (fst (InferencePage.handleSendMessage Frames.parse_frame
            (Stream.Answered 200
               (map (fun token => Frames.event (Frames.token_frame token)) ["Hel"; "lo"])
               (Stream.Broken (Js.mkError "AbortError" "The user aborted a request.")))
            st))
  = [Stream.mkMessage "user" "Say hello"; Stream.mkMessage "assistant" "Hello"].
Proof.
  cbv zeta.
  refine (proj1 (stopped_inference_keeps_tokens Frames.parse_frame Frames.token_frame
                   ["Hel"; "lo"] 200 _ _ _ _ _ _ _ _)); try reflexivity; try discriminate.
  repeat constructor.
Defined.

(** ** The code cell *)

Section CodeCellRuns.

Import Stream Lines CodeCell.

Variable parse : string -> option Frame.

(** The line loop keeps the shown output equal to its local [fullOutput]. *)
Lemma for_lines_output (lines : list string) (fullOutput : string) (st : State) :
  output st = fullOutput ->
  output (for_lines parse lines fullOutput st).2 = (for_lines parse lines fullOutput st).1 /\
  running (for_lines parse lines fullOutput st).2 = running st /\
  editMode (for_lines parse lines fullOutput st).2 = editMode st.
Proof.
  revert fullOutput st.
  induction lines as [|line rest IH]; intros fullOutput st Hout; [done|].
  cbn [for_lines]. destruct (Js.startsWith line "data: "); [|by apply IH].
  destruct (parse (Js.slice 6 line)) as [data|]; [|by apply IH].
  destruct (frame_output data) as [text|]; [|by apply IH].
  cbv zeta. by apply (IH (fullOutput +:+ text) (setOutput (fullOutput +:+ text) st)).
Qed.

Lemma read_loop_output (chunks : list string) (fullOutput : string) (st : State) :
  output st = fullOutput ->
  output (read_loop parse chunks fullOutput st).2 = (read_loop parse chunks fullOutput st).1 /\
  running (read_loop parse chunks fullOutput st).2 = running st /\
  editMode (read_loop parse chunks fullOutput st).2 = editMode st.
Proof.
  revert fullOutput st.
  induction chunks as [|value chunks IH]; intros fullOutput st Hout; [done|].
  cbn [read_loop].
  destruct (for_lines_output (Js.split Js.LF value) fullOutput st Hout) as (Ho & Hr & He).
  destruct (for_lines parse (Js.split Js.LF value) fullOutput st) as [fullOutput' st'].
  simpl in Ho, Hr, He. rewrite <- Hr, <- He. by apply IH.
Qed.

Lemma catch_block_output (cell : NotebookPage.Cell) (shownBefore : string) (e : Js.Error)
    (st : State) :
  (catch_block cell shownBefore e st).2
  = [with_output cell (output (catch_block cell shownBefore e st).1)] /\
  editMode (catch_block cell shownBefore e st).1 = editMode st.
Proof. unfold catch_block. by destruct (Js.isAbortError e). Qed.

(** X22: however a run goes (rejected request, stream closed or broken,
    any status, any chunks, any parser), [handleRun] calls [onChange] exactly
    once, with the cell changed in its output only, and that output is the
    one the cell then shows; the running flag is lowered again and the edit
    mode is untouched. *)
Theorem handleRun_reports_what_it_shows (cell : NotebookPage.Cell) (reply : Reply) (st : State) :
  let after := (handleRun parse cell reply st).1 in
  (handleRun parse cell reply st).2 = [with_output cell (output after)] /\
  running after = false /\
  editMode after = editMode st.
Proof.
  cbv zeta. unfold handleRun.
  destruct reply as [e | status chunks ending].
  - destruct (catch_block_output cell (output st) e (setOutput "" (setRunning true st)))
      as [Hch He].
    destruct (catch_block cell (output st) e (setOutput "" (setRunning true st)))
      as [st2 changes].
    simpl in *. by rewrite Hch.
  - destruct (read_loop_output chunks "" (setOutput "" (setRunning true st)) eq_refl)
      as (Ho & _ & He).
    destruct (read_loop parse chunks "" (setOutput "" (setRunning true st)))
      as [fullOutput st'].
    simpl in Ho, He. destruct ending as [|e].
    + simpl. by rewrite Ho.
    + destruct (catch_block_output cell (output st) e st') as [Hch He'].
      destruct (catch_block cell (output st) e st') as [st2 changes].
      simpl in *. rewrite Hch. split; [done|]. split; [done|]. by rewrite He'.
Qed.

Variable enc : Frame -> string.

Lemma for_lines_frame (data : Frame) (fullOutput : string) (st : State) :
  parse (enc data) = Some data ->
  for_lines parse [data_line (enc data); ""; ""] fullOutput (setOutput fullOutput st)
  = (fullOutput +:+ default "" (frame_output data),
     setOutput (fullOutput +:+ default "" (frame_output data)) st).
Proof.
  intros Hparse. cbn [for_lines]. rewrite startsWith_data_line.
  change (Js.slice 6 (data_line (enc data))) with (enc data). rewrite Hparse.
  change (Js.startsWith "" "data: ") with false.
  destruct (frame_output data) as [text|]; cbn [default from_option id]; [done|].
  by rewrite str_app_nil_r.
Qed.

Lemma read_loop_frames (frames : list Frame) (fullOutput : string) (st : State) :
  Forall (fun data => parse (enc data) = Some data /\ free_of Js.LF (enc data) = true) frames ->
  read_loop parse (events enc frames) fullOutput (setOutput fullOutput st)
  = (fullOutput +:+ frames_output frames,
     setOutput (fullOutput +:+ frames_output frames) st).
Proof.
  intros Hall. revert fullOutput.
  induction Hall as [|data frames [Hparse Hfree] _ IH]; intros fullOutput.
  - unfold frames_output. cbn [events map read_loop joined fold_right].
    by rewrite str_app_nil_r.
  - unfold frames_output, events in *. cbn [map read_loop joined fold_right].
    rewrite (split_event _ Hfree), (for_lines_frame _ _ _ Hparse).
    rewrite IH. by rewrite str_app_assoc.
Qed.

(** X23: a run whose stream arrives whole, one frame per chunk, and is
    closed leaves as output what its frames add, in order: the text of
    stdout and stderr frames, an error frame's text after a line feed and
    "Error: ", and the exit code of a done frame unless it is 0.  The
    status of the response plays no part. *)
Theorem handleRun_collects_frames (cell : NotebookPage.Cell) (frames : list Frame)
    (status : N) (st : State) :
  Forall (fun data => parse (enc data) = Some data /\ free_of Js.LF (enc data) = true) frames ->
  handleRun parse cell (Answered status (events enc frames) Closed) st
  = (mkState false (frames_output frames) (editMode st),
     [with_output cell (frames_output frames)]).
Proof.
  intros Hall. unfold handleRun.
  rewrite (read_loop_frames frames "" (setRunning true st) Hall).
  done.
Qed.

(** X24: a run that fails shows nothing of what had been streamed.  When
    it was stopped by the user, the output is the one shown before the run
    was started, followed by the stop notice; after any other failure it is
    "Error: " and the failure's message. *)
Theorem failed_run_output (cell : NotebookPage.Cell) (reply : Reply) (e : Js.Error) (st : State) :
  reply = Rejected e \/ (exists status chunks, reply = Answered status chunks (Broken e)) ->
  output (handleRun parse cell reply st).1
  = if Js.isAbortError e then output st +:+ stopped_text
    else "Error: " +:+ Js.err_message e.
Proof.
  intros [-> | (status & chunks & ->)]; unfold handleRun.
  - unfold catch_block. by destruct (Js.isAbortError e).
  - destruct (read_loop parse chunks "" (setOutput "" (setRunning true st)))
      as [fullOutput st'].
    unfold catch_block. by destruct (Js.isAbortError e).
Qed.

End CodeCellRuns.

(** The example: a run that prints 4, warns and exits with 0. *)
Lemma handleRun_collects_frames_witness :
  let cell := NotebookPage.mkCell "code" "print(2 + 2)" None None in
  let frames := [CodeCell.mkFrame "stdout" (Some "4") None;
                 CodeCell.mkFrame "stderr" (Some "warn") None;
                 CodeCell.mkFrame "done" None (Some 0)] in
  CodeCell.handleRun CodeCell.parse_run_frame cell
    (Stream.Answered 200 (CodeCell.events CodeCell.write_run_frame frames) Stream.Closed)
    (CodeCell.mount cell)
  = (CodeCell.mkState false "4warn" false, [CodeCell.with_output cell "4warn"]).
Proof.
  cbv zeta.
  refine (handleRun_collects_frames CodeCell.parse_run_frame CodeCell.write_run_frame
            (NotebookPage.mkCell "code" "print(2 + 2)" None None)
            [CodeCell.mkFrame "stdout" (Some "4") None;
             CodeCell.mkFrame "stderr" (Some "warn") None;
             CodeCell.mkFrame "done" None (Some 0)] 200 _ _).
  repeat constructor.
Defined.

(** The example: a cell showing 4 is run again and stopped after it has
    printed 5. *)
Lemma failed_run_output_witness :
  let cell := NotebookPage.mkCell "code" "print(2 + 3)" (Some "4") None in
  CodeCell.output
    (CodeCell.handleRun CodeCell.parse_run_frame cell
       (Stream.Answered 200
          (CodeCell.events CodeCell.write_run_frame [CodeCell.mkFrame "stdout" (Some "5") None])
          (Stream.Broken (Js.mkError "AbortError" "The user aborted a request.")))
       (CodeCell.mount cell)).1
  = "4" +:+ CodeCell.stopped_text.
Proof.
  cbv zeta.
  refine (failed_run_output CodeCell.parse_run_frame _ _
            (Js.mkError "AbortError" "The user aborted a request.") _ _).
  right. eauto.
Defined.
